(** * The self-improvement loop of [recursive-ai-code.py]

    A shallow embedding of class [SelfImprovingAI]: its five metrics, the
    analyse / generate / test / apply cycle and the bookkeeping around it.

    Modelling choices.
    - Python floats are exact rationals ([Q]); the literals [0.3], [0.8],
      [100.0] ... are the rationals they denote.  IEEE rounding is outside
      the model.
    - Python dicts are association lists in insertion order ([Dict.t]):
      iteration order decides the order of the random draws and of the
      history records.
    - The [random] module is an explicit source consumed call by call, and
      [datetime.now()] an explicit clock; both are read through a position
      kept in the world state.
    - Methods are computations in a state-and-exception monad over the
      world: the object [self], the number of calls made to the random
      source and the number of clock readings.  [KeyError] and [IndexError]
      are the exceptions the code can raise.
    - Logging and printing do not touch the state and are left out. *)

From Stdlib Require Import String Ascii List ZArith QArith Qminmax Bool Lia Lqa.
From Stdlib Require Import DecimalString Sorted.
Import ListNotations.

Local Open Scope string_scope.
Local Open Scope Q_scope.

(** ** Python values *)

(** [str(n)] for an int. *)
Definition str_of_int (n : Z) : string := NilZero.string_of_int (Z.to_int n).

Definition newline : string := String (ascii_of_nat 10) EmptyString.

(** [a < b] and [a > b] on floats. *)
Definition Qltb (a b : Q) : bool :=
  match a ?= b with Lt => true | _ => false end.
Definition Qgtb (a b : Q) : bool := Qltb b a.

(** The builtin [min(a, b)]: the first argument unless the second is
    strictly smaller. *)
Definition py_min (a b : Q) : Q := if Qltb b a then b else a.

(** ** Dicts, in insertion order *)

Module Dict.

Definition t (V : Type) : Type := list (string * V).

Definition empty {V : Type} : t V := [].

Definition keys {V : Type} (d : t V) : list string := map fst d.
Definition values {V : Type} (d : t V) : list V := map snd d.
Definition items {V : Type} (d : t V) : list (string * V) := d.
Definition copy {V : Type} (d : t V) : t V := d.

(** [d.get(k)] *)
Fixpoint get {V : Type} (d : t V) (k : string) : option V :=
  match d with
  | [] => None
  | (k', v) :: d' => if String.eqb k k' then Some v else get d' k
  end.

(** [d.get(k, default)] *)
Definition get_default {V : Type} (d : t V) (k : string) (default : V) : V :=
  match get d k with Some v => v | None => default end.

(** [d[k] = v]: an existing key keeps its place, a new one goes last. *)
Fixpoint set {V : Type} (d : t V) (k : string) (v : V) : t V :=
  match d with
  | [] => [(k, v)]
  | (k', v') :: d' =>
      if String.eqb k k' then (k', v) :: d' else (k', v') :: set d' k v
  end.

(** A dict has no key twice. *)
Definition wf {V : Type} (d : t V) : Prop := NoDup (keys d).

End Dict.

(** ** The records of the program *)

Module Analysis.
Record t : Type := mk {
  current_score : Q;
  improvement_potential : Q;
  priority : Q
}.
End Analysis.

Module Improvement.
Record t : Type := mk {
  type : string;
  code : string;
  expected_gain : Q;
  risk_level : Q
}.
End Improvement.

Module TestDetails.
Record t : Type := mk {
  execution_time : Q;
  memory_usage : Q;
  error_rate : Q
}.
End TestDetails.

Module TestResult.
Record t : Type := mk {
  success : bool;
  performance_gain : Q;
  stability : bool;
  test_details : TestDetails.t
}.
End TestResult.

Module ImprovementRecord.
Record t : Type := mk {
  generation : Z;
  metric : string;
  old_value : Q;
  new_value : Q;
  improvement : Q;
  timestamp : string
}.
End ImprovementRecord.

Module Summary.
Record t : Type := mk {
  generation : Z;
  analysis : Dict.t Analysis.t;
  improvements_attempted : nat;
  improvements_successful : nat;
  performance_metrics : Dict.t Q;
  total_improvement_from_baseline : Dict.t Q
}.
End Summary.

(** The object [self]. *)
Record SelfImprovingAI : Type := mkAI {
  generation : Z;
  performance_metrics : Dict.t Q;
  improvement_history : list ImprovementRecord.t;
  current_algorithms : Dict.t string;
  baseline_performance : Dict.t Q
}.

Module Report.
Record t : Type := mk {
  current_generation : Z;
  baseline_performance : Dict.t Q;
  current_performance : Dict.t Q;
  total_improvements : nat;
  improvement_history : list ImprovementRecord.t;
  overall_progress : Dict.t Q
}.
End Report.

(** ** The world: random source, clock, exceptions *)

(** What the [random] module hands out.  [random_at k] is the value of the
    [k]-th call when that call is [random.random()], a float in [[0, 1)];
    [randbelow_at k n] is its value when that call is the integer draw
    below [n] that [random.choice] makes. *)
Record RandomSource : Type := mkSource {
  random_at : nat -> Q;
  randbelow_at : nat -> nat -> nat;
  random_range : forall k, 0 <= random_at k /\ random_at k < 1;
  randbelow_range : forall k n, (0 < n)%nat -> (randbelow_at k n < n)%nat
}.

Inductive exn : Type :=
| KeyError (key : string)
| IndexError.

Record World : Type := mkWorld {
  self : SelfImprovingAI;
  rng_calls : nat;
  clock_calls : nat
}.

Inductive outcome (A : Type) : Type :=
| Ok (a : A) (w : World)
| Raise (e : exn) (w : World).
Arguments Ok {A} a w.
Arguments Raise {A} e w.

Definition M (A : Type) : Type := World -> outcome A.

Definition ret {A : Type} (a : A) : M A := fun w => Ok a w.

Definition bind {A B : Type} (m : M A) (f : A -> M B) : M B :=
  fun w => match m w with
           | Ok a w' => f a w'
           | Raise e w' => Raise e w'
           end.

Definition raise {A : Type} (e : exn) : M A := fun w => Raise e w.

Notation "x <- m ;; k" := (bind m (fun x => k))
  (at level 61, m at next level, right associativity).
Notation "m ;;; k" := (bind m (fun _ => k))
  (at level 61, right associativity).

Definition get_self : M SelfImprovingAI := fun w => Ok (self w) w.

Definition put_self (s : SelfImprovingAI) : M unit :=
  fun w => Ok tt (mkWorld s (rng_calls w) (clock_calls w)).

(** A [for] loop that updates a local variable. *)
Fixpoint for_fold {A B : Type} (l : list A) (acc : B) (body : B -> A -> M B)
  : M B :=
  match l with
  | [] => ret acc
  | x :: l' => acc' <- body acc x ;; for_fold l' acc' body
  end.

(** [d[k]] *)
Definition getitem {V : Type} (d : Dict.t V) (k : string) : M V :=
  match Dict.get d k with
  | Some v => ret v
  | None => raise (KeyError k)
  end.

(** Field updates of [self]. *)
Definition with_performance_metrics (s : SelfImprovingAI) (d : Dict.t Q)
  : SelfImprovingAI :=
  mkAI (generation s) d (improvement_history s) (current_algorithms s)
       (baseline_performance s).

Definition with_improvement_history (s : SelfImprovingAI)
  (h : list ImprovementRecord.t) : SelfImprovingAI :=
  mkAI (generation s) (performance_metrics s) h (current_algorithms s)
       (baseline_performance s).

Definition with_generation (s : SelfImprovingAI) (g : Z) : SelfImprovingAI :=
  mkAI g (performance_metrics s) (improvement_history s)
       (current_algorithms s) (baseline_performance s).

(** ** The class [SelfImprovingAI] *)

(** [__init__] *)
Definition initial_metrics : Dict.t Q :=
  [ ("algorithm_efficiency", 45);
    ("self_awareness_level", 20);
    ("improvement_accuracy", 30);
    ("code_quality", 40);
    ("learning_speed", 35) ].

Definition __init__ : SelfImprovingAI :=
  let performance_metrics := initial_metrics in
  mkAI 1%Z
       performance_metrics
       []
       [ ("optimization_algo", "basic_gradient_descent");
         ("self_analysis_algo", "simple_performance_check");
         ("learning_algo", "basic_pattern_recognition");
         ("code_generation_algo", "template_based_generation") ]
       (Dict.copy performance_metrics).

(** The table of [_select_improvement_type]. *)
Definition improvement_types : Dict.t (list string) :=
  [ ("algorithm_efficiency", ["optimization"; "caching"; "parallelization"]);
    ("self_awareness_level",
       ["deeper_analysis"; "metric_expansion"; "pattern_recognition"]);
    ("improvement_accuracy",
       ["better_testing"; "validation_enhancement"; "feedback_loops"]);
    ("code_quality", ["refactoring"; "design_patterns"; "error_handling"]);
    ("learning_speed",
       ["meta_learning"; "knowledge_transfer"; "adaptive_algorithms"]) ].

(** The f-strings of [_generate_improvement_code]; [v] is
    [str(self.generation + 1)]. *)
Definition lines (l : list string) : string := String.concat newline l.

Definition template_optimization (metric improvement_type v : string) : string :=
  lines
    [ "";
      "def improved_" ++ metric ++ "_v" ++ v ++ "(self, data):";
      "    # Enhanced with " ++ improvement_type;
      "    cached_results = self.get_cache(data)";
      "    if cached_results:";
      "        return cached_results";
      "    ";
      "    # Optimized processing";
      "    result = self.process_with_optimization(data)";
      "    self.cache_result(data, result)";
      "    return result";
      "            " ]%string.

Definition template_deeper_analysis (metric v : string) : string :=
  lines
    [ "";
      "def enhanced_" ++ metric ++ "_analysis_v" ++ v ++ "(self):";
      "    # Multi-dimensional analysis";
      "    surface_metrics = self.basic_analysis()";
      "    deep_metrics = self.deep_pattern_analysis()";
      "    meta_metrics = self.analyze_analysis_quality()";
      "    ";
      "    return self.synthesize_comprehensive_view(";
      "        surface_metrics, deep_metrics, meta_metrics";
      "    )";
      "            " ]%string.

Definition template_meta_learning (metric v : string) : string :=
  lines
    [ "";
      "def meta_learning_" ++ metric ++ "_v" ++ v ++ "(self, experiences):";
      "    # Learn how to learn better";
      "    learning_patterns = self.extract_learning_patterns(experiences)";
      "    meta_patterns = self.find_patterns_in_patterns(learning_patterns)";
      "    ";
      "    # Improve the learning algorithm itself";
      "    self.update_learning_strategy(meta_patterns)";
      "    return self.apply_improved_learning(experiences)";
      "            " ]%string.

Definition template_generic (metric v : string) : string :=
  ("# Improved " ++ metric ++ " algorithm v" ++ v)%string.

Definition code_templates (s : SelfImprovingAI)
  (metric improvement_type : string) : Dict.t string :=
  let v := str_of_int (generation s + 1) in
  [ ("optimization", template_optimization metric improvement_type v);
    ("deeper_analysis", template_deeper_analysis metric v);
    ("meta_learning", template_meta_learning metric v) ].

Section Engine.

Variable rs : RandomSource.
Variable now_at : nat -> string.

(** [random.random()] *)
Definition random : M Q :=
  fun w => Ok (random_at rs (rng_calls w))
              (mkWorld (self w) (S (rng_calls w)) (clock_calls w)).

(** The integer draw below [n] inside [random.choice]. *)
Definition randbelow (n : nat) : M nat :=
  fun w => Ok (randbelow_at rs (rng_calls w) n)
              (mkWorld (self w) (S (rng_calls w)) (clock_calls w)).

(** [random.uniform(a, b)] is [a + (b - a) * random()]. *)
Definition uniform (a b : Q) : M Q :=
  u <- random ;; ret (a + (b - a) * u).

(** [random.choice(seq)] *)
Definition choice {A : Type} (seq : list A) : M A :=
  match seq with
  | [] => raise IndexError
  | _ :: _ =>
      i <- randbelow (length seq) ;;
      match nth_error seq i with
      | Some x => ret x
      | None => raise IndexError
      end
  end.

(** [datetime.now().isoformat()] *)
Definition datetime_now_isoformat : M string :=
  fun w => Ok (now_at (clock_calls w))
              (mkWorld (self w) (rng_calls w) (S (clock_calls w))).

Definition analyze_self_performance : M (Dict.t Analysis.t) :=
  s <- get_self ;;
  for_fold (Dict.items (performance_metrics s)) Dict.empty
    (fun analysis '(metric, value) =>
       let improvement_potential := 100 - value in
       ret (Dict.set analysis metric
              (Analysis.mk value improvement_potential
                           (improvement_potential / 100)))).

Definition _select_improvement_type (metric : string) : M string :=
  choice (Dict.get_default improvement_types metric ["general_optimization"]).

Definition _generate_improvement_code (metric improvement_type : string)
  : M string :=
  s <- get_self ;;
  ret (Dict.get_default (code_templates s metric improvement_type)
         improvement_type
         (template_generic metric (str_of_int (generation s + 1)))).

Definition generate_improvements (analysis : Dict.t Analysis.t)
  : M (Dict.t Improvement.t) :=
  for_fold (Dict.items analysis) Dict.empty
    (fun improvements '(metric, data) =>
       if Qgtb (Analysis.priority data) (3 # 10) then
         improvement_type <- _select_improvement_type metric ;;
         improvement_code <- _generate_improvement_code metric improvement_type ;;
         expected_gain <- uniform 2 12 ;;
         risk_level <- uniform (1 # 10) (8 # 10) ;;
         ret (Dict.set improvements metric
                (Improvement.mk improvement_type improvement_code
                                expected_gain risk_level))
       else ret improvements).

Definition test_improvements (improvements : Dict.t Improvement.t)
  : M (Dict.t TestResult.t) :=
  for_fold (Dict.items improvements) Dict.empty
    (fun test_results '(metric, improvement) =>
       let success_probability := 8 # 10 in
       scale <- uniform (5 # 10) (12 # 10) ;;
       let performance_gain := Improvement.expected_gain improvement * scale in
       r1 <- random ;;
       let test_passed := Qltb r1 success_probability in
       r2 <- random ;;
       let stability_check := Qgtb r2 (Improvement.risk_level improvement) in
       execution_time <- uniform (1 # 10) 2 ;;
       memory_usage <- uniform (5 # 10) (15 # 10) ;;
       error_rate <- uniform 0 (1 # 10) ;;
       ret (Dict.set test_results metric
              (TestResult.mk (test_passed && stability_check)
                 (if test_passed then performance_gain else 0)
                 stability_check
                 (TestDetails.mk execution_time memory_usage error_rate)))).

Definition apply_improvements (test_results : Dict.t TestResult.t) : M unit :=
  for_fold (Dict.items test_results) 0%nat
    (fun total_improvements '(metric, results) =>
       if TestResult.success results then
         s <- get_self ;;
         old_value <- getitem (performance_metrics s) metric ;;
         let improvement := TestResult.performance_gain results in
         let new_value := py_min 100 (old_value + improvement) in
         put_self (with_performance_metrics s
                     (Dict.set (performance_metrics s) metric new_value)) ;;;
         s <- get_self ;;
         now <- datetime_now_isoformat ;;
         let improvement_record :=
           ImprovementRecord.mk (generation s) metric old_value new_value
                                improvement now in
         s <- get_self ;;
         put_self (with_improvement_history s
                     (improvement_history s ++ [improvement_record])) ;;;
         ret (S total_improvements)
       else ret total_improvements) ;;;
  ret tt.

(** [{metric: current - baseline[metric] for metric, current in d.items()}] *)
Definition delta_from (baseline d : Dict.t Q) : M (Dict.t Q) :=
  for_fold (Dict.items d) Dict.empty
    (fun acc '(metric, current) =>
       b <- getitem baseline metric ;;
       ret (Dict.set acc metric (current - b))).

Definition evolve_generation : M Summary.t :=
  analysis <- analyze_self_performance ;;
  improvements <- generate_improvements analysis ;;
  test_results <- test_improvements improvements ;;
  apply_improvements test_results ;;;
  s <- get_self ;;
  put_self (with_generation s (generation s + 1)) ;;;
  s <- get_self ;;
  total <- delta_from (baseline_performance s) (performance_metrics s) ;;
  ret (Summary.mk (generation s - 1)
         analysis
         (length improvements)
         (length (filter TestResult.success (Dict.values test_results)))
         (Dict.copy (performance_metrics s))
         total).

(** [run_evolution_cycles]: the summaries it prints, in order.  Printing a
    summary reads [self.baseline_performance[metric]] for each metric of
    the snapshot; the pause between cycles is left out. *)
Fixpoint run_evolution_cycles (num_cycles : nat) : M (list Summary.t) :=
  match num_cycles with
  | O => ret []
  | S n =>
      evolution_result <- evolve_generation ;;
      s <- get_self ;;
      for_fold (Dict.items (Summary.performance_metrics evolution_result)) tt
        (fun _ '(metric, value) =>
           baseline <- getitem (baseline_performance s) metric ;;
           ret tt) ;;;
      rest <- run_evolution_cycles n ;;
      ret (evolution_result :: rest)
  end.

Definition get_evolution_report : M Report.t :=
  s <- get_self ;;
  progress <-
    for_fold (Dict.keys (performance_metrics s)) Dict.empty
      (fun acc metric =>
         c <- getitem (performance_metrics s) metric ;;
         b <- getitem (baseline_performance s) metric ;;
         ret (Dict.set acc metric (c - b))) ;;
  ret (Report.mk (generation s)
         (baseline_performance s)
         (performance_metrics s)
         (length (improvement_history s))
         (improvement_history s)
         progress).

End Engine.

(** * The vocabulary of the statements *)

(** The world an outcome leaves behind, returned or raised. *)
Definition final {A : Type} (o : outcome A) : World :=
  match o with Ok _ w => w | Raise _ w => w end.

(** A computation keeps a relation between the worlds before and after,
    whichever way it ends. *)
Definition keeps {A : Type} (R : World -> World -> Prop) (m : M A) : Prop :=
  forall w, R w (final (m w)).

(** The baseline mapping is the same before and after. *)
Definition same_baseline (w w' : World) : Prop :=
  baseline_performance (self w') = baseline_performance (self w).

(** Only the random source and the clock may have moved: [self] is the
    same object state. *)
Definition same_self (w w' : World) : Prop := self w' = self w.

(** The analysis entry of a metric. *)
Definition analysis_entry (mv : string * Q) : string * Analysis.t :=
  (fst mv, Analysis.mk (snd mv) (100 - snd mv) ((100 - snd mv) / 100)).

(** An analysis entry was computed from its own [current_score]. *)
Definition analysed (data : Analysis.t) : Prop :=
  Analysis.improvement_potential data = 100 - Analysis.current_score data /\
  Analysis.priority data = (100 - Analysis.current_score data) / 100.

(** The test of [generate_improvements]: [data['priority'] > 0.3]. *)
Definition selected (md : string * Analysis.t) : bool :=
  Qgtb (Analysis.priority (snd md)) (3 # 10).

(** The ranges [generate_improvements] draws from. *)
Definition candidate_in_range (imp : Improvement.t) : Prop :=
  (2 <= Improvement.expected_gain imp /\ Improvement.expected_gain imp <= 12) /\
  ((1 # 10) <= Improvement.risk_level imp /\
   Improvement.risk_level imp <= (8 # 10)).

(** The test result of one candidate when the random source stands at
    call [p]: the six draws of one iteration of [test_improvements]. *)
Definition test_outcome (rs : RandomSource) (p : nat)
  (improvement : Improvement.t) : TestResult.t :=
  let scale := (5 # 10) + ((12 # 10) - (5 # 10)) * random_at rs p in
  let test_passed := Qltb (random_at rs (p + 1)) (8 # 10) in
  let stability_check :=
    Qgtb (random_at rs (p + 2)) (Improvement.risk_level improvement) in
  TestResult.mk (test_passed && stability_check)
    (if test_passed then Improvement.expected_gain improvement * scale else 0)
    stability_check
    (TestDetails.mk ((1 # 10) + (2 - (1 # 10)) * random_at rs (p + 3))
                    ((5 # 10) + ((15 # 10) - (5 # 10)) * random_at rs (p + 4))
                    (0 + ((1 # 10) - 0) * random_at rs (p + 5))).

(** The test results of the candidates [l], visited in order from call
    [p] on, six calls each. *)
Fixpoint test_outcomes (rs : RandomSource) (p : nat)
  (l : list (string * Improvement.t)) : Dict.t TestResult.t :=
  match l with
  | [] => []
  | (m, imp) :: l' => (m, test_outcome rs p imp) :: test_outcomes rs (p + 6) l'
  end.

(** The realized gain of a candidate drawn in range. *)
Definition gain_in_range (r : TestResult.t) : Prop :=
  0 <= TestResult.performance_gain r /\
  TestResult.performance_gain r <= (144 # 10).

(** The history record of a successful test result [mr], written when the
    generation counter was [g] and the metrics were [pm]. *)
Definition is_record_of (g : Z) (pm : Dict.t Q)
  (mr : string * TestResult.t) (rec : ImprovementRecord.t) : Prop :=
  exists old,
    Dict.get pm (fst mr) = Some old /\
    rec = ImprovementRecord.mk g (fst mr) old
            (py_min 100 (old + TestResult.performance_gain (snd mr)))
            (TestResult.performance_gain (snd mr))
            (ImprovementRecord.timestamp rec).

(** The value of metric [m] once [test_results] have been applied to [pm]. *)
Definition applied_value (test_results : Dict.t TestResult.t) (pm : Dict.t Q)
  (m : string) : option Q :=
  match Dict.get test_results m with
  | Some r =>
      if TestResult.success r
      then option_map
             (fun old => py_min 100 (old + TestResult.performance_gain r))
             (Dict.get pm m)
      else Dict.get pm m
  | None => Dict.get pm m
  end.

(** [results['success']] of an item of the test results. *)
Definition successful (mr : string * TestResult.t) : bool :=
  TestResult.success (snd mr).

(** The world once the generation counter has been incremented. *)
Definition next_generation (w : World) : World :=
  mkWorld (with_generation (self w) (generation (self w) + 1))
          (rng_calls w) (clock_calls w).

(** Every metric has a baseline: [self.baseline_performance[metric]] does
    not raise. *)
Definition has_baselines (s : SelfImprovingAI) : Prop :=
  incl (Dict.keys (performance_metrics s)) (Dict.keys (baseline_performance s)).

(** A score is fine: it lies in [[0, 100]] and is not below its baseline. *)
Definition score_ok (baseline : Dict.t Q) (mv : string * Q) : Prop :=
  (0 <= snd mv /\ snd mv <= 100) /\
  exists b, Dict.get baseline (fst mv) = Some b /\ b <= snd mv.

(** The invariant of the engine: the metrics are a dict and every score
    is fine. *)
Definition Inv (s : SelfImprovingAI) : Prop :=
  Dict.wf (performance_metrics s) /\
  Forall (score_ok (baseline_performance s)) (performance_metrics s).

(** [d'] has the metrics of [d], none with a lower score. *)
Definition scores_le (d d' : Dict.t Q) : Prop :=
  forall m v, Dict.get d m = Some v ->
              exists v', Dict.get d' m = Some v' /\ v <= v'.

(** A run of consecutive cycles, each from a state that satisfies the
    invariant, with the summaries they return. *)
Inductive cycles (rs : RandomSource) (now_at : nat -> string)
  : World -> list Summary.t -> World -> Prop :=
| cycles_nil (w : World) : cycles rs now_at w [] w
| cycles_cons (w : World) (sm : Summary.t) (w1 : World)
    (sums : list Summary.t) (w' : World) :
    Inv (self w) ->
    evolve_generation rs now_at w = Ok sm w1 ->
    cycles rs now_at w1 sums w' ->
    cycles rs now_at w (sm :: sums) w'.

(** A record as [apply_improvements] writes it from a result with a gain
    in range. *)
Definition record_ok (rec : ImprovementRecord.t) : Prop :=
  ImprovementRecord.new_value rec
  = py_min 100 (ImprovementRecord.old_value rec
                + ImprovementRecord.improvement rec) /\
  0 <= ImprovementRecord.improvement rec.

(** Every score of [pm] lies in [[0, 100]]. *)
Definition scores_in_range (pm : Dict.t Q) : Prop :=
  Forall (fun mv => 0 <= snd mv /\ snd mv <= 100) pm.

(** A random source that answers every call with the same float, and every
    integer draw with the first index. *)
Definition fixed_source (q : Q) (H0 : 0 <= q) (H1 : q < 1) : RandomSource :=
  mkSource (fun _ => q) (fun _ _ => 0%nat)
           (fun _ => conj H0 H1) (fun _ _ H => H).

(** Every float drawn is 0.25: each pass/fail draw succeeds and each
    stability draw fails. *)
Definition quarter_source : RandomSource.
Proof. refine (fixed_source (1 # 4) _ _); [discriminate | reflexivity]. Defined.

(** Every float drawn is 0.5. *)
Definition half_source : RandomSource.
Proof. refine (fixed_source (1 # 2) _ _); [discriminate | reflexivity]. Defined.

(** A source whose pass/fail draws all fail in cycles run from
    construction: call [45 c + 16 + 6 i] answers 0.9, every other call
    0.5. *)
Definition is_pass_draw (k : nat) : bool :=
  (15 <? k mod 45)%nat && ((k mod 45 - 16) mod 6 =? 0)%nat.

Definition pass_failing_source : RandomSource.
Proof.
  refine (mkSource (fun k => if is_pass_draw k then 9 # 10 else 1 # 2)
                   (fun _ _ => 0%nat) _ (fun _ _ H => H)).
  intros k. destruct (is_pass_draw k); split; (discriminate || reflexivity).
Defined.

(** A clock that always reads the same instant. *)
Definition still_clock (k : nat) : string := "2024-01-01T00:00:00".

(** The world right after construction. *)
Definition start (rng clock : nat) : World := mkWorld __init__ rng clock.

(** The state of an engine whose metrics are [pm], at generation [g]. *)
Definition engine_with (pm : Dict.t Q) (g : Z) : SelfImprovingAI :=
  with_generation (with_performance_metrics __init__ pm) g.

(** An engine with one metric exactly at 70 (priority 0.3, not above it)
    and one at 85 (priority 0.15). *)
Definition boundary_engine : SelfImprovingAI :=
  engine_with
    (Dict.set (Dict.set initial_metrics "code_quality" 70) "learning_speed" 85)
    1.

(** An engine to which a metric without a baseline has been added. *)
Definition unbaselined_engine : SelfImprovingAI :=
  engine_with (Dict.set initial_metrics "response_time" 10) 1.

(** A test result with [success = true] and the realized gain [gain]. *)
Definition passed (gain : Q) : TestResult.t :=
  TestResult.mk true gain true (TestDetails.mk 1 1 0).

(** The number of candidates a cycle proposes from the metrics [pm]. *)
Definition candidates (pm : Dict.t Q) : nat :=
  length (filter selected (map analysis_entry pm)).

(** ** Further vocabulary *)

(** The world after one successful result for [m] has been applied: the
    body of the loop of [apply_improvements] when [self.performance_metrics[m]]
    is [old]. *)
Definition applied_once (now_at : nat -> string) (m : string)
  (r : TestResult.t) (old : Q) (w : World) : World :=
  let new_value := py_min 100 (old + TestResult.performance_gain r) in
  mkWorld
    (with_improvement_history
       (with_performance_metrics (self w)
          (Dict.set (performance_metrics (self w)) m new_value))
       (improvement_history (self w)
        ++ [ImprovementRecord.mk (generation (self w)) m old new_value
              (TestResult.performance_gain r) (now_at (clock_calls w))]))
    (rng_calls w) (S (clock_calls w)).

(** [value < 70]: the scores for which a candidate is proposed. *)
Definition below_threshold (mv : string * Q) : bool := Qltb (snd mv) 70.

(** The metrics obtained by writing the new values of the records [h], in
    order, into [d]. *)
Definition replay (h : list ImprovementRecord.t) (d : Dict.t Q) : Dict.t Q :=
  fold_left
    (fun d rec => Dict.set d (ImprovementRecord.metric rec)
                    (ImprovementRecord.new_value rec))
    h d.

(** Each record of [h] has as old value the score its metric has once the
    records before it have been written into [d]. *)
Fixpoint chained (d : Dict.t Q) (h : list ImprovementRecord.t) : Prop :=
  match h with
  | [] => True
  | rec :: h' =>
      Dict.get d (ImprovementRecord.metric rec)
      = Some (ImprovementRecord.old_value rec) /\
      chained (Dict.set d (ImprovementRecord.metric rec)
                 (ImprovementRecord.new_value rec)) h'
  end.

(** [recs] are the records [apply_improvements] writes for [test_results]
    at generation [g] on the metrics [pm], leaving the metrics [pm']: one
    per result with [success = true], in order, with the result's metric
    and gain and with [min(100, old + gain)] as new value; each old value
    is the metric's score when the record was written, and [pm'] is [pm]
    with the new values written in. *)
Definition records_applied (g : Z) (pm : Dict.t Q)
  (test_results : Dict.t TestResult.t) (recs : list ImprovementRecord.t)
  (pm' : Dict.t Q) : Prop :=
  Forall2
    (fun mr rec =>
       ImprovementRecord.generation rec = g /\
       ImprovementRecord.metric rec = fst mr /\
       ImprovementRecord.improvement rec = TestResult.performance_gain (snd mr) /\
       ImprovementRecord.new_value rec
       = py_min 100 (ImprovementRecord.old_value rec
                     + ImprovementRecord.improvement rec))
    (filter successful test_results) recs /\
  chained pm recs /\
  replay recs pm = pm'.

(** The number of records of [h] written in generation [g]. *)
Definition records_of_generation (g : Z) (h : list ImprovementRecord.t) : nat :=
  length (filter (fun rec => Z.eqb (ImprovementRecord.generation rec) g) h).

(** The sum of the scores of [d]. *)
Definition sum_scores (d : Dict.t Q) : Q :=
  fold_right (fun mv acc => snd mv + acc) 0 d.

(** [{metric: current - baseline[metric] ...}] when every metric has a
    baseline. *)
Definition deltas (baseline d : Dict.t Q) : Dict.t Q :=
  map (fun mv => (fst mv, snd mv - Dict.get_default baseline (fst mv) 0)) d.

(** A candidate for metric [m] as [generate_improvements] builds it in
    the state [s]: a type of the metric's list, the text of that type, and
    draws in range. *)
Definition candidate_ok (s : SelfImprovingAI) (mi : string * Improvement.t)
  : Prop :=
  In (Improvement.type (snd mi))
     (Dict.get_default improvement_types (fst mi) ["general_optimization"]) /\
  Improvement.code (snd mi)
  = Dict.get_default
      (code_templates s (fst mi) (Improvement.type (snd mi)))
      (Improvement.type (snd mi))
      (template_generic (fst mi) (str_of_int (generation s + 1))) /\
  candidate_in_range (snd mi).

(** A test result of a candidate drawn in range: the gain is 0 or lies in
    [[1, 14.4]], a success has passed both draws and has a gain of at
    least 1, and the diagnostic figures lie in their ranges. *)
Definition result_ok (r : TestResult.t) : Prop :=
  gain_in_range r /\
  (TestResult.success r = true ->
   TestResult.stability r = true /\ 1 <= TestResult.performance_gain r) /\
  (TestResult.performance_gain r == 0 \/ 1 <= TestResult.performance_gain r) /\
  ((1 # 10) <= TestDetails.execution_time (TestResult.test_details r) /\
   TestDetails.execution_time (TestResult.test_details r) <= 2) /\
  ((5 # 10) <= TestDetails.memory_usage (TestResult.test_details r) /\
   TestDetails.memory_usage (TestResult.test_details r) <= (15 # 10)) /\
  (0 <= TestDetails.error_rate (TestResult.test_details r) /\
   TestDetails.error_rate (TestResult.test_details r) <= (1 # 10)).

(** A record written in a cycle: the metric was below 70, the gain lies in
    [[1, 14.4]] and the new value is the old one plus the gain, unclamped. *)
Definition record_fine (rec : ImprovementRecord.t) : Prop :=
  ImprovementRecord.old_value rec < 70 /\
  (1 <= ImprovementRecord.improvement rec /\
   ImprovementRecord.improvement rec <= (144 # 10)) /\
  ImprovementRecord.new_value rec
  == ImprovementRecord.old_value rec + ImprovementRecord.improvement rec.

(** The number of records of [h] for metric [m]. *)
Definition records_of_metric (m : string) (h : list ImprovementRecord.t) : nat :=
  length (filter (fun rec => String.eqb (ImprovementRecord.metric rec) m) h).

(** A count as a rational. *)
Definition Qnat (n : nat) : Q := inject_Z (Z.of_nat n).

(** Metric [fst mb], of baseline [snd mb], has a score of at least the
    baseline plus the number of its records in [h], and fewer than
    [71 - baseline] records. *)
Definition improved_by_count (pm : Dict.t Q) (h : list ImprovementRecord.t)
  (mb : string * Q) : Prop :=
  exists v,
    Dict.get pm (fst mb) = Some v /\
    snd mb + Qnat (records_of_metric (fst mb) h) <= v /\
    Qnat (records_of_metric (fst mb) h) < 71 - snd mb.

(** ** The script that drives the engine

    Its last loop prints, for each metric of [report['overall_progress']],
    the improvement and its share of the baseline in percent,
    [(improvement / report['baseline_performance'][metric]) * 100].
    Printing and the file written afterwards are left out. *)

Inductive script_exn : Type :=
| ScriptKeyError (key : string)
| ZeroDivisionError.

(** [a / b] on floats. *)
Definition py_div (a b : Q) : script_exn + Q :=
  if Qeq_bool b 0 then inl ZeroDivisionError else inr (a / b).

(** The figures the loop prints: metric, improvement, percentage gain. *)
Fixpoint relative_gains_loop (baseline : Dict.t Q)
  (progress : list (string * Q)) : script_exn + list (string * Q * Q) :=
  match progress with
  | [] => inr []
  | (metric, improvement) :: rest =>
      match Dict.get baseline metric with
      | None => inl (ScriptKeyError metric)
      | Some b =>
          match py_div improvement b with
          | inl e => inl e
          | inr q =>
              let percentage_gain := q * 100 in
              match relative_gains_loop baseline rest with
              | inl e => inl e
              | inr l => inr ((metric, improvement, percentage_gain) :: l)
              end
          end
      end
  end.

Definition relative_gains (report : Report.t)
  : script_exn + list (string * Q * Q) :=
  relative_gains_loop (Report.baseline_performance report)
                      (Dict.items (Report.overall_progress report)).

(** * Properties *)

(** ** Comparisons *)

Lemma Qltb_true (a b : Q) : Qltb a b = true <-> a < b.
Proof.
  unfold Qltb. rewrite Qlt_alt. destruct (a ?= b); split; congruence.
Qed.

Lemma Qltb_false (a b : Q) : Qltb a b = false <-> b <= a.
Proof.
  unfold Qltb. rewrite Qle_alt, <- Qgt_alt, Qlt_alt.
  destruct (a ?= b); split; congruence.
Qed.

Lemma py_min_le_l (a b : Q) : py_min a b <= a.
Proof.
  unfold py_min. destruct (Qltb b a) eqn:E.
  - apply Qltb_true in E. lra.
  - lra.
Qed.

Lemma py_min_ge (a b c : Q) : c <= a -> c <= b -> c <= py_min a b.
Proof. unfold py_min. destruct (Qltb b a); auto. Qed.

Lemma py_min_unclamped (a b : Q) : b <= a -> py_min a b == b.
Proof.
  unfold py_min. destruct (Qltb b a) eqn:E; [lra|].
  apply Qltb_false in E. lra.
Qed.

Lemma py_min_clamped (a b : Q) : a <= b -> py_min a b = a.
Proof.
  unfold py_min. destruct (Qltb b a) eqn:E; [|reflexivity].
  apply Qltb_true in E. lra.
Qed.

(** ** Dicts *)

Module DictFacts.
Import Dict.

Section WithValues.
Context {V : Type}.
Implicit Types (d : Dict.t V) (k : string) (v : V).

Lemma get_set_eq d k v : get (set d k v) k = Some v.
Proof.
  induction d as [|[k' v'] d IH]; simpl.
  - now rewrite String.eqb_refl.
  - destruct (String.eqb k k') eqn:E; simpl; now rewrite E.
Qed.

Lemma get_set_neq d k k' v : k <> k' -> get (set d k v) k' = get d k'.
Proof.
  intros Hne. induction d as [|[k0 v0] d IH]; simpl.
  - destruct (String.eqb k' k) eqn:E; [|reflexivity].
    apply String.eqb_eq in E. congruence.
  - destruct (String.eqb k k0) eqn:E; simpl.
    + apply String.eqb_eq in E. subst k0.
      destruct (String.eqb k' k) eqn:E'; [|reflexivity].
      apply String.eqb_eq in E'. congruence.
    + now rewrite IH.
Qed.

Lemma keys_set_in d k v : In k (keys d) -> keys (set d k v) = keys d.
Proof.
  induction d as [|[k' v'] d IH]; simpl; [tauto|].
  intros [->|Hin].
  - now rewrite String.eqb_refl.
  - destruct (String.eqb k k'); simpl; [reflexivity|]. f_equal. auto.
Qed.

Lemma set_fresh d k v : ~ In k (keys d) -> set d k v = (d ++ [(k, v)])%list.
Proof.
  induction d as [|[k' v'] d IH]; simpl; [reflexivity|].
  intros Hnin. destruct (String.eqb k k') eqn:E.
  - apply String.eqb_eq in E. subst. tauto.
  - f_equal. apply IH. tauto.
Qed.

Lemma in_keys_set d k v k' : In k' (keys (set d k v)) <-> k' = k \/ In k' (keys d).
Proof.
  induction d as [|[k0 v0] d IH]; simpl.
  - intuition.
  - destruct (String.eqb k k0) eqn:E; simpl.
    + apply String.eqb_eq in E. subst. intuition.
    + rewrite IH. intuition.
Qed.

Lemma get_in d k v : get d k = Some v -> In (k, v) d.
Proof.
  induction d as [|[k' v'] d IH]; simpl; [discriminate|].
  destruct (String.eqb k k') eqn:E.
  - apply String.eqb_eq in E. intros [= ->]. subst. now left.
  - auto.
Qed.

Lemma get_in_keys d k v : get d k = Some v -> In k (keys d).
Proof. intros H. apply get_in in H. now apply (in_map fst) in H. Qed.

Lemma in_keys_get d k : In k (keys d) -> exists v, get d k = Some v.
Proof.
  induction d as [|[k' v'] d IH]; simpl; [tauto|].
  intros H. destruct (String.eqb k k') eqn:E; [eauto|].
  destruct H as [->|H]; [|auto]. now rewrite String.eqb_refl in E.
Qed.

Lemma get_none d k : ~ In k (keys d) -> get d k = None.
Proof.
  intros H. destruct (get d k) eqn:E; [|reflexivity].
  apply get_in_keys in E. contradiction.
Qed.

Lemma wf_in_get d k v : wf d -> In (k, v) d -> get d k = Some v.
Proof.
  unfold wf. induction d as [|[k' v'] d IH]; simpl; [tauto|].
  intros Hwf [[= -> ->]|Hin].
  - now rewrite String.eqb_refl.
  - inversion Hwf; subst. destruct (String.eqb k k') eqn:E; [|auto].
    apply String.eqb_eq in E. subst. apply (in_map fst) in Hin. contradiction.
Qed.

Lemma wf_set d k v : wf d -> wf (set d k v).
Proof.
  unfold wf. intros Hwf. destruct (in_dec string_dec k (keys d)) as [Hin|Hnin].
  - now rewrite keys_set_in.
  - rewrite set_fresh by assumption. unfold keys. rewrite map_app. simpl.
    apply NoDup_app; [assumption | repeat constructor; simpl; tauto |].
    simpl. intros x Hx [<-|[]]. contradiction.
Qed.

Lemma Forall_set (P : string * V -> Prop) d k v :
  Forall P d -> P (k, v) -> Forall P (set d k v).
Proof.
  intros Hd Hk. induction Hd as [|[k' v'] d Hx Hd IH]; simpl.
  - auto.
  - destruct (String.eqb k k') eqn:E.
    + apply String.eqb_eq in E. subst. auto.
    + auto.
Qed.

Lemma wf_app_fresh d k v : wf (d ++ [(k, v)])%list -> ~ In k (keys d).
Proof.
  unfold wf, keys. rewrite map_app. simpl. intros H Hin.
  apply NoDup_remove_2 in H. apply H. rewrite app_nil_r. assumption.
Qed.

Lemma wf_app_l d d' : wf (d ++ d')%list -> wf d.
Proof.
  unfold wf, keys. rewrite map_app. apply NoDup_app_remove_r.
Qed.

Lemma get_app d d' k :
  get (d ++ d')%list k
  = match get d k with Some v => Some v | None => get d' k end.
Proof.
  induction d as [|[k' v'] d IH]; simpl; [reflexivity|].
  destruct (String.eqb k k'); auto.
Qed.

Lemma wf_prefix d (x : string * V) d' : wf (d ++ x :: d')%list -> wf (d ++ [x])%list.
Proof.
  intros H. apply (wf_app_l _ d'). now rewrite <- app_assoc.
Qed.

Lemma wf_keys d (d' : Dict.t V) : keys d' = keys d -> wf d -> wf d'.
Proof. unfold wf. now intros ->. Qed.

End WithValues.
End DictFacts.

(** ** Lists *)

Lemma Forall2_in_l {A B : Type} (R : A -> B -> Prop) (l : list A) (l' : list B) (x : A) :
  Forall2 R l l' -> In x l -> exists y, In y l' /\ R x y.
Proof.
  induction 1 as [|a b l l' Hab _ IH]; simpl; [tauto|].
  intros [->|Hin]; [eauto|]. destruct (IH Hin) as (y & Hy & Hxy). eauto.
Qed.

Lemma Forall2_in_r {A B : Type} (R : A -> B -> Prop) (l : list A) (l' : list B) (y : B) :
  Forall2 R l l' -> In y l' -> exists x, In x l /\ R x y.
Proof.
  induction 1 as [|a b l l' Hab _ IH]; simpl; [tauto|].
  intros [->|Hin]; [eauto|]. destruct (IH Hin) as (x & Hx & Hxy). eauto.
Qed.

(** ** Loops *)

Lemma bind_ok {A B : Type} (m : M A) (f : A -> M B) (w w' : World) (a : A) :
  m w = Ok a w' -> bind m f w = f a w'.
Proof. unfold bind. now intros ->. Qed.

(** The loop rule: an invariant indexed by the items already visited. *)
Lemma for_fold_rule {A B : Type} (I : list A -> B -> World -> Prop)
  (l : list A) (body : B -> A -> M B) :
  (forall pre x post acc w,
      l = (pre ++ x :: post)%list -> I pre acc w ->
      exists acc' w', body acc x w = Ok acc' w' /\ I (pre ++ [x])%list acc' w') ->
  forall acc w, I [] acc w ->
  exists acc' w', for_fold l acc body w = Ok acc' w' /\ I l acc' w'.
Proof.
  intros Hstep.
  assert (G : forall rest pre acc w,
             l = (pre ++ rest)%list -> I pre acc w ->
             exists acc' w', for_fold rest acc body w = Ok acc' w' /\ I l acc' w').
  { induction rest as [|x rest IH]; intros pre acc w Hl Hpre; simpl.
    - rewrite app_nil_r in Hl. subst. unfold ret. eauto.
    - destruct (Hstep pre x rest acc w Hl Hpre) as (acc1 & w1 & Hb & H1).
      unfold bind. rewrite Hb. apply (IH (pre ++ [x])%list); [|assumption].
      rewrite <- app_assoc. exact Hl. }
  intros acc w H0. now apply (G l []).
Qed.

Section Keeps.
Variable R : World -> World -> Prop.
Hypothesis R_refl : forall w, R w w.
Hypothesis R_trans : forall w1 w2 w3, R w1 w2 -> R w2 w3 -> R w1 w3.

Lemma keeps_ret {A : Type} (a : A) : keeps R (ret a).
Proof. intros w. apply R_refl. Qed.

Lemma keeps_raise {A : Type} (e : exn) : keeps R (@raise A e).
Proof. intros w. apply R_refl. Qed.

Lemma keeps_bind {A B : Type} (m : M A) (f : A -> M B) :
  keeps R m -> (forall a, keeps R (f a)) -> keeps R (bind m f).
Proof.
  intros Hm Hf w. unfold bind. specialize (Hm w).
  destruct (m w) as [a w1|e w1]; simpl in *; [|assumption].
  eapply R_trans; [eassumption | apply Hf].
Qed.

Lemma keeps_for_fold {A B : Type} (l : list A) (body : B -> A -> M B) :
  (forall acc x, keeps R (body acc x)) ->
  forall acc, keeps R (for_fold l acc body).
Proof.
  intros Hbody. induction l as [|x l IH]; intros acc; simpl.
  - apply keeps_ret.
  - apply keeps_bind; auto.
Qed.

Lemma keeps_getitem {V : Type} (d : Dict.t V) (k : string) :
  keeps R (getitem d k).
Proof.
  unfold getitem. destruct (Dict.get d k); [apply keeps_ret | apply keeps_raise].
Qed.

Lemma keeps_get_self : keeps R get_self.
Proof. intros w. apply R_refl. Qed.

End Keeps.

(** ** What each method leaves alone *)

Lemma same_baseline_refl w : same_baseline w w.
Proof. reflexivity. Qed.

Lemma same_baseline_trans w1 w2 w3 :
  same_baseline w1 w2 -> same_baseline w2 w3 -> same_baseline w1 w3.
Proof. unfold same_baseline. congruence. Qed.

Lemma same_self_refl w : same_self w w.
Proof. reflexivity. Qed.

Lemma same_self_trans w1 w2 w3 :
  same_self w1 w2 -> same_self w2 w3 -> same_self w1 w3.
Proof. unfold same_self. congruence. Qed.

Lemma same_self_baseline w w' : same_self w w' -> same_baseline w w'.
Proof. unfold same_self, same_baseline. congruence. Qed.

Ltac kbind :=
  first [ apply (keeps_bind same_self same_self_trans)
        | apply (keeps_bind same_baseline same_baseline_trans) ].
Ltac kfor :=
  first [ apply (keeps_for_fold same_self same_self_refl same_self_trans)
        | apply (keeps_for_fold same_baseline same_baseline_refl
                   same_baseline_trans) ].
Ltac kleaf :=
  first [ apply (keeps_ret same_self same_self_refl)
        | apply (keeps_ret same_baseline same_baseline_refl)
        | apply (keeps_raise same_self same_self_refl)
        | apply (keeps_raise same_baseline same_baseline_refl)
        | apply (keeps_getitem same_self same_self_refl)
        | apply (keeps_getitem same_baseline same_baseline_refl)
        | apply (keeps_get_self same_self same_self_refl)
        | apply (keeps_get_self same_baseline same_baseline_refl) ].

Section Frames.
Variable rs : RandomSource.
Variable now_at : nat -> string.

Lemma random_same_self : keeps same_self (random rs).
Proof. intros w. reflexivity. Qed.

Lemma randbelow_same_self n : keeps same_self (randbelow rs n).
Proof. intros w. reflexivity. Qed.

Lemma uniform_same_self a b : keeps same_self (uniform rs a b).
Proof. intros w. reflexivity. Qed.

Lemma choice_same_self {A : Type} (seq : list A) : keeps same_self (choice rs seq).
Proof.
  intros w. unfold choice. destruct seq as [|x seq]; [reflexivity|].
  unfold bind, randbelow.
  destruct (nth_error _ _); reflexivity.
Qed.

Lemma now_same_self : keeps same_self (datetime_now_isoformat now_at).
Proof. intros w. reflexivity. Qed.

Lemma analyze_same_self : keeps same_self analyze_self_performance.
Proof.
  unfold analyze_self_performance.
  kbind; [kleaf|]. intros s. kfor. intros acc [m v]. kleaf.
Qed.

Lemma select_same_self metric :
  keeps same_self (_select_improvement_type rs metric).
Proof. apply choice_same_self. Qed.

Lemma code_same_self metric ty :
  keeps same_self (_generate_improvement_code metric ty).
Proof. intros w. reflexivity. Qed.

Lemma generate_same_self analysis :
  keeps same_self (generate_improvements rs analysis).
Proof.
  unfold generate_improvements. kfor. intros acc [m data].
  destruct (Qgtb _ _); [|kleaf].
  kbind; [apply select_same_self|]. intros ty.
  kbind; [apply code_same_self|]. intros c.
  kbind; [apply uniform_same_self|]. intros g.
  kbind; [apply uniform_same_self|]. intros r.
  kleaf.
Qed.

Lemma test_same_self improvements :
  keeps same_self (test_improvements rs improvements).
Proof.
  unfold test_improvements. kfor. intros acc [m imp].
  repeat (kbind;
          [first [apply uniform_same_self | apply random_same_self]|]; intros ?).
  kleaf.
Qed.

Lemma apply_same_baseline test_results :
  keeps same_baseline (apply_improvements now_at test_results).
Proof.
  unfold apply_improvements.
  kbind; [|intros; kleaf].
  kfor. intros acc [m r] w.
  destruct (TestResult.success r); [|reflexivity].
  unfold bind, get_self, getitem.
  destruct (Dict.get _ m); reflexivity.
Qed.

Lemma delta_from_same_self b d : keeps same_self (delta_from b d).
Proof.
  unfold delta_from. kfor. intros acc [m v].
  kbind; [kleaf|]. intros x. kleaf.
Qed.

Lemma keeps_same_self_baseline {A : Type} (m : M A) :
  keeps same_self m -> keeps same_baseline m.
Proof. intros H w. apply same_self_baseline, H. Qed.

Lemma evolve_same_baseline :
  keeps same_baseline (evolve_generation rs now_at).
Proof.
  unfold evolve_generation.
  kbind; [apply keeps_same_self_baseline, analyze_same_self|]. intros analysis.
  kbind; [apply keeps_same_self_baseline, generate_same_self|]. intros imps.
  kbind; [apply keeps_same_self_baseline, test_same_self|]. intros res.
  kbind; [apply apply_same_baseline|]. intros _ w.
  unfold bind at 1 2 3, get_self, put_self. simpl.
  match goal with
  | |- same_baseline _ (final (bind ?m _ ?w')) =>
      pose proof (delta_from_same_self (baseline_performance (self w'))
                    (performance_metrics (self w')) w') as H;
      unfold bind; simpl in H |- *;
      destruct (m w') as [x w2|e w2]; simpl in *;
      unfold same_self, same_baseline in *; rewrite H; reflexivity
  end.
Qed.

Lemma run_same_baseline num_cycles :
  keeps same_baseline (run_evolution_cycles rs now_at num_cycles).
Proof.
  induction num_cycles as [|n IH]; simpl; [kleaf|].
  kbind; [apply evolve_same_baseline|]. intros sm.
  kbind; [kleaf|]. intros s.
  kbind.
  { kfor. intros [] [m v]. kbind; [kleaf|]. intros b. kleaf. }
  intros _. kbind; [exact IH|]. intros rest. kleaf.
Qed.

Lemma report_same_self : keeps same_self get_evolution_report.
Proof.
  unfold get_evolution_report.
  kbind; [kleaf|]. intros s. kbind; [|intros; kleaf].
  kfor. intros acc m. kbind; [kleaf|]. intros c. kbind; [kleaf|]. intros b. kleaf.
Qed.

End Frames.

(** ** What each method computes *)

Lemma uniform_range (a b u : Q) :
  a <= b -> 0 <= u -> u < 1 -> a <= a + (b - a) * u /\ a + (b - a) * u <= b.
Proof. intros Hab H0 H1. split; nra. Qed.

Lemma analysed_priority (data : Analysis.t) :
  analysed data ->
  ((3 # 10) < Analysis.priority data <-> Analysis.current_score data < 70).
Proof.
  intros [_ Hp]. rewrite Hp.
  assert (E : (100 - Analysis.current_score data) / 100
              == (100 - Analysis.current_score data) * (1 # 100)) by reflexivity.
  rewrite E. split; intros; lra.
Qed.

Lemma test_outcomes_app rs p l m imp :
  test_outcomes rs p (l ++ [(m, imp)])
  = (test_outcomes rs p l
     ++ [(m, test_outcome rs (p + 6 * length l) imp)])%list.
Proof.
  revert p. induction l as [|[m' imp'] l IH]; intros p.
  - simpl. now rewrite Nat.add_0_r.
  - cbn [test_outcomes app]. rewrite IH.
    replace (p + 6 + 6 * length l)%nat
      with (p + 6 * length ((m', imp') :: l))%nat by (cbn [length]; lia).
    reflexivity.
Qed.

Lemma test_outcomes_nth rs p l i m imp :
  nth_error l i = Some (m, imp) ->
  nth_error (test_outcomes rs p l) i
  = Some (m, test_outcome rs (p + 6 * i) imp).
Proof.
  revert p i. induction l as [|[m' imp'] l IH]; intros p [|i];
    cbn [nth_error test_outcomes]; try discriminate.
  - intros [= -> ->]. now rewrite Nat.mul_0_r, Nat.add_0_r.
  - intros H. rewrite (IH _ _ H).
    replace (p + 6 + 6 * i)%nat with (p + 6 * S i)%nat by lia.
    reflexivity.
Qed.

Lemma test_outcome_eq rs p imp :
  test_outcome rs p imp
  = let scale := (5 # 10) + ((12 # 10) - (5 # 10)) * random_at rs p in
    let test_passed := Qltb (random_at rs (S p)) (8 # 10) in
    let stability_check :=
      Qgtb (random_at rs (S (S p))) (Improvement.risk_level imp) in
    TestResult.mk (test_passed && stability_check)
      (if test_passed then Improvement.expected_gain imp * scale else 0)
      stability_check
      (TestDetails.mk
         ((1 # 10) + (2 - (1 # 10)) * random_at rs (S (S (S p))))
         ((5 # 10) + ((15 # 10) - (5 # 10)) * random_at rs (S (S (S (S p)))))
         (0 + ((1 # 10) - 0) * random_at rs (S (S (S (S (S p))))))).
Proof.
  unfold test_outcome.
  replace (p + 1)%nat with (S p) by lia.
  replace (p + 2)%nat with (S (S p)) by lia.
  replace (p + 3)%nat with (S (S (S p))) by lia.
  replace (p + 4)%nat with (S (S (S (S p)))) by lia.
  replace (p + 5)%nat with (S (S (S (S (S p))))) by lia.
  reflexivity.
Qed.

Lemma test_outcome_gain rs p imp :
  candidate_in_range imp -> gain_in_range (test_outcome rs p imp).
Proof.
  intros [[Hlo Hhi] _]. unfold gain_in_range, test_outcome. simpl.
  destruct (random_range rs p) as [H0 H1].
  destruct (Qltb _ _); [|split; lra].
  set (g := Improvement.expected_gain imp) in *.
  destruct (uniform_range (5 # 10) (12 # 10) (random_at rs p)) as [Hs0 Hs1];
    try assumption; [lra|].
  set (s := (5 # 10) + ((12 # 10) - (5 # 10)) * random_at rs p) in *.
  assert (H2 : 0 <= (g - 2) * (s - (5 # 10)))
    by (apply Qmult_le_0_compat; lra).
  assert (H3 : 0 <= (12 - g) * s) by (apply Qmult_le_0_compat; lra).
  split; lra.
Qed.

Lemma successful_values (test_results : Dict.t TestResult.t) :
  length (filter TestResult.success (Dict.values test_results))
  = length (filter successful test_results).
Proof.
  induction test_results as [|[m r] l IH]; simpl; [reflexivity|].
  unfold successful at 1. simpl. destruct (TestResult.success r); simpl; lia.
Qed.

Lemma Inv_has_baselines s : Inv s -> has_baselines s.
Proof.
  intros [_ Hall] m Hm. unfold Dict.keys in Hm. apply in_map_iff in Hm.
  destruct Hm as ([m' v] & <- & Hin). rewrite Forall_forall in Hall.
  destruct (Hall _ Hin) as (_ & b & Hb & _).
  eapply DictFacts.get_in_keys; eassumption.
Qed.

Lemma Inv_init : Inv __init__.
Proof.
  split.
  - unfold Dict.wf. simpl.
    repeat (constructor; [simpl; intuition discriminate|]). constructor.
  - simpl. unfold initial_metrics, score_ok.
    repeat (constructor;
            [simpl; split; [split; discriminate|];
             eexists; split; [reflexivity | apply Qle_refl]|]).
    constructor.
Qed.

(** The effect of applying results with non-negative gains on one score. *)
Lemma applied_value_cases (test_results : Dict.t TestResult.t)
  (pm : Dict.t Q) (m : string) (v' : Q) :
  Forall (fun mr => gain_in_range (snd mr)) test_results ->
  applied_value test_results pm m = Some v' ->
  exists v, Dict.get pm m = Some v /\
            (v <= 100 -> v <= v' /\ v' <= 100).
Proof.
  intros Hgain. unfold applied_value.
  destruct (Dict.get test_results m) as [r|] eqn:Hr.
  - apply DictFacts.get_in in Hr. rewrite Forall_forall in Hgain.
    destruct (Hgain _ Hr) as [Hg _]. simpl in Hg.
    destruct (TestResult.success r).
    + destruct (Dict.get pm m) as [v|]; [|discriminate]. simpl.
      intros [= <-]. exists v. split; [reflexivity|]. intros Hv. split.
      * apply py_min_ge; lra.
      * apply py_min_le_l.
    + intros H. exists v'. split; [assumption|]. intros; split; lra.
  - intros H. exists v'. split; [assumption|]. intros; split; lra.
Qed.

Section Specs.
Variable rs : RandomSource.
Variable now_at : nat -> string.

Lemma analyze_spec (w : World) :
  exists analysis,
    analyze_self_performance w = Ok analysis w /\
    Dict.wf analysis /\
    Forall (fun md => In (fst md, Analysis.current_score (snd md))
                         (performance_metrics (self w)) /\
                      analysed (snd md)) analysis /\
    (forall m, In m (Dict.keys analysis) <->
               In m (Dict.keys (performance_metrics (self w)))) /\
    (Dict.wf (performance_metrics (self w)) ->
     analysis = map analysis_entry (performance_metrics (self w))).
Proof.
  unfold analyze_self_performance, bind, get_self.
  set (pm := performance_metrics (self w)).
  destruct (for_fold_rule
    (fun pre acc w' =>
       w' = w /\ Dict.wf acc /\
       Forall (fun md => In (fst md, Analysis.current_score (snd md)) pm /\
                         analysed (snd md)) acc /\
       (forall m, In m (Dict.keys acc) <-> In m (Dict.keys pre)) /\
       (Dict.wf pre -> acc = map analysis_entry pre))
    (Dict.items pm)
    (fun analysis '(metric, value) =>
       let improvement_potential := 100 - value in
       ret (Dict.set analysis metric
              (Analysis.mk value improvement_potential
                           (improvement_potential / 100)))))
    with (acc := @Dict.empty Analysis.t) (w := w)
    as (analysis & w' & Hrun & -> & Hwf & Hall & Hkeys & Hmap).
  - intros pre [m v] post acc w1 Hl (-> & Hwf & Hall & Hkeys & Hmap).
    eexists _, _. split; [reflexivity|]. repeat split.
    + now apply DictFacts.wf_set.
    + apply DictFacts.Forall_set; [assumption|]. simpl. repeat split.
      unfold Dict.items in Hl. rewrite Hl. apply in_elt.
    + rewrite DictFacts.in_keys_set, Hkeys. unfold Dict.keys.
      rewrite map_app, in_app_iff. simpl. intuition.
    + rewrite DictFacts.in_keys_set, Hkeys. unfold Dict.keys.
      rewrite map_app, in_app_iff. simpl. intuition.
    + intros Hwfp. rewrite DictFacts.set_fresh.
      * rewrite map_app, Hmap by (eapply DictFacts.wf_app_l; eassumption).
        reflexivity.
      * rewrite Hkeys. now apply DictFacts.wf_app_fresh in Hwfp.
  - repeat split; try constructor; simpl; tauto.
  - exists analysis. auto.
Qed.

(** Every list [_select_improvement_type] can choose from is non-empty. *)
Lemma improvement_types_nonempty (metric : string) :
  Dict.get_default improvement_types metric ["general_optimization"] <> [].
Proof.
  unfold Dict.get_default, improvement_types. simpl.
  repeat match goal with
         | |- context [String.eqb ?a ?b] => destruct (String.eqb a b)
         end; discriminate.
Qed.

Lemma choice_spec {A : Type} (seq : list A) (w : World) :
  seq <> [] ->
  exists x, In x seq /\
    choice rs seq w
    = Ok x (mkWorld (self w) (S (rng_calls w)) (clock_calls w)).
Proof.
  intros Hne. unfold choice. destruct seq as [|a seq]; [congruence|].
  unfold bind, randbelow.
  pose proof (randbelow_range rs (rng_calls w) (length (a :: seq))) as Hlt.
  destruct (nth_error (a :: seq) _) as [x|] eqn:E.
  - exists x. split; [eapply nth_error_In; eassumption | reflexivity].
  - apply nth_error_None in E. simpl in *. lia.
Qed.

Lemma select_spec (metric : string) (w : World) :
  exists ty,
    In ty (Dict.get_default improvement_types metric ["general_optimization"]) /\
    _select_improvement_type rs metric w
    = Ok ty (mkWorld (self w) (S (rng_calls w)) (clock_calls w)).
Proof. apply choice_spec, improvement_types_nonempty. Qed.

Lemma generate_spec (analysis : Dict.t Analysis.t) (w : World) :
  exists improvements w',
    generate_improvements rs analysis w = Ok improvements w' /\
    self w' = self w /\ clock_calls w' = clock_calls w /\
    Dict.wf improvements /\
    (forall m, In m (Dict.keys improvements) <->
               In m (Dict.keys (filter selected analysis))) /\
    Forall (fun mi => candidate_in_range (snd mi)) improvements /\
    (Dict.wf analysis ->
     Dict.keys improvements = Dict.keys (filter selected analysis) /\
     rng_calls w' = (rng_calls w + 3 * length improvements)%nat).
Proof.
  unfold generate_improvements.
  apply (for_fold_rule
    (fun pre acc w' =>
       self w' = self w /\ clock_calls w' = clock_calls w /\
       Dict.wf acc /\
       (forall m, In m (Dict.keys acc) <->
                  In m (Dict.keys (filter selected pre))) /\
       Forall (fun mi => candidate_in_range (snd mi)) acc /\
       (Dict.wf pre ->
        Dict.keys acc = Dict.keys (filter selected pre) /\
        rng_calls w' = (rng_calls w + 3 * length acc)%nat))).
  - intros pre [m data] post acc w1 Hl (Hself & Hclk & Hwf & Hkeys & Hall & Hpos).
    rewrite filter_app. cbn [filter].
    change (selected (m, data)) with (Qgtb (Analysis.priority data) (3 # 10)).
    destruct (Qgtb (Analysis.priority data) (3 # 10)) eqn:Hsel.
    + destruct (select_spec m w1) as (ty & _ & Hty).
      unfold bind. rewrite Hty. unfold _generate_improvement_code, bind, get_self.
      unfold uniform, bind, random, ret. simpl.
      eexists _, _. split; [reflexivity|]. simpl.
      split; [assumption|]. split; [assumption|].
      split; [now apply DictFacts.wf_set|].
      split; [|split].
      * intros m'. rewrite DictFacts.in_keys_set, Hkeys. unfold Dict.keys.
        rewrite map_app, in_app_iff. simpl. intuition.
      * apply DictFacts.Forall_set; [assumption|]. simpl.
        pose proof (random_range rs (S (rng_calls w1))) as [? ?].
        pose proof (random_range rs (S (S (rng_calls w1)))) as [? ?].
        split; apply uniform_range; lra.
      * intros Hwfp.
        destruct (Hpos (DictFacts.wf_app_l _ _ Hwfp)) as [Hk Hp].
        assert (Hfresh : ~ In m (Dict.keys acc)).
        { rewrite Hk. intros Hin. apply (DictFacts.wf_app_fresh _ _ _ Hwfp).
          unfold Dict.keys in *. apply in_map_iff in Hin.
          destruct Hin as (x & <- & Hx). apply filter_In in Hx.
          apply in_map. tauto. }
        rewrite DictFacts.set_fresh by assumption.
        unfold Dict.keys in *. rewrite !map_app, Hk, length_app. simpl.
        split; [reflexivity | lia].
    + unfold ret. eexists _, _. split; [reflexivity|].
      rewrite app_nil_r.
      do 3 (split; [assumption|]). split; [exact Hkeys|].
      split; [assumption|]. intros Hwfp. apply Hpos.
      eapply DictFacts.wf_app_l; eassumption.
  - repeat split; try constructor; simpl; try tauto; try lia.
Qed.

Lemma test_spec (improvements : Dict.t Improvement.t) (w : World) :
  exists test_results w',
    test_improvements rs improvements w = Ok test_results w' /\
    self w' = self w /\ clock_calls w' = clock_calls w /\
    Dict.wf test_results /\
    (forall m, In m (Dict.keys test_results) <->
               In m (Dict.keys improvements)) /\
    (Forall (fun mi => candidate_in_range (snd mi)) improvements ->
     Forall (fun mr => gain_in_range (snd mr)) test_results) /\
    (Dict.wf improvements ->
     test_results = test_outcomes rs (rng_calls w) improvements /\
     rng_calls w' = (rng_calls w + 6 * length improvements)%nat).
Proof.
  unfold test_improvements.
  apply (for_fold_rule
    (fun pre acc w' =>
       self w' = self w /\ clock_calls w' = clock_calls w /\
       Dict.wf acc /\
       (forall m, In m (Dict.keys acc) <-> In m (Dict.keys pre)) /\
       (Forall (fun mi => candidate_in_range (snd mi)) improvements ->
        Forall (fun mr => gain_in_range (snd mr)) acc) /\
       (Dict.wf pre ->
        acc = test_outcomes rs (rng_calls w) pre /\
        rng_calls w' = (rng_calls w + 6 * length pre)%nat))).
  - intros pre [m imp] post acc w1 Hl (Hself & Hclk & Hwf & Hkeys & Hall & Hpos).
    unfold uniform, bind, random, ret. cbn [self rng_calls clock_calls].
    eexists _, _. split; [reflexivity|]. cbn [self rng_calls clock_calls].
    do 2 (split; [assumption|]).
    split; [now apply DictFacts.wf_set|].
    split; [|split].
    + intros m'. rewrite DictFacts.in_keys_set, Hkeys. unfold Dict.keys.
      rewrite map_app, in_app_iff. simpl. intuition.
    + intros Hrange. apply DictFacts.Forall_set; [auto|].
      assert (Himp : candidate_in_range imp).
      { rewrite Forall_forall in Hrange.
        apply (Hrange (m, imp)). unfold Dict.items in Hl. rewrite Hl.
        apply in_elt. }
      apply (test_outcome_gain rs (rng_calls w1)) in Himp.
      rewrite test_outcome_eq in Himp. exact Himp.
    + intros Hwfp.
      destruct (Hpos (DictFacts.wf_app_l _ _ Hwfp)) as [Hacc Hp].
      rewrite DictFacts.set_fresh
        by (rewrite Hkeys; now apply DictFacts.wf_app_fresh in Hwfp).
      rewrite test_outcomes_app, length_app, <- Hp, <- Hacc.
      split; [|simpl; lia].
      rewrite test_outcome_eq. reflexivity.
  - repeat split; try constructor; simpl; try tauto; try lia.
Qed.

Lemma apply_loop_spec (test_results : Dict.t TestResult.t) (w : World) :
  Dict.wf test_results ->
  incl (Dict.keys test_results) (Dict.keys (performance_metrics (self w))) ->
  exists w' recs,
    apply_improvements now_at test_results w = Ok tt w' /\
    rng_calls w' = rng_calls w /\
    generation (self w') = generation (self w) /\
    baseline_performance (self w') = baseline_performance (self w) /\
    current_algorithms (self w') = current_algorithms (self w) /\
    clock_calls w' = (clock_calls w + length recs)%nat /\
    improvement_history (self w')
    = (improvement_history (self w) ++ recs)%list /\
    Forall2 (is_record_of (generation (self w)) (performance_metrics (self w)))
            (filter successful test_results) recs /\
    map ImprovementRecord.timestamp recs
    = map now_at (seq (clock_calls w) (length recs)) /\
    Dict.keys (performance_metrics (self w'))
    = Dict.keys (performance_metrics (self w)) /\
    (forall m, Dict.get (performance_metrics (self w')) m
               = applied_value test_results (performance_metrics (self w)) m).
Proof.
  intros Hwf Hincl. unfold apply_improvements.
  set (g := generation (self w)). set (pm := performance_metrics (self w)).
  destruct (for_fold_rule
    (fun pre (_ : nat) w' =>
       exists recs,
         rng_calls w' = rng_calls w /\
         generation (self w') = g /\
         baseline_performance (self w') = baseline_performance (self w) /\
         current_algorithms (self w') = current_algorithms (self w) /\
         clock_calls w' = (clock_calls w + length recs)%nat /\
         improvement_history (self w')
         = (improvement_history (self w) ++ recs)%list /\
         Forall2 (is_record_of g pm) (filter successful pre) recs /\
         map ImprovementRecord.timestamp recs
         = map now_at (seq (clock_calls w) (length recs)) /\
         Dict.keys (performance_metrics (self w')) = Dict.keys pm /\
         (forall m, Dict.get (performance_metrics (self w')) m
                    = applied_value pre pm m))
    (Dict.items test_results)
    (fun total_improvements '(metric, results) =>
       if TestResult.success results then
         s <- get_self ;;
         old_value <- getitem (performance_metrics s) metric ;;
         let improvement := TestResult.performance_gain results in
         let new_value := py_min 100 (old_value + improvement) in
         put_self (with_performance_metrics s
                     (Dict.set (performance_metrics s) metric new_value)) ;;;
         s <- get_self ;;
         now <- datetime_now_isoformat now_at ;;
         let improvement_record :=
           ImprovementRecord.mk (generation s) metric old_value new_value
                                improvement now in
         s <- get_self ;;
         put_self (with_improvement_history s
                     (improvement_history s ++ [improvement_record])) ;;;
         ret (S total_improvements)
       else ret total_improvements))
    with (acc := 0%nat) (w := w) as (total & w' & Hrun & recs & H).
  - intros pre [m r] post total w1 Hl
      (recs & Hrng & Hgen & Hbase & Halg & Hclk & Hhist & Hrecs & Hts & Hkeys & Hget).
    unfold Dict.items in Hl.
    assert (Hwfp : Dict.wf (pre ++ [(m, r)])%list)
      by (apply (DictFacts.wf_prefix _ _ post); now rewrite <- Hl).
    assert (Hfresh : Dict.get pre m = None)
      by (apply DictFacts.get_none; now apply DictFacts.wf_app_fresh in Hwfp).
    assert (Hstep : forall m', applied_value (pre ++ [(m, r)])%list pm m'
              = if String.eqb m' m
                then if TestResult.success r
                     then option_map
                            (fun old => py_min 100
                                          (old + TestResult.performance_gain r))
                            (Dict.get pm m)
                     else Dict.get pm m
                else applied_value pre pm m').
    { intros m'. unfold applied_value. rewrite DictFacts.get_app. simpl.
      destruct (String.eqb m' m) eqn:E.
      - apply String.eqb_eq in E. subst m'. now rewrite Hfresh.
      - now destruct (Dict.get pre m'). }
    rewrite filter_app. cbn [filter]. unfold successful at 2. cbn [snd].
    destruct (TestResult.success r) eqn:Hsucc.
    + assert (Hold : exists old, Dict.get pm m = Some old).
      { apply DictFacts.in_keys_get, Hincl. rewrite Hl. unfold Dict.keys.
        rewrite map_app. apply in_or_app. right. now left. }
      destruct Hold as [old Hold].
      assert (Hold1 : Dict.get (performance_metrics (self w1)) m = Some old).
      { rewrite Hget. unfold applied_value. now rewrite Hfresh. }
      unfold bind, get_self, getitem. rewrite Hold1.
      unfold ret, put_self, datetime_now_isoformat.
      cbn [self rng_calls clock_calls].
      eexists _, _. split; [reflexivity|].
      exists (recs ++ [ImprovementRecord.mk g m old
                         (py_min 100 (old + TestResult.performance_gain r))
                         (TestResult.performance_gain r)
                         (now_at (clock_calls w1))])%list.
      cbn [self rng_calls clock_calls with_improvement_history
           with_performance_metrics generation baseline_performance
           current_algorithms improvement_history performance_metrics].
      rewrite length_app. cbn [length].
      do 4 (split; [assumption|]).
      split; [lia|].
      split; [now rewrite Hhist, Hgen, <- app_assoc|].
      split; [|split; [|split]].
      * apply Forall2_app; [assumption|]. constructor; [|constructor].
        exists old. cbn [fst snd ImprovementRecord.timestamp]. auto.
      * rewrite map_app, Hts, Nat.add_1_r, seq_S, map_app. cbn [map].
        now rewrite Hclk.
      * rewrite DictFacts.keys_set_in; [assumption|].
        eapply DictFacts.get_in_keys; eassumption.
      * intros m'. rewrite Hstep. destruct (String.eqb m' m) eqn:E.
        -- apply String.eqb_eq in E. subst m'.
           now rewrite DictFacts.get_set_eq, Hold.
        -- rewrite DictFacts.get_set_neq; [apply Hget|].
           intros ->. now rewrite String.eqb_refl in E.
    + unfold ret. eexists _, _. split; [reflexivity|].
      exists recs. rewrite app_nil_r.
      do 9 (split; [assumption|]).
      intros m'. rewrite Hstep, Hget. destruct (String.eqb m' m) eqn:E; [|reflexivity].
      apply String.eqb_eq in E. subst m'. unfold applied_value. now rewrite Hfresh.
  - exists []. simpl. rewrite app_nil_r, Nat.add_0_r.
    repeat split; try reflexivity; constructor.
  - exists w', recs. rewrite (bind_ok _ _ _ _ _ Hrun).
    split; [reflexivity|]. exact H.
Qed.

Lemma delta_from_spec (baseline d : Dict.t Q) (w : World) :
  incl (Dict.keys d) (Dict.keys baseline) ->
  exists total,
    delta_from baseline d w = Ok total w /\
    Forall (fun md => exists v b,
                In (fst md, v) d /\ Dict.get baseline (fst md) = Some b /\
                snd md = v - b) total /\
    (forall m, In m (Dict.keys total) <-> In m (Dict.keys d)).
Proof.
  intros Hincl. unfold delta_from.
  destruct (for_fold_rule
    (fun pre acc w' =>
       w' = w /\
       Forall (fun md => exists v b,
                   In (fst md, v) d /\ Dict.get baseline (fst md) = Some b /\
                   snd md = v - b) acc /\
       (forall m, In m (Dict.keys acc) <-> In m (Dict.keys pre)))
    (Dict.items d)
    (fun acc '(metric, current) =>
       b <- getitem baseline metric ;;
       ret (Dict.set acc metric (current - b))))
    with (acc := @Dict.empty Q) (w := w) as (total & w' & Hrun & -> & H).
  - intros pre [m v] post acc w1 Hl (-> & Hall & Hkeys).
    unfold Dict.items in Hl.
    assert (Hin : In (m, v) d) by (rewrite Hl; apply in_elt).
    destruct (DictFacts.in_keys_get baseline m) as [b Hb].
    { apply Hincl. now apply (in_map fst) in Hin. }
    unfold bind, getitem. rewrite Hb. unfold ret.
    eexists _, _. split; [reflexivity|]. split; [reflexivity|]. split.
    + apply DictFacts.Forall_set; [assumption|]. exists v, b. auto.
    + intros m'. rewrite DictFacts.in_keys_set, Hkeys. unfold Dict.keys.
      rewrite map_app, in_app_iff. simpl. intuition.
  - repeat split; try constructor; simpl; tauto.
  - exists total. auto.
Qed.

(** One cycle, step by step. *)
Lemma evolve_steps (w : World) :
  has_baselines (self w) ->
  exists analysis improvements w1 test_results w2 w3 total,
    analyze_self_performance w = Ok analysis w /\
    generate_improvements rs analysis w = Ok improvements w1 /\
    test_improvements rs improvements w1 = Ok test_results w2 /\
    apply_improvements now_at test_results w2 = Ok tt w3 /\
    delta_from (baseline_performance (self w3)) (performance_metrics (self w3))
               (next_generation w3) = Ok total (next_generation w3) /\
    evolve_generation rs now_at w
    = Ok (Summary.mk (generation (self w3) + 1 - 1) analysis
            (length improvements)
            (length (filter TestResult.success (Dict.values test_results)))
            (performance_metrics (self w3)) total)
         (next_generation w3) /\
    self w2 = self w /\
    Dict.wf test_results /\
    incl (Dict.keys test_results) (Dict.keys (performance_metrics (self w))).
Proof.
  intros Hbase.
  destruct (analyze_spec w) as (analysis & Han & Hwfa & Hent & Hka & _).
  destruct (generate_spec analysis w)
    as (imps & w1 & Hgen & Hs1 & Hc1 & Hwfi & Hki & _ & _).
  destruct (test_spec imps w1)
    as (res & w2 & Htest & Hs2 & Hc2 & Hwfr & Hkr & _ & _).
  assert (Hincl : incl (Dict.keys res) (Dict.keys (performance_metrics (self w)))).
  { intros m Hm. apply Hka. apply Hkr, Hki in Hm. unfold Dict.keys in *.
    apply in_map_iff in Hm. destruct Hm as (x & <- & Hx).
    apply filter_In in Hx. apply in_map. tauto. }
  destruct (apply_loop_spec res w2) as (w3 & recs & Happ & Hr3 & Hg3 & Hb3 & _ & _ & _ & _ & _ & Hk3 & _).
  { assumption. }
  { now rewrite Hs2, Hs1. }
  destruct (delta_from_spec (baseline_performance (self w3))
              (performance_metrics (self w3)) (next_generation w3))
    as (total & Hdelta & _).
  { rewrite Hk3, Hb3, Hs2, Hs1. exact Hbase. }
  exists analysis, imps, w1, res, w2, w3, total.
  do 5 (split; [assumption|]).
  split; [|split; [congruence | split; assumption]].
  unfold evolve_generation.
  rewrite (bind_ok _ _ _ _ _ Han), (bind_ok _ _ _ _ _ Hgen),
    (bind_ok _ _ _ _ _ Htest), (bind_ok _ _ _ _ _ Happ).
  unfold bind at 1 2 3, get_self, put_self.
  fold (next_generation w3).
  rewrite (bind_ok _ _ _ _ _ Hdelta). reflexivity.
Qed.

(** Everything one cycle does to [self]. *)
Lemma evolve_facts (w : World) (sm : Summary.t) (w' : World) :
  has_baselines (self w) ->
  evolve_generation rs now_at w = Ok sm w' ->
  exists test_results recs,
    Dict.wf test_results /\
    Forall (fun mr => gain_in_range (snd mr)) test_results /\
    generation (self w') = (generation (self w) + 1)%Z /\
    Summary.generation sm = generation (self w) /\
    baseline_performance (self w') = baseline_performance (self w) /\
    improvement_history (self w')
    = (improvement_history (self w) ++ recs)%list /\
    Forall2 (is_record_of (generation (self w)) (performance_metrics (self w)))
            (filter successful test_results) recs /\
    Summary.improvements_successful sm = length recs /\
    Dict.keys (performance_metrics (self w'))
    = Dict.keys (performance_metrics (self w)) /\
    (forall m, Dict.get (performance_metrics (self w')) m
               = applied_value test_results (performance_metrics (self w)) m) /\
    Summary.performance_metrics sm = performance_metrics (self w') /\
    Forall (fun md => exists v b,
                In (fst md, v) (performance_metrics (self w')) /\
                Dict.get (baseline_performance (self w')) (fst md) = Some b /\
                snd md = v - b)
           (Summary.total_improvement_from_baseline sm).
Proof.
  intros Hbase Hev.
  destruct (evolve_steps w Hbase)
    as (analysis & imps & w1 & res & w2 & w3 & total
        & Han & Hgen & Htest & Happ & Hdelta & Hev' & Hs2 & Hwfr & Hincl).
  rewrite Hev' in Hev. injection Hev as <- <-.
  destruct (generate_spec analysis w)
    as (imps' & w1' & Hgen' & _ & _ & _ & _ & Hrange & _).
  rewrite Hgen in Hgen'. injection Hgen' as <- <-.
  destruct (test_spec imps w1)
    as (res' & w2' & Htest' & _ & _ & _ & _ & Hgain & _).
  rewrite Htest in Htest'. injection Htest' as <- <-.
  destruct (apply_loop_spec res w2 Hwfr)
    as (w3' & recs & Happ' & _ & Hg3 & Hb3 & _ & _ & Hhist & Hrecs & _ & Hk3 & Hget).
  { now rewrite Hs2. }
  rewrite Happ in Happ'. injection Happ' as <-.
  destruct (delta_from_spec (baseline_performance (self w3))
              (performance_metrics (self w3)) (next_generation w3))
    as (total' & Hdelta' & Htotal & _).
  { rewrite Hk3, Hb3, Hs2. exact Hbase. }
  rewrite Hdelta in Hdelta'. injection Hdelta' as <-.
  rewrite Hs2 in *.
  exists res, recs. cbn.
  split; [assumption|]. split; [auto|].
  split; [now rewrite Hg3|]. split; [rewrite Hg3; lia|].
  do 3 (split; [assumption|]).
  split; [rewrite successful_values; eapply Forall2_length; eassumption|].
  do 2 (split; [assumption|]). split; [reflexivity|]. exact Htotal.
Qed.

(** One cycle from a state that satisfies the invariant returns, keeps the
    invariant and lowers no score. *)
Lemma evolve_inv (w : World) :
  Inv (self w) ->
  exists sm w',
    evolve_generation rs now_at w = Ok sm w' /\
    Inv (self w') /\
    scores_le (performance_metrics (self w)) (performance_metrics (self w')).
Proof.
  intros HI. pose proof (Inv_has_baselines _ HI) as Hbase.
  destruct (evolve_steps w Hbase)
    as (analysis & imps & w1 & res & w2 & w3 & total & _ & _ & _ & _ & _ & Hev & _).
  eexists _, _. split; [exact Hev|].
  destruct (evolve_facts _ _ _ Hbase Hev)
    as (res' & recs & Hwfr & Hgain & _ & _ & Hb & _ & _ & _ & Hk & Hget & _).
  destruct HI as [Hwf Hall]. rewrite Forall_forall in Hall.
  split; [split|].
  - eapply DictFacts.wf_keys; eassumption.
  - apply Forall_forall. intros [m v'] Hin.
    assert (Hwf' : Dict.wf (performance_metrics (self (next_generation w3))))
      by (eapply DictFacts.wf_keys; eassumption).
    apply (DictFacts.wf_in_get _ _ _ Hwf') in Hin. rewrite Hget in Hin.
    destruct (applied_value_cases _ _ _ _ Hgain Hin) as (v & Hv & Hle).
    apply DictFacts.get_in in Hv.
    destruct (Hall _ Hv) as ([H0 H100] & b & Hbm & Hbv). simpl in *.
    destruct (Hle H100) as [Hvv' Hv'].
    unfold score_ok. cbn [fst snd].
    split; [split; lra|]. exists b. rewrite Hb. split; [assumption | lra].
  - intros m v Hv.
    destruct (DictFacts.in_keys_get (performance_metrics (self (next_generation w3))) m)
      as [v' Hv'].
    { rewrite Hk. eapply DictFacts.get_in_keys; eassumption. }
    exists v'. split; [assumption|]. rewrite Hget in Hv'.
    destruct (applied_value_cases _ _ _ _ Hgain Hv') as (v0 & Hv0 & Hle).
    rewrite Hv in Hv0. injection Hv0 as <-.
    apply DictFacts.get_in in Hv. destruct (Hall _ Hv) as ([_ H100] & _).
    now apply Hle.
Qed.

(** The lookups made while a summary is printed. *)
Lemma print_loop_spec (baseline d : Dict.t Q) (w : World) :
  incl (Dict.keys d) (Dict.keys baseline) ->
  for_fold (Dict.items d) tt
    (fun _ '(metric, value) =>
       baseline <- getitem baseline metric ;; ret tt) w
  = Ok tt w.
Proof.
  unfold Dict.items. induction d as [|[m v] d IH]; intros Hincl; simpl.
  - reflexivity.
  - destruct (DictFacts.in_keys_get baseline m) as [b Hb].
    { apply Hincl. now left. }
    unfold bind at 1 2, getitem. rewrite Hb. unfold ret at 1 2.
    apply IH. intros k Hk. apply Hincl. now right.
Qed.

Lemma run_cycles (num_cycles : nat) (w : World) :
  Inv (self w) ->
  exists sums w',
    run_evolution_cycles rs now_at num_cycles w = Ok sums w' /\
    cycles rs now_at w sums w' /\ length sums = num_cycles /\ Inv (self w').
Proof.
  revert w. induction num_cycles as [|n IH]; intros w HI.
  - exists [], w. split; [reflexivity|]. split; [constructor|].
    split; [reflexivity | assumption].
  - destruct (evolve_inv w HI) as (sm & w1 & Hev & HI1 & _).
    destruct (IH w1 HI1) as (sums & w' & Hrun & Hcyc & Hlen & HI').
    exists (sm :: sums), w'. split; [|split; [|split]].
    + cbn [run_evolution_cycles]. rewrite (bind_ok _ _ _ _ _ Hev).
      unfold bind at 1, get_self.
      rewrite (bind_ok _ _ w1 w1 tt).
      * now rewrite (bind_ok _ _ _ _ _ Hrun).
      * apply print_loop_spec.
        destruct (evolve_facts _ _ _ (Inv_has_baselines _ HI) Hev)
          as (_ & _ & _ & _ & _ & _ & _ & _ & _ & _ & _ & _ & Hsnap & _).
        rewrite Hsnap. now apply Inv_has_baselines.
    + econstructor; eassumption.
    + simpl. now rewrite Hlen.
    + assumption.
Qed.

Lemma report_spec (w : World) :
  has_baselines (self w) ->
  exists progress,
    get_evolution_report w
    = Ok (Report.mk (generation (self w)) (baseline_performance (self w))
            (performance_metrics (self w))
            (length (improvement_history (self w)))
            (improvement_history (self w)) progress) w /\
    Forall (fun md => exists c b,
                In (fst md, c) (performance_metrics (self w)) /\
                Dict.get (baseline_performance (self w)) (fst md) = Some b /\
                snd md = c - b) progress /\
    (forall m, In m (Dict.keys progress) <->
               In m (Dict.keys (performance_metrics (self w)))).
Proof.
  intros Hbase. unfold get_evolution_report.
  set (pm := performance_metrics (self w)).
  set (base := baseline_performance (self w)).
  destruct (for_fold_rule
    (fun pre acc w' =>
       w' = w /\
       Forall (fun md => exists c b,
                   In (fst md, c) pm /\ Dict.get base (fst md) = Some b /\
                   snd md = c - b) acc /\
       (forall m, In m (Dict.keys acc) <-> In m pre))
    (Dict.keys pm)
    (fun acc metric =>
       c <- getitem pm metric ;;
       b <- getitem base metric ;;
       ret (Dict.set acc metric (c - b))))
    with (acc := @Dict.empty Q) (w := w) as (progress & w' & Hrun & -> & H).
  - intros pre m post acc w1 Hl (-> & Hall & Hkeys).
    assert (Hin : In m (Dict.keys pm)) by (rewrite Hl; apply in_elt).
    destruct (DictFacts.in_keys_get pm m Hin) as [c Hc].
    destruct (DictFacts.in_keys_get base m (Hbase m Hin)) as [b Hb].
    unfold bind, getitem. rewrite Hc, Hb. unfold ret.
    eexists _, _. split; [reflexivity|]. split; [reflexivity|]. split.
    + apply DictFacts.Forall_set; [assumption|]. exists c, b.
      split; [now apply DictFacts.get_in | auto].
    + intros m'. rewrite DictFacts.in_keys_set, Hkeys, in_app_iff.
      simpl. intuition.
  - repeat split; try constructor; simpl; tauto.
  - exists progress. split; [|exact H].
    unfold bind at 1, get_self. fold pm base.
    now rewrite (bind_ok _ _ _ _ _ Hrun).
Qed.

Lemma Inv_in_range s : Inv s -> scores_in_range (performance_metrics s).
Proof.
  intros [_ Hall]. unfold scores_in_range.
  eapply Forall_impl; [|exact Hall]. intros mv [H _]. exact H.
Qed.

(** What a run of cycles leaves in [self]. *)
Lemma cycles_facts (w : World) (sums : list Summary.t) (w' : World) :
  cycles rs now_at w sums w' ->
  Inv (self w) ->
  Inv (self w') /\
  generation (self w') = (generation (self w) + Z.of_nat (length sums))%Z /\
  Forall (fun sm => scores_in_range (Summary.performance_metrics sm)) sums /\
  scores_le (performance_metrics (self w)) (performance_metrics (self w')) /\
  exists recs,
    improvement_history (self w')
    = (improvement_history (self w) ++ recs)%list /\
    length recs = list_sum (map Summary.improvements_successful sums) /\
    Forall record_ok recs.
Proof.
  induction 1 as [w|w sm w1 sums w' HI Hev Hcyc IH]; intros HI0.
  - split; [assumption|]. split; [cbn [length Z.of_nat]; lia|].
    split; [constructor|].
    split; [intros m v Hv; exists v; split; [assumption | lra]|].
    exists []. rewrite app_nil_r. repeat split. constructor.
  - destruct (evolve_inv w HI) as (sm' & w1' & Hev' & HI1 & Hle).
    rewrite Hev in Hev'. injection Hev' as <- <-.
    destruct (IH HI1) as (HI' & Hgen & Hsnaps & Hle' & recs' & Hhist' & Hlen' & Hok').
    destruct (evolve_facts w sm w1 (Inv_has_baselines _ HI) Hev)
      as (res & recs & _ & Hgain & Hg1 & _ & _ & Hhist & Hrecs & Hsucc & _ & _ & Hsnap & _).
    split; [assumption|]. split; [rewrite Hgen, Hg1; cbn [length]; lia|].
    split; [constructor; [rewrite Hsnap; now apply Inv_in_range | assumption]|].
    split.
    { intros m v Hv. destruct (Hle m v Hv) as (v1 & Hv1 & H1).
      destruct (Hle' m v1 Hv1) as (v2 & Hv2 & H2). exists v2.
      split; [assumption | lra]. }
    exists (recs ++ recs')%list. split; [|split].
    + now rewrite Hhist', Hhist, app_assoc.
    + cbn [map]. cbn [list_sum fold_right]. rewrite length_app.
      unfold list_sum in Hlen'. lia.
    + apply Forall_app. split; [|assumption].
      apply Forall_forall. intros rec Hin.
      destruct (Forall2_in_r _ _ _ _ Hrecs Hin) as ([m r] & Hmr & old & _ & ->).
      apply filter_In in Hmr. destruct Hmr as [Hmr _].
      rewrite Forall_forall in Hgain. destruct (Hgain _ Hmr) as [Hg _].
      split; [reflexivity | exact Hg].
Qed.

End Specs.

(** ** The loop of [apply_improvements], one result at a time *)

Lemma for_fold_app {A B : Type} (l1 l2 : list A) (body : B -> A -> M B)
  (acc : B) (w : World) :
  for_fold (l1 ++ l2) acc body w
  = bind (for_fold l1 acc body) (fun acc' => for_fold l2 acc' body) w.
Proof.
  revert acc w. induction l1 as [|x l1 IH]; intros acc w.
  - reflexivity.
  - cbn [app for_fold]. unfold bind at 1 2 3.
    destruct (body acc x w) as [acc1 w1|e w1]; [|reflexivity].
    rewrite IH. reflexivity.
Qed.

(** The count kept by the loop does not decide what it does. *)
Lemma for_fold_forget {A B : Type} (l : list A) (body : B -> A -> M B)
  (acc1 acc2 : B) (w : World) :
  (forall a1 a2 x w0,
      match body a1 x w0, body a2 x w0 with
      | Ok _ w1, Ok _ w2 => w1 = w2
      | Raise e1 w1, Raise e2 w2 => e1 = e2 /\ w1 = w2
      | _, _ => False
      end) ->
  (for_fold l acc1 body ;;; ret tt) w = (for_fold l acc2 body ;;; ret tt) w.
Proof.
  intros Hbody. revert acc1 acc2 w.
  induction l as [|x l IH]; intros acc1 acc2 w.
  - reflexivity.
  - cbn [for_fold]. pose proof (Hbody acc1 acc2 x w) as Hx.
    unfold bind in IH |- *.
    destruct (body acc1 x w) as [a1 w1|e1 w1],
             (body acc2 x w) as [a2 w2|e2 w2]; try contradiction.
    + subst w2. apply IH.
    + destruct Hx as [-> ->]. reflexivity.
Qed.

Lemma apply_nil (now_at : nat -> string) (w : World) :
  apply_improvements now_at [] w = Ok tt w.
Proof. reflexivity. Qed.

Lemma apply_cons (now_at : nat -> string) (m : string) (r : TestResult.t)
  (rest : Dict.t TestResult.t) (w : World) :
  apply_improvements now_at ((m, r) :: rest) w
  = if TestResult.success r
    then match Dict.get (performance_metrics (self w)) m with
         | Some old =>
             apply_improvements now_at rest (applied_once now_at m r old w)
         | None => Raise (KeyError m) w
         end
    else apply_improvements now_at rest w.
Proof.
  unfold apply_improvements, Dict.items.
  match goal with
  | |- bind (for_fold _ _ ?body) _ _ = _ =>
      remember body as loop_body eqn:Hloop
  end.
  assert (Hforget : forall a1 a2 w0,
             (for_fold rest a1 loop_body ;;; ret tt) w0
             = (for_fold rest a2 loop_body ;;; ret tt) w0).
  { intros a1 a2 w0. apply for_fold_forget. intros b1 b2 [m' r'] w1.
    subst loop_body. cbn beta iota.
    destruct (TestResult.success r'); [|reflexivity].
    unfold bind, get_self, getitem.
    destruct (Dict.get (performance_metrics (self w1)) m'); cbn; auto. }
  assert (Hhead : loop_body 0%nat (m, r) w
                  = if TestResult.success r
                    then match Dict.get (performance_metrics (self w)) m with
                         | Some old => Ok 1%nat (applied_once now_at m r old w)
                         | None => Raise (KeyError m) w
                         end
                    else Ok 0%nat w).
  { subst loop_body. cbn beta iota.
    destruct (TestResult.success r); [|reflexivity].
    unfold bind, get_self, getitem.
    destruct (Dict.get (performance_metrics (self w)) m); reflexivity. }
  cbn [for_fold]. unfold bind at 1 2. rewrite Hhead.
  destruct (TestResult.success r).
  - destruct (Dict.get (performance_metrics (self w)) m) as [old|];
      [|reflexivity].
    exact (Hforget 1%nat 0%nat _).
  - exact (Hforget 0%nat 0%nat _).
Qed.

Lemma applied_once_keys (now_at : nat -> string) (m : string)
  (r : TestResult.t) (old : Q) (w : World) :
  Dict.get (performance_metrics (self w)) m = Some old ->
  Dict.keys (performance_metrics (self (applied_once now_at m r old w)))
  = Dict.keys (performance_metrics (self w)).
Proof.
  intros Hold. cbn. apply DictFacts.keys_set_in.
  eapply DictFacts.get_in_keys; eassumption.
Qed.

(** What [apply_improvements] does when every successful result names a
    metric: it returns, and the records it writes are those of the
    successful results, chained from the metrics it found to the metrics it
    leaves. *)
Lemma apply_records (now_at : nat -> string)
  (test_results : Dict.t TestResult.t) (w : World) :
  Forall (fun mr => successful mr = true ->
                    In (fst mr) (Dict.keys (performance_metrics (self w))))
         test_results ->
  exists w' recs,
    apply_improvements now_at test_results w = Ok tt w' /\
    improvement_history (self w')
    = (improvement_history (self w) ++ recs)%list /\
    records_applied (generation (self w)) (performance_metrics (self w))
                    test_results recs (performance_metrics (self w')) /\
    Dict.keys (performance_metrics (self w'))
    = Dict.keys (performance_metrics (self w)) /\
    generation (self w') = generation (self w) /\
    baseline_performance (self w') = baseline_performance (self w) /\
    rng_calls w' = rng_calls w /\
    clock_calls w' = (clock_calls w + length recs)%nat.
Proof.
  revert w. induction test_results as [|[m r] rest IH]; intros w Hall.
  - exists w, []. rewrite apply_nil, app_nil_r. unfold records_applied.
    cbn. repeat split; try constructor. lia.
  - rewrite apply_cons. inversion Hall as [|x l Hx Hrest]; subst.
    unfold successful in Hx. cbn [fst snd] in Hx.
    unfold records_applied. cbn [filter]. unfold successful at 1. cbn [snd].
    destruct (TestResult.success r).
    + destruct (DictFacts.in_keys_get _ m (Hx eq_refl)) as [old Hold].
      rewrite Hold.
      destruct (IH (applied_once now_at m r old w))
        as (w' & recs & Happ & Hhist & (Hrecs & Hch & Hrep) & Hk & Hg & Hb
            & Hr & Hc).
      { rewrite applied_once_keys by assumption. exact Hrest. }
      cbn [applied_once self improvement_history performance_metrics
           with_improvement_history with_performance_metrics generation
           baseline_performance rng_calls clock_calls]
        in Hhist, Hrecs, Hch, Hrep, Hg, Hb, Hr, Hc.
      eexists w', (_ :: recs). split; [exact Happ|].
      split; [rewrite Hhist, <- app_assoc; reflexivity|].
      split; [split; [|split]|].
      * constructor; [|exact Hrecs]. cbn. repeat split.
      * cbn [chained ImprovementRecord.metric ImprovementRecord.old_value
             ImprovementRecord.new_value]. split; assumption.
      * exact Hrep.
      * split; [now rewrite Hk, applied_once_keys|].
        split; [assumption|]. split; [assumption|]. split; [assumption|].
        rewrite Hc. cbn [length]. lia.
    + apply IH. exact Hrest.
Qed.

(** The clamp: whatever the gains, no score written by
    [apply_improvements] exceeds 100. *)
Lemma apply_upper_bound (now_at : nat -> string)
  (test_results : Dict.t TestResult.t) (w w' : World) :
  apply_improvements now_at test_results w = Ok tt w' ->
  Forall (fun mv => snd mv <= 100) (performance_metrics (self w)) ->
  Forall (fun mv => snd mv <= 100) (performance_metrics (self w')).
Proof.
  revert w. induction test_results as [|[m r] rest IH]; intros w Happ Hle.
  - rewrite apply_nil in Happ. now injection Happ as <-.
  - rewrite apply_cons in Happ. destruct (TestResult.success r).
    + destruct (Dict.get (performance_metrics (self w)) m) as [old|];
        [|discriminate].
      apply (IH _ Happ). cbn.
      apply DictFacts.Forall_set; [assumption|]. cbn [snd].
      apply py_min_le_l.
    + now apply (IH _ Happ).
Qed.

Lemma apply_lower_bound (now_at : nat -> string)
  (test_results : Dict.t TestResult.t) (w w' : World) :
  apply_improvements now_at test_results w = Ok tt w' ->
  Forall (fun mr => successful mr = true ->
                    0 <= TestResult.performance_gain (snd mr)) test_results ->
  Forall (fun mv => 0 <= snd mv) (performance_metrics (self w)) ->
  Forall (fun mv => 0 <= snd mv) (performance_metrics (self w')).
Proof.
  revert w. induction test_results as [|[m r] rest IH]; intros w Happ Hgain Hle.
  - rewrite apply_nil in Happ. now injection Happ as <-.
  - rewrite apply_cons in Happ. inversion Hgain as [|x l Hx Hrest]; subst.
    unfold successful in Hx. cbn [snd] in Hx.
    destruct (TestResult.success r).
    + destruct (Dict.get (performance_metrics (self w)) m) as [old|] eqn:Hold;
        [|discriminate].
      apply (IH _ Happ Hrest). cbn.
      apply DictFacts.Forall_set; [assumption|]. cbn [snd].
      apply DictFacts.get_in in Hold. rewrite Forall_forall in Hle.
      specialize (Hle _ Hold). cbn [snd] in Hle. specialize (Hx eq_refl).
      apply py_min_ge; lra.
    + now apply (IH _ Happ Hrest).
Qed.

(** * The claims *)

(** ** C9 *)

(** C9: for every metric name, [_select_improvement_type] returns: a type
    of the metric's catalog entry when it has one, and otherwise the one
    type of the generic fallback list; [_generate_improvement_code] returns
    the template of the improvement type when it has one, and otherwise the
    generic string. *)
Theorem select_improvement_type_never_fails
  (rs : RandomSource) (metric improvement_type : string) (w : World) :
  (exists ty,
      _select_improvement_type rs metric w
      = Ok ty (mkWorld (self w) (S (rng_calls w)) (clock_calls w)) /\
      ((exists catalog, Dict.get improvement_types metric = Some catalog /\
                        In ty catalog) \/
       (Dict.get improvement_types metric = None /\
        ty = "general_optimization"))) /\
  (exists code,
      _generate_improvement_code metric improvement_type w = Ok code w /\
      ((In improvement_type ["optimization"; "deeper_analysis"; "meta_learning"]
        /\ Dict.get (code_templates (self w) metric improvement_type)
                    improvement_type = Some code) \/
       (~ In improvement_type ["optimization"; "deeper_analysis"; "meta_learning"]
        /\ code = ("# Improved " ++ metric ++ " algorithm v"
                   ++ str_of_int (generation (self w) + 1))%string))).
Proof.
  split.
  - destruct (select_spec rs metric w) as (ty & Hin & Hsel).
    exists ty. split; [exact Hsel|].
    unfold Dict.get_default in Hin.
    destruct (Dict.get improvement_types metric) as [catalog|].
    + left. exists catalog. auto.
    + right. split; [reflexivity|]. destruct Hin as [<-|[]]. reflexivity.
  - unfold _generate_improvement_code, bind, get_self, ret.
    eexists. split; [reflexivity|].
    unfold Dict.get_default, code_templates. cbn [Dict.get].
    destruct (String.eqb improvement_type "optimization") eqn:E1;
      [left; apply String.eqb_eq in E1; subst; split; [simpl; tauto | reflexivity]|].
    destruct (String.eqb improvement_type "deeper_analysis") eqn:E2;
      [left; apply String.eqb_eq in E2; subst; split; [simpl; tauto | reflexivity]|].
    destruct (String.eqb improvement_type "meta_learning") eqn:E3;
      [left; apply String.eqb_eq in E3; subst; split; [simpl; tauto | reflexivity]|].
    right. split; [|reflexivity].
    apply String.eqb_neq in E1, E2, E3. simpl. intuition congruence.
Qed.

(** ** C6 *)

(** C6: on the analysis that [analyze_self_performance] returns,
    [generate_improvements] returns a mapping whose keys are exactly the
    metrics with priority above 0.3, which are exactly the metrics with a
    current value below 70; a metric with priority at most 0.3 is not a
    key. *)
Theorem candidates_exactly_above_threshold (rs : RandomSource) (w : World) :
  Dict.wf (performance_metrics (self w)) ->
  exists analysis improvements w',
    analyze_self_performance w = Ok analysis w /\
    generate_improvements rs analysis w = Ok improvements w' /\
    forall m,
      (In m (Dict.keys improvements) <->
       exists data, Dict.get analysis m = Some data /\
                    (3 # 10) < Analysis.priority data) /\
      (In m (Dict.keys improvements) <->
       exists v, Dict.get (performance_metrics (self w)) m = Some v /\ v < 70) /\
      (forall data, Dict.get analysis m = Some data ->
                    Analysis.priority data <= (3 # 10) ->
                    ~ In m (Dict.keys improvements)).
Proof.
  intros Hwf.
  destruct (analyze_spec w) as (analysis & Han & Hwfa & Hent & _ & Hmap).
  destruct (generate_spec rs analysis w)
    as (imps & w' & Hgen & _ & _ & _ & Hkeys & _).
  exists analysis, imps, w'. do 2 (split; [assumption|]). intros m.
  assert (Hprio : In m (Dict.keys imps) <->
                  exists data, Dict.get analysis m = Some data /\
                               (3 # 10) < Analysis.priority data).
  { rewrite Hkeys. unfold Dict.keys. rewrite in_map_iff. split.
    - intros ([m' data] & <- & Hin). apply filter_In in Hin.
      destruct Hin as [Hin Hsel]. exists data.
      split; [now apply DictFacts.wf_in_get|].
      now apply Qltb_true in Hsel.
    - intros (data & Hget & Hp). exists (m, data). split; [reflexivity|].
      apply filter_In. split; [now apply DictFacts.get_in|].
      now apply Qltb_true. }
  split; [exact Hprio|]. split.
  - rewrite Hprio, (Hmap Hwf). split.
    + intros (data & Hget & Hp). apply DictFacts.get_in, in_map_iff in Hget.
      destruct Hget as ([m' v] & [= -> <-] & Hin). exists v.
      split; [now apply DictFacts.wf_in_get|].
      apply (analysed_priority (Analysis.mk v (100 - v) ((100 - v) / 100)));
        [split; reflexivity | exact Hp].
    + intros (v & Hget & Hv).
      exists (Analysis.mk v (100 - v) ((100 - v) / 100)). split.
      * apply DictFacts.wf_in_get; [now rewrite <- (Hmap Hwf)|].
        apply DictFacts.get_in in Hget.
        now apply (in_map analysis_entry) in Hget.
      * apply (analysed_priority (Analysis.mk v (100 - v) ((100 - v) / 100)));
          [split; reflexivity | exact Hv].
  - intros data Hget Hle Hin. apply Hprio in Hin.
    destruct Hin as (data' & Hget' & Hlt). rewrite Hget in Hget'.
    injection Hget' as <-. lra.
Qed.

Lemma candidates_exactly_above_threshold_witness :
  exists analysis improvements w',
    analyze_self_performance (mkWorld boundary_engine 0 0)
    = Ok analysis (mkWorld boundary_engine 0 0) /\
    generate_improvements half_source analysis (mkWorld boundary_engine 0 0)
    = Ok improvements w' /\
    In "algorithm_efficiency" (Dict.keys improvements) /\
    ~ In "code_quality" (Dict.keys improvements) /\
    ~ In "learning_speed" (Dict.keys improvements).
Proof.
  destruct (candidates_exactly_above_threshold half_source
              (mkWorld boundary_engine 0 0))
    as (analysis & imps & w' & Han & Hgen & Hkeys).
  - unfold Dict.wf. cbn.
    repeat (constructor; [cbn; intuition discriminate|]). constructor.
  - exists analysis, imps, w'. split; [exact Han|]. split; [exact Hgen|].
    split; [|split].
    + apply (proj1 (proj2 (Hkeys "algorithm_efficiency"))).
      exists 45. split; reflexivity.
    + intros Hin. apply (proj1 (proj2 (Hkeys "code_quality"))) in Hin.
      destruct Hin as (v & Hv & Hlt). cbn in Hv. injection Hv as <-.
      discriminate Hlt.
    + intros Hin. apply (proj1 (proj2 (Hkeys "learning_speed"))) in Hin.
      destruct Hin as (v & Hv & Hlt). cbn in Hv. injection Hv as <-.
      discriminate Hlt.
Defined.

(** ** C2 *)

(** C2: in [test_improvements] the candidate visited [i]-th gets its
    gain scale from draw [6 i], its pass/fail draw from draw [6 i + 1] and
    its stability draw from draw [6 i + 2]; its [success] flag is the
    conjunction of the two draws' outcomes, its [performance_gain] is
    [expected_gain * scale] when the pass/fail draw succeeded and [0]
    otherwise.  Some draws give a result with a positive gain and
    [success = false]. *)
Theorem test_result_success_and_gain :
  (forall (rs : RandomSource) (improvements : Dict.t Improvement.t) (w : World),
      Dict.wf improvements ->
      exists test_results w',
        test_improvements rs improvements w = Ok test_results w' /\
        forall i m improvement,
          nth_error improvements i = Some (m, improvement) ->
          let p := (rng_calls w + 6 * i)%nat in
          let scale := (5 # 10) + ((12 # 10) - (5 # 10)) * random_at rs p in
          let test_passed := Qltb (random_at rs (p + 1)) (8 # 10) in
          let stability_check :=
            Qgtb (random_at rs (p + 2)) (Improvement.risk_level improvement) in
          exists r,
            nth_error test_results i = Some (m, r) /\
            Dict.get test_results m = Some r /\
            TestResult.success r = test_passed && stability_check /\
            TestResult.performance_gain r
            = (if test_passed
               then Improvement.expected_gain improvement * scale else 0) /\
            TestResult.stability r = stability_check) /\
  (exists (rs : RandomSource) analysis improvements w1 test_results w2 m r,
      analyze_self_performance (start 0 0) = Ok analysis (start 0 0) /\
      generate_improvements rs analysis (start 0 0) = Ok improvements w1 /\
      test_improvements rs improvements w1 = Ok test_results w2 /\
      Dict.get test_results m = Some r /\
      TestResult.success r = false /\
      0 < TestResult.performance_gain r).
Proof.
  split.
  - intros rs imps w Hwf.
    destruct (test_spec rs imps w)
      as (res & w' & Htest & _ & _ & Hwfr & _ & _ & Hout).
    destruct (Hout Hwf) as [-> _].
    eexists _, _. split; [exact Htest|].
    intros i m imp Hnth. cbv zeta.
    exists (test_outcome rs (rng_calls w + 6 * i) imp).
    pose proof (test_outcomes_nth rs (rng_calls w) _ _ _ _ Hnth) as Hres.
    split; [exact Hres|]. split; [|repeat split].
    apply DictFacts.wf_in_get; [assumption|].
    eapply nth_error_In; eassumption.
  - exists quarter_source.
    eexists _, _, _, _, _, "algorithm_efficiency", _.
    split; [vm_compute; reflexivity|].
    split; [vm_compute; reflexivity|].
    split; [vm_compute; reflexivity|].
    split; [vm_compute; reflexivity|].
    split; vm_compute; reflexivity.
Qed.

Lemma test_result_success_and_gain_witness :
  exists test_results w',
    test_improvements half_source
      [("code_quality", Improvement.mk "refactoring"
                          "# Improved code_quality algorithm v2" 10 (8 # 10))]
      (start 0 0)
    = Ok test_results w' /\
    exists r,
      Dict.get test_results "code_quality" = Some r /\
      TestResult.success r = false /\
      TestResult.performance_gain r = 10 * ((5 # 10) + ((12 # 10) - (5 # 10)) * (1 # 2)).
Proof.
  destruct (proj1 test_result_success_and_gain half_source
              [("code_quality", Improvement.mk "refactoring"
                                  "# Improved code_quality algorithm v2"
                                  10 (8 # 10))]
              (start 0 0))
    as (res & w' & Htest & Hall).
  - unfold Dict.wf. cbn. repeat constructor. cbn. tauto.
  - exists res, w'. split; [exact Htest|].
    destruct (Hall 0%nat "code_quality" _ eq_refl) as (r & _ & Hget & Hs & Hg & _).
    exists r. split; [exact Hget|]. split; [exact Hs | exact Hg].
Defined.

(** ** C1 *)

(** C1, as stated, fails where the update is clamped: with
    [code_quality] at 95 and a successful result of gain 10, the record has
    old 95, new 100 and a delta field of 10, which is not [new - old]. *)
Lemma delta_field_differs_when_clamped :
  exists w' rec,
    apply_improvements still_clock [("code_quality", passed 10)]
      (mkWorld (engine_with (Dict.set initial_metrics "code_quality" 95) 3) 0 0)
    = Ok tt w' /\
    improvement_history (self w') = [rec] /\
    ImprovementRecord.old_value rec = 95 /\
    ImprovementRecord.new_value rec = 100 /\
    ImprovementRecord.improvement rec = 10 /\
    ~ ImprovementRecord.improvement rec
      == ImprovementRecord.new_value rec - ImprovementRecord.old_value rec.
Proof.
  eexists _, _. split; [vm_compute; reflexivity|].
  split; [reflexivity|]. repeat split. cbn. intros H. discriminate H.
Qed.

(** C1 (amended): [apply_improvements] appends one record per result with
    [success = true], in order; the record has the metric's value before
    the update as old value, [min(100, old + gain)] as new value, the
    current generation counter, the clock reading of its application, and
    the realized gain of the result as its delta field.  In a cycle that
    counter is the value before the increment. *)
Theorem applied_result_history_record :
  (forall (now_at : nat -> string) (test_results : Dict.t TestResult.t)
          (w : World),
      Dict.wf test_results ->
      incl (Dict.keys test_results) (Dict.keys (performance_metrics (self w))) ->
      exists w' recs,
        apply_improvements now_at test_results w = Ok tt w' /\
        generation (self w') = generation (self w) /\
        improvement_history (self w')
        = (improvement_history (self w) ++ recs)%list /\
        map ImprovementRecord.timestamp recs
        = map now_at (seq (clock_calls w) (length recs)) /\
        Forall2
          (fun mr rec =>
             exists old,
               Dict.get (performance_metrics (self w)) (fst mr) = Some old /\
               ImprovementRecord.metric rec = fst mr /\
               ImprovementRecord.generation rec = generation (self w) /\
               ImprovementRecord.old_value rec = old /\
               ImprovementRecord.new_value rec
               = py_min 100 (old + TestResult.performance_gain (snd mr)) /\
               ImprovementRecord.improvement rec
               = TestResult.performance_gain (snd mr))
          (filter successful test_results) recs) /\
  (forall (rs : RandomSource) (now_at : nat -> string) (w : World)
          (sm : Summary.t) (w' : World),
      has_baselines (self w) ->
      evolve_generation rs now_at w = Ok sm w' ->
      generation (self w') = (generation (self w) + 1)%Z /\
      exists recs,
        improvement_history (self w')
        = (improvement_history (self w) ++ recs)%list /\
        Forall (fun rec => ImprovementRecord.generation rec
                           = generation (self w)) recs).
Proof.
  split.
  - intros now_at res w Hwf Hincl.
    destruct (apply_loop_spec now_at res w Hwf Hincl)
      as (w' & recs & Happ & _ & Hg & _ & _ & _ & Hhist & Hrecs & Hts & _).
    exists w', recs. do 4 (split; [assumption|]).
    eapply Forall2_impl; [|exact Hrecs].
    intros [m r] rec (old & Hold & Hrec). exists old. rewrite Hrec.
    cbn [fst snd ImprovementRecord.metric ImprovementRecord.generation
         ImprovementRecord.old_value ImprovementRecord.new_value
         ImprovementRecord.improvement].
    repeat split. assumption.
  - intros rs now_at w sm w' Hbase Hev.
    destruct (evolve_facts rs now_at w sm w' Hbase Hev)
      as (res & recs & _ & _ & Hg & _ & _ & Hhist & Hrecs & _).
    split; [assumption|]. exists recs. split; [assumption|].
    apply Forall_forall. intros rec Hin.
    destruct (Forall2_in_r _ _ _ _ Hrecs Hin) as (mr & _ & old & _ & ->).
    reflexivity.
Qed.

Lemma applied_result_history_record_witness :
  exists w' recs,
    apply_improvements still_clock [("code_quality", passed 10)] (start 0 0)
    = Ok tt w' /\
    improvement_history (self w') = recs /\
    Forall2
      (fun mr rec =>
         exists old,
           Dict.get initial_metrics (fst mr) = Some old /\
           ImprovementRecord.old_value rec = old /\
           ImprovementRecord.new_value rec
           = py_min 100 (old + TestResult.performance_gain (snd mr)) /\
           ImprovementRecord.improvement rec
           = TestResult.performance_gain (snd mr))
      [("code_quality", passed 10)] recs.
Proof.
  destruct (proj1 applied_result_history_record still_clock
              [("code_quality", passed 10)] (start 0 0))
    as (w' & recs & Happ & _ & Hhist & _ & Hrecs).
  - unfold Dict.wf. cbn. repeat constructor. cbn. tauto.
  - cbn. intros m [<-|[]]. do 3 right. left. reflexivity.
  - exists w', recs. split; [exact Happ|]. split; [exact Hhist|].
    eapply Forall2_impl; [|exact Hrecs].
    intros mr rec (old & Hold & _ & _ & Hov & Hnew & Himp).
    exists old. split; [exact Hold|]. split; [exact Hov|].
    split; [exact Hnew | exact Himp].
Defined.

(** ** C7 *)

(** C7, as stated, fails on the delta field: with [code_quality] at 100 and
    a successful result of gain 5, the metric stays at 100 and a record is
    appended, but its delta field is 5, not 0. *)
Lemma delta_field_nonzero_at_upper_bound :
  exists w' rec,
    apply_improvements still_clock [("code_quality", passed 5)]
      (mkWorld (engine_with (Dict.set initial_metrics "code_quality" 100) 3) 0 0)
    = Ok tt w' /\
    Dict.get (performance_metrics (self w')) "code_quality" = Some 100 /\
    improvement_history (self w') = [rec] /\
    ImprovementRecord.metric rec = "code_quality" /\
    ImprovementRecord.improvement rec = 5 /\
    ~ ImprovementRecord.improvement rec == 0.
Proof.
  eexists _, _. split; [vm_compute; reflexivity|].
  split; [reflexivity|]. split; [reflexivity|]. repeat split.
  cbn. intros H. discriminate H.
Qed.

(** C7 (amended): a metric at 100 to which a result with [success = true]
    and a positive gain is applied is still exactly 100 afterwards, and a
    record is appended for it whose old and new values are both 100, so
    that [new - old] is 0, while its delta field is the realized gain. *)
Theorem metric_at_upper_bound_stays
  (now_at : nat -> string) (test_results : Dict.t TestResult.t) (w : World)
  (m : string) (old : Q) (r : TestResult.t) :
  Dict.wf test_results ->
  incl (Dict.keys test_results) (Dict.keys (performance_metrics (self w))) ->
  Dict.get (performance_metrics (self w)) m = Some old ->
  old == 100 ->
  Dict.get test_results m = Some r ->
  TestResult.success r = true ->
  0 < TestResult.performance_gain r ->
  exists w' recs rec,
    apply_improvements now_at test_results w = Ok tt w' /\
    Dict.get (performance_metrics (self w')) m = Some 100 /\
    improvement_history (self w')
    = (improvement_history (self w) ++ recs)%list /\
    In rec recs /\
    ImprovementRecord.metric rec = m /\
    ImprovementRecord.old_value rec = old /\
    ImprovementRecord.new_value rec = 100 /\
    ImprovementRecord.new_value rec - ImprovementRecord.old_value rec == 0 /\
    ImprovementRecord.improvement rec = TestResult.performance_gain r /\
    0 < ImprovementRecord.improvement rec.
Proof.
  intros Hwf Hincl Hold H100 Hr Hsucc Hgain.
  destruct (apply_loop_spec now_at test_results w Hwf Hincl)
    as (w' & recs & Happ & _ & _ & _ & _ & _ & Hhist & Hrecs & _ & _ & Hget).
  assert (Hclamp : py_min 100 (old + TestResult.performance_gain r) = 100)
    by (apply py_min_clamped; lra).
  assert (Hin : In (m, r) (filter successful test_results)).
  { apply filter_In. split; [now apply DictFacts.get_in | exact Hsucc]. }
  destruct (Forall2_in_l _ _ _ _ Hrecs Hin) as (rec & Hrec & old' & Hold' & Heq).
  cbn [fst snd] in Hold', Heq. rewrite Hold in Hold'. injection Hold' as <-.
  rewrite Hclamp in Heq.
  exists w', recs, rec. split; [assumption|]. split.
  - rewrite Hget. unfold applied_value. rewrite Hr, Hsucc, Hold. cbn.
    now rewrite Hclamp.
  - split; [assumption|]. split; [assumption|]. rewrite Heq.
    cbn [ImprovementRecord.metric ImprovementRecord.old_value
         ImprovementRecord.new_value ImprovementRecord.improvement].
    repeat split; try assumption. lra.
Qed.

Lemma metric_at_upper_bound_stays_witness :
  exists w' recs rec,
    apply_improvements still_clock [("code_quality", passed 5)]
      (mkWorld (engine_with (Dict.set initial_metrics "code_quality" 100) 3) 0 0)
    = Ok tt w' /\
    Dict.get (performance_metrics (self w')) "code_quality" = Some 100 /\
    improvement_history (self w') = ([] ++ recs)%list /\
    In rec recs /\
    ImprovementRecord.metric rec = "code_quality" /\
    ImprovementRecord.old_value rec = 100 /\
    ImprovementRecord.new_value rec = 100 /\
    ImprovementRecord.new_value rec - ImprovementRecord.old_value rec == 0 /\
    ImprovementRecord.improvement rec = 5 /\
    0 < ImprovementRecord.improvement rec.
Proof.
  apply (metric_at_upper_bound_stays still_clock
           [("code_quality", passed 5)]
           (mkWorld (engine_with (Dict.set initial_metrics "code_quality" 100) 3) 0 0)
           "code_quality" 100 (passed 5)).
  - unfold Dict.wf. cbn. repeat constructor. cbn. tauto.
  - cbn. intros m [<-|[]]. do 3 right. left. reflexivity.
  - reflexivity.
  - reflexivity.
  - reflexivity.
  - reflexivity.
  - reflexivity.
Defined.

(** ** C3 *)

(** C3: [apply_improvements] writes [min(100, old + gain)], so whatever
    the gains of the results it applies, scores that were at most 100 are
    at most 100 afterwards; when the gains it applies are non-negative,
    scores in [[0, 100]] stay in [[0, 100]].  Whatever the random source
    and the number of cycles run from construction, the run returns and
    every current score lies in [[0, 100]] afterwards, as does every score
    of every summary's snapshot and every new value of the history. *)
Theorem scores_stay_in_range :
  (forall (now_at : nat -> string) (test_results : Dict.t TestResult.t)
          (w : World),
      Forall (fun mr => successful mr = true ->
                        In (fst mr) (Dict.keys (performance_metrics (self w))))
             test_results ->
      Forall (fun mv => snd mv <= 100) (performance_metrics (self w)) ->
      exists w',
        apply_improvements now_at test_results w = Ok tt w' /\
        Forall (fun mv => snd mv <= 100) (performance_metrics (self w'))) /\
  (forall (now_at : nat -> string) (test_results : Dict.t TestResult.t)
          (w : World),
      Forall (fun mr => successful mr = true ->
                        In (fst mr) (Dict.keys (performance_metrics (self w))))
             test_results ->
      Forall (fun mr => successful mr = true ->
                        0 <= TestResult.performance_gain (snd mr))
             test_results ->
      Forall (fun mv => 0 <= snd mv /\ snd mv <= 100)
             (performance_metrics (self w)) ->
      exists w',
        apply_improvements now_at test_results w = Ok tt w' /\
        Forall (fun mv => 0 <= snd mv /\ snd mv <= 100)
               (performance_metrics (self w'))) /\
  (forall (rs : RandomSource) (now_at : nat -> string)
          (num_cycles rng clock : nat),
      exists sums w',
        run_evolution_cycles rs now_at num_cycles (start rng clock)
        = Ok sums w' /\
        Forall (fun mv => 0 <= snd mv /\ snd mv <= 100)
               (performance_metrics (self w')) /\
        Forall (fun sm => Forall (fun mv => 0 <= snd mv /\ snd mv <= 100)
                                 (Summary.performance_metrics sm)) sums /\
        Forall (fun rec =>
                  ImprovementRecord.new_value rec
                  = py_min 100 (ImprovementRecord.old_value rec
                                + ImprovementRecord.improvement rec) /\
                  ImprovementRecord.new_value rec <= 100)
               (improvement_history (self w'))).
Proof.
  split; [|split].
  - intros now_at res w Hkeys Hle.
    destruct (apply_records now_at res w Hkeys) as (w' & recs & Happ & _).
    exists w'. split; [exact Happ|].
    exact (apply_upper_bound _ _ _ _ Happ Hle).
  - intros now_at res w Hkeys Hgain Hrange.
    destruct (apply_records now_at res w Hkeys) as (w' & recs & Happ & _).
    exists w'. split; [exact Happ|].
    assert (Hup : Forall (fun mv => snd mv <= 100)
                         (performance_metrics (self w'))).
    { apply (apply_upper_bound _ _ _ _ Happ).
      eapply Forall_impl; [|exact Hrange]. intros mv [_ H]. exact H. }
    assert (Hlo : Forall (fun mv => 0 <= snd mv)
                         (performance_metrics (self w'))).
    { apply (apply_lower_bound _ _ _ _ Happ Hgain).
      eapply Forall_impl; [|exact Hrange]. intros mv [H _]. exact H. }
    rewrite Forall_forall in Hup, Hlo |- *. intros mv Hin.
    split; [now apply Hlo | now apply Hup].
  - intros rs now_at num_cycles rng clock.
    destruct (run_cycles rs now_at num_cycles (start rng clock) Inv_init)
      as (sums & w' & Hrun & Hcyc & _ & HI').
    destruct (cycles_facts rs now_at _ _ _ Hcyc Inv_init)
      as (_ & _ & Hsnaps & _ & recs & Hhist & _ & Hok).
    exists sums, w'. split; [assumption|].
    split; [now apply Inv_in_range|]. split; [exact Hsnaps|].
    rewrite Hhist. cbn [start self __init__ improvement_history app].
    eapply Forall_impl; [|exact Hok]. intros rec [Hnew _].
    split; [exact Hnew|]. rewrite Hnew. apply py_min_le_l.
Qed.

Lemma scores_stay_in_range_witness :
  exists w',
    apply_improvements still_clock [("code_quality", passed 1000)]
      (mkWorld (engine_with (Dict.set initial_metrics "code_quality" 95) 3) 0 0)
    = Ok tt w' /\
    Forall (fun mv => snd mv <= 100) (performance_metrics (self w')).
Proof.
  apply (proj1 scores_stay_in_range still_clock
           [("code_quality", passed 1000)]
           (mkWorld (engine_with (Dict.set initial_metrics "code_quality" 95) 3)
                    0 0)).
  - apply Forall_cons; [|apply Forall_nil].
    intros _. cbn. do 3 right. left. reflexivity.
  - cbn. repeat (apply Forall_cons; [cbn; discriminate|]). apply Forall_nil.
Defined.

(** ** C4 *)

(** C4: after any number of cycles run from construction, the history has
    as many records as the summaries of those cycles report successes in
    total, and that is the report's [total_improvements]; one more cycle
    keeps the records there are and appends as many as its summary reports
    successes. *)
Theorem history_length_is_total_successes
  (rs : RandomSource) (now_at : nat -> string) (num_cycles rng clock : nat) :
  exists sums w' report sm w'' recs,
    run_evolution_cycles rs now_at num_cycles (start rng clock) = Ok sums w' /\
    length sums = num_cycles /\
    length (improvement_history (self w'))
    = list_sum (map Summary.improvements_successful sums) /\
    get_evolution_report w' = Ok report w' /\
    Report.total_improvements report
    = list_sum (map Summary.improvements_successful sums) /\
    evolve_generation rs now_at w' = Ok sm w'' /\
    improvement_history (self w'')
    = (improvement_history (self w') ++ recs)%list /\
    length recs = Summary.improvements_successful sm.
Proof.
  destruct (run_cycles rs now_at num_cycles (start rng clock) Inv_init)
    as (sums & w' & Hrun & Hcyc & Hlen & HI').
  destruct (cycles_facts rs now_at _ _ _ Hcyc Inv_init)
    as (_ & _ & _ & _ & recs & Hhist & Hrecs & _).
  destruct (report_spec w' (Inv_has_baselines _ HI')) as (progress & Hrep & _).
  destruct (evolve_inv rs now_at w' HI') as (sm & w'' & Hev & _).
  destruct (evolve_facts rs now_at w' sm w'' (Inv_has_baselines _ HI') Hev)
    as (_ & recs' & _ & _ & _ & _ & _ & Hhist' & _ & Hsucc & _).
  eexists sums, w', _, sm, w'', recs'.
  split; [assumption|]. split; [assumption|].
  assert (Hh : length (improvement_history (self w'))
               = list_sum (map Summary.improvements_successful sums)).
  { rewrite Hhist. cbn [start self __init__ improvement_history app].
    exact Hrecs. }
  split; [exact Hh|]. split; [exact Hrep|]. split; [exact Hh|].
  split; [exact Hev|]. split; [exact Hhist' | now rewrite Hsucc].
Qed.

(** ** C5 *)

(** C5: the baseline is a copy of the initial metrics, no method changes
    it however it ends, and after any number of cycles run from
    construction it is still the initial mapping, which is also what the
    report hands out. *)
Theorem baseline_never_mutated
  (rs : RandomSource) (now_at : nat -> string) :
  baseline_performance __init__ = initial_metrics /\
  baseline_performance __init__ = performance_metrics __init__ /\
  (forall test_results,
      keeps same_baseline (apply_improvements now_at test_results)) /\
  keeps same_baseline (evolve_generation rs now_at) /\
  (forall num_cycles,
      keeps same_baseline (run_evolution_cycles rs now_at num_cycles)) /\
  keeps same_baseline get_evolution_report /\
  (forall num_cycles rng clock,
      exists sums w' report,
        run_evolution_cycles rs now_at num_cycles (start rng clock)
        = Ok sums w' /\
        baseline_performance (self w') = initial_metrics /\
        get_evolution_report w' = Ok report w' /\
        Report.baseline_performance report = initial_metrics).
Proof.
  split; [reflexivity|]. split; [reflexivity|].
  split; [apply apply_same_baseline|].
  split; [apply evolve_same_baseline|].
  split; [apply run_same_baseline|].
  split; [apply keeps_same_self_baseline, report_same_self|].
  intros num_cycles rng clock.
  destruct (run_cycles rs now_at num_cycles (start rng clock) Inv_init)
    as (sums & w' & Hrun & _ & _ & HI').
  destruct (report_spec w' (Inv_has_baselines _ HI')) as (progress & Hrep & _).
  pose proof (run_same_baseline rs now_at num_cycles (start rng clock)) as Hsame.
  rewrite Hrun in Hsame. unfold same_baseline in Hsame. cbn in Hsame.
  eexists sums, w', _. split; [assumption|]. split; [exact Hsame|].
  split; [exact Hrep|]. exact Hsame.
Qed.

(** ** C10 *)

(** C10: after any number of cycles run from construction, one more cycle
    returns and lowers no score; the per-metric deltas from baseline in its
    summary and in the report that follows are non-negative, and so is the
    applied gain of every record of the history. *)
Theorem scores_never_decrease
  (rs : RandomSource) (now_at : nat -> string) (num_cycles rng clock : nat) :
  exists sums w sm w' report,
    run_evolution_cycles rs now_at num_cycles (start rng clock) = Ok sums w /\
    evolve_generation rs now_at w = Ok sm w' /\
    (forall m v, Dict.get (performance_metrics (self w)) m = Some v ->
                 exists v', Dict.get (performance_metrics (self w')) m = Some v'
                            /\ v <= v') /\
    Forall (fun md => 0 <= snd md) (Summary.total_improvement_from_baseline sm) /\
    get_evolution_report w' = Ok report w' /\
    Forall (fun md => 0 <= snd md) (Report.overall_progress report) /\
    Forall (fun rec => 0 <= ImprovementRecord.improvement rec)
           (improvement_history (self w')).
Proof.
  destruct (run_cycles rs now_at num_cycles (start rng clock) Inv_init)
    as (sums & w & Hrun & Hcyc & _ & HI).
  destruct (evolve_inv rs now_at w HI) as (sm & w' & Hev & HI' & Hle).
  destruct (report_spec w' (Inv_has_baselines _ HI'))
    as (progress & Hrep & Hprog & _).
  destruct (evolve_facts rs now_at w sm w' (Inv_has_baselines _ HI) Hev)
    as (_ & _ & _ & _ & _ & _ & _ & _ & _ & _ & _ & _ & _ & Hdelta).
  assert (Hcyc' : cycles rs now_at (start rng clock) (sums ++ [sm])%list w').
  { clear - Hcyc HI Hev. induction Hcyc as [w|w0 sm0 w1 sums w Hi0 Hev0 _ IH].
    - econstructor; [eassumption | eassumption | constructor].
    - cbn [app]. econstructor; [eassumption | eassumption | auto]. }
  destruct (cycles_facts rs now_at _ _ _ Hcyc' Inv_init)
    as (_ & _ & _ & _ & recs & Hhist & _ & Hok).
  assert (Hnonneg : forall (l : Dict.t Q),
             Forall (fun md => exists c b,
                         In (fst md, c) (performance_metrics (self w')) /\
                         Dict.get (baseline_performance (self w')) (fst md)
                         = Some b /\ snd md = c - b) l ->
             Forall (fun md => 0 <= snd md) l).
  { intros l Hl. eapply Forall_impl; [|exact Hl].
    intros [m d] (c & b & Hin & Hb & ->). cbn [fst snd] in *.
    destruct HI' as [_ Hall]. rewrite Forall_forall in Hall.
    destruct (Hall _ Hin) as (_ & b' & Hb' & Hle'). cbn [fst snd] in *.
    rewrite Hb in Hb'. injection Hb' as <-. lra. }
  eexists sums, w, sm, w', _.
  split; [assumption|]. split; [assumption|]. split; [exact Hle|].
  split; [now apply Hnonneg|]. split; [exact Hrep|].
  split; [now apply Hnonneg|].
  rewrite Hhist. cbn [start self __init__ improvement_history app].
  eapply Forall_impl; [|exact Hok]. intros rec [_ H]. exact H.
Qed.

(** ** C8 *)

Lemma filter_none {A : Type} (f : A -> bool) (l : list A) :
  Forall (fun x => f x = false) l -> filter f l = [].
Proof.
  induction 1 as [|x l Hx _ IH]; simpl; [reflexivity|]. now rewrite Hx.
Qed.

Lemma apply_none (now_at : nat -> string) (test_results : Dict.t TestResult.t)
  (w : World) :
  Forall (fun mr => successful mr = false) test_results ->
  apply_improvements now_at test_results w = Ok tt w.
Proof.
  intros Hall. unfold apply_improvements.
  match goal with
  | |- bind (for_fold _ _ ?body) _ _ = _ =>
      assert (G : forall total,
                 for_fold (Dict.items test_results) total body w = Ok total w)
  end.
  { unfold Dict.items. induction Hall as [|[m r] l Hr _ IH]; intros total.
    - reflexivity.
    - cbn [for_fold]. unfold bind at 1. unfold successful in Hr.
      cbn [snd] in Hr. rewrite Hr. unfold ret at 1. apply IH. }
  now rewrite (bind_ok _ _ _ _ _ (G 0%nat)).
Qed.

Lemma test_outcomes_all_fail (rs : RandomSource) (p : nat)
  (l : list (string * Improvement.t)) :
  (forall i, (i < length l)%nat ->
             (8 # 10) <= random_at rs (p + 6 * i + 1)) ->
  Forall (fun mr => successful mr = false) (test_outcomes rs p l).
Proof.
  revert p. induction l as [|[m imp] l IH]; intros p Hdraws;
    cbn [test_outcomes]; constructor.
  - unfold successful, test_outcome. cbn [snd TestResult.success].
    assert (H : Qltb (random_at rs (p + 1)) (8 # 10) = false).
    { apply Qltb_false. specialize (Hdraws 0%nat).
      rewrite Nat.mul_0_r, Nat.add_0_r in Hdraws. apply Hdraws.
      cbn [length]. lia. }
    now rewrite H.
  - apply IH. intros i Hi.
    replace (p + 6 + 6 * i + 1)%nat with (p + 6 * S i + 1)%nat by lia.
    apply Hdraws. cbn [length]. lia.
Qed.

(** A cycle in which every pass/fail draw fails changes nothing but the
    generation counter and the position of the random source. *)
Lemma evolve_all_fail (rs : RandomSource) (now_at : nat -> string) (w : World) :
  Dict.wf (performance_metrics (self w)) ->
  has_baselines (self w) ->
  (forall i, (i < candidates (performance_metrics (self w)))%nat ->
     (8 # 10) <= random_at rs
                   (rng_calls w + 3 * candidates (performance_metrics (self w))
                    + 6 * i + 1)) ->
  exists sm,
    evolve_generation rs now_at w
    = Ok sm (mkWorld (with_generation (self w) (generation (self w) + 1))
               (rng_calls w + 9 * candidates (performance_metrics (self w)))
               (clock_calls w)) /\
    Summary.improvements_successful sm = 0%nat /\
    Summary.performance_metrics sm = performance_metrics (self w).
Proof.
  intros Hwf Hbase Hdraws.
  set (n := candidates (performance_metrics (self w))) in *.
  destruct (evolve_steps rs now_at w Hbase)
    as (analysis & imps & w1 & res & w2 & w3 & total
        & Han & Hgen & Htest & Happ & _ & Hev & _).
  destruct (analyze_spec w) as (analysis' & Han' & Hwfa & _ & _ & Hmap).
  rewrite Han in Han'. injection Han' as <-. specialize (Hmap Hwf).
  destruct (generate_spec rs analysis w)
    as (imps' & w1' & Hgen' & Hs1 & Hc1 & Hwfi & _ & _ & Hpos).
  rewrite Hgen in Hgen'. injection Hgen' as <- <-.
  destruct (Hpos Hwfa) as [Hkeys Hr1].
  assert (Hn : length imps = n).
  { unfold n, candidates. rewrite <- Hmap.
    apply (f_equal (@length string)) in Hkeys. unfold Dict.keys in Hkeys.
    now rewrite !length_map in Hkeys. }
  destruct (test_spec rs imps w1)
    as (res' & w2' & Htest' & Hs2 & Hc2 & _ & _ & _ & Hout).
  rewrite Htest in Htest'. injection Htest' as <- <-.
  destruct (Hout Hwfi) as [Hres Hr2].
  assert (Hfail : Forall (fun mr => successful mr = false) res).
  { rewrite Hres. apply test_outcomes_all_fail. intros i Hi.
    rewrite Hr1, Hn. apply Hdraws. lia. }
  rewrite (apply_none now_at res w2 Hfail) in Happ. injection Happ as <-.
  eexists. split; [|split].
  - rewrite Hev. f_equal. unfold next_generation.
    rewrite Hs2, Hs1, Hc2, Hc1, Hr2, Hr1, Hn. f_equal. lia.
  - cbn [Summary.improvements_successful].
    now rewrite successful_values, (filter_none _ _ Hfail).
  - cbn [Summary.performance_metrics]. now rewrite Hs2, Hs1.
Qed.

Lemma run_all_fail (rs : RandomSource) (now_at : nat -> string)
  (num_cycles : nat) (w : World) :
  Dict.wf (performance_metrics (self w)) ->
  has_baselines (self w) ->
  (forall cycle i,
      (cycle < num_cycles)%nat ->
      (i < candidates (performance_metrics (self w)))%nat ->
      (8 # 10) <= random_at rs
                    (rng_calls w
                     + 9 * candidates (performance_metrics (self w)) * cycle
                     + 3 * candidates (performance_metrics (self w))
                     + 6 * i + 1)) ->
  exists sums,
    run_evolution_cycles rs now_at num_cycles w
    = Ok sums
         (mkWorld (with_generation (self w)
                     (generation (self w) + Z.of_nat num_cycles))
            (rng_calls w
             + 9 * candidates (performance_metrics (self w)) * num_cycles)
            (clock_calls w)) /\
    length sums = num_cycles /\
    Forall (fun sm => Summary.improvements_successful sm = 0%nat) sums.
Proof.
  revert w. induction num_cycles as [|k IH]; intros w Hwf Hbase Hdraws.
  - exists []. split; [|split; [reflexivity | constructor]].
    destruct w as [[g pm h a b] r c]. cbn.
    unfold ret, with_generation. cbn.
    now rewrite Z.add_0_r, Nat.mul_0_r, Nat.add_0_r.
  - set (n := candidates (performance_metrics (self w))) in *.
    destruct (evolve_all_fail rs now_at w Hwf Hbase)
      as (sm & Hev & Hsucc & Hsnap).
    { intros i Hi. fold n in Hi |- *.
      replace (rng_calls w + 3 * n + 6 * i + 1)%nat
        with (rng_calls w + 9 * n * 0 + 3 * n + 6 * i + 1)%nat by lia.
      apply Hdraws; [lia | assumption]. }
    fold n in Hev.
    set (w1 := mkWorld (with_generation (self w) (generation (self w) + 1))
                 (rng_calls w + 9 * n) (clock_calls w)) in *.
    destruct (IH w1) as (sums & Hrun & Hlen & Hall).
    { exact Hwf. }
    { exact Hbase. }
    { intros cycle i Hc Hi. cbn [w1 self rng_calls with_generation
                                 performance_metrics] in Hi |- *.
      fold n in Hi |- *.
      replace (rng_calls w + 9 * n + 9 * n * cycle + 3 * n + 6 * i + 1)%nat
        with (rng_calls w + 9 * n * S cycle + 3 * n + 6 * i + 1)%nat by lia.
      apply Hdraws; [lia | assumption]. }
    exists (sm :: sums). split; [|split].
    + cbn [run_evolution_cycles]. rewrite (bind_ok _ _ _ _ _ Hev).
      unfold bind at 1, get_self.
      rewrite (bind_ok _ _ w1 w1 tt)
        by (apply print_loop_spec; rewrite Hsnap; exact Hbase).
      rewrite (bind_ok _ _ _ _ _ Hrun). unfold ret. f_equal.
      cbn [w1 self rng_calls clock_calls with_generation performance_metrics
           generation improvement_history current_algorithms
           baseline_performance].
      fold n. f_equal; [|lia]. unfold with_generation.
      cbn [generation performance_metrics improvement_history
           current_algorithms baseline_performance].
      f_equal. lia.
    + cbn [length]. now rewrite Hlen.
    + constructor; assumption.
Qed.

Lemma candidates_initial : candidates initial_metrics = 5%nat.
Proof. reflexivity. Qed.

(** C8: a result with [success = false] leaves its metric's score as it
    was and adds no record for that metric.  A cycle run from construction
    makes 45 calls to the random source, 15 to generate its five candidates
    and 6 to test each, the second of the six being the pass/fail draw;
    when all those draws fail, after any number of cycles the current
    metrics equal the baseline, the history is empty and the report's
    [total_improvements] is 0. *)
Theorem failed_results_change_nothing :
  (forall (now_at : nat -> string) (test_results : Dict.t TestResult.t)
          (w : World) (m : string) (r : TestResult.t),
      Dict.wf test_results ->
      incl (Dict.keys test_results) (Dict.keys (performance_metrics (self w))) ->
      Dict.get test_results m = Some r ->
      TestResult.success r = false ->
      exists w' recs,
        apply_improvements now_at test_results w = Ok tt w' /\
        Dict.get (performance_metrics (self w')) m
        = Dict.get (performance_metrics (self w)) m /\
        improvement_history (self w')
        = (improvement_history (self w) ++ recs)%list /\
        Forall (fun rec => ImprovementRecord.metric rec <> m) recs) /\
  (forall (rs : RandomSource) (now_at : nat -> string)
          (num_cycles rng clock : nat),
      (forall cycle i,
          (cycle < num_cycles)%nat -> (i < 5)%nat ->
          (8 # 10) <= random_at rs (rng + 45 * cycle + 15 + 6 * i + 1)) ->
      exists sums w' report,
        run_evolution_cycles rs now_at num_cycles (start rng clock)
        = Ok sums w' /\
        performance_metrics (self w') = baseline_performance (self w') /\
        improvement_history (self w') = [] /\
        get_evolution_report w' = Ok report w' /\
        Report.current_performance report = Report.baseline_performance report /\
        Report.total_improvements report = 0%nat).
Proof.
  split.
  - intros now_at res w m r Hwf Hincl Hr Hfail.
    destruct (apply_loop_spec now_at res w Hwf Hincl)
      as (w' & recs & Happ & _ & _ & _ & _ & _ & Hhist & Hrecs & _ & _ & Hget).
    exists w', recs. split; [assumption|]. split; [|split; [assumption|]].
    + rewrite Hget. unfold applied_value. now rewrite Hr, Hfail.
    + apply Forall_forall. intros rec Hin Hm.
      destruct (Forall2_in_r _ _ _ _ Hrecs Hin)
        as ([m' r'] & Hmr & old & _ & Hrec).
      rewrite Hrec in Hm. cbn [ImprovementRecord.metric fst] in Hm. subst m'.
      apply filter_In in Hmr. destruct Hmr as [Hmr Hs].
      apply (DictFacts.wf_in_get _ _ _ Hwf) in Hmr. rewrite Hr in Hmr.
      injection Hmr as <-. unfold successful in Hs. cbn [snd] in Hs.
      congruence.
  - intros rs now_at num_cycles rng clock Hdraws.
    destruct (run_all_fail rs now_at num_cycles (start rng clock))
      as (sums & Hrun & _ & _).
    { exact (proj1 Inv_init). }
    { exact (Inv_has_baselines _ Inv_init). }
    { intros cycle i Hc Hi.
      cbn [start self __init__ performance_metrics rng_calls] in Hi |- *.
      rewrite candidates_initial in Hi |- *.
      replace (rng + 9 * 5 * cycle + 3 * 5 + 6 * i + 1)%nat
        with (rng + 45 * cycle + 15 + 6 * i + 1)%nat by lia.
      now apply Hdraws. }
    destruct (report_spec
                (mkWorld (with_generation (self (start rng clock))
                            (generation (self (start rng clock))
                             + Z.of_nat num_cycles))
                   (rng_calls (start rng clock)
                    + 9 * candidates
                            (performance_metrics (self (start rng clock)))
                      * num_cycles)
                   (clock_calls (start rng clock))))
      as (progress & Hrep & _).
    { exact (Inv_has_baselines _ Inv_init). }
    eexists sums, _, _. split; [exact Hrun|].
    split; [reflexivity|]. split; [reflexivity|].
    split; [exact Hrep|]. split; reflexivity.
Qed.

Lemma failed_results_change_nothing_witness :
  exists sums w' report,
    run_evolution_cycles pass_failing_source still_clock 3 (start 0 0)
    = Ok sums w' /\
    performance_metrics (self w') = baseline_performance (self w') /\
    improvement_history (self w') = [] /\
    get_evolution_report w' = Ok report w' /\
    Report.current_performance report = Report.baseline_performance report /\
    Report.total_improvements report = 0%nat.
Proof.
  apply (proj2 failed_results_change_nothing pass_failing_source still_clock
           3%nat 0%nat 0%nat).
  intros cycle i Hc Hi.
  destruct cycle as [|[|[|cycle]]]; [| | |lia];
    (destruct i as [|[|[|[|[|i]]]]]; [| | | | |lia]); vm_compute; discriminate.
Defined.

(** * Further properties *)

(** ** X1: missing metrics in [apply_improvements] *)

Lemma apply_app (now_at : nat -> string)
  (pre rest : Dict.t TestResult.t) (w w' : World) :
  apply_improvements now_at pre w = Ok tt w' ->
  apply_improvements now_at (pre ++ rest)%list w
  = apply_improvements now_at rest w'.
Proof.
  revert w. induction pre as [|[m r] pre IH]; intros w Hpre.
  - rewrite apply_nil in Hpre. now injection Hpre as <-.
  - cbn [app]. rewrite apply_cons in Hpre |- *.
    destruct (TestResult.success r); [|now apply IH].
    destruct (Dict.get (performance_metrics (self w)) m); [|discriminate].
    now apply IH.
Qed.

(** X1: [apply_improvements] returns when every result with
    [success = true] names a metric of [self.performance_metrics]: it keeps
    the keys and writes one record per such result, each with
    [min(100, old + gain)] as new value, and the metrics it leaves are the
    metrics it found with those new values written in.  Otherwise it
    raises [KeyError] for the first successful result whose metric is
    missing, in the state that applying the results before it leaves: their
    scores written and their records appended. *)
Theorem apply_improvements_missing_metric
  (now_at : nat -> string) (test_results : Dict.t TestResult.t) (w : World) :
  (Forall (fun mr => successful mr = true ->
                     In (fst mr) (Dict.keys (performance_metrics (self w))))
          test_results ->
   exists w' recs,
     apply_improvements now_at test_results w = Ok tt w' /\
     improvement_history (self w')
     = (improvement_history (self w) ++ recs)%list /\
     records_applied (generation (self w)) (performance_metrics (self w))
                     test_results recs (performance_metrics (self w')) /\
     Dict.keys (performance_metrics (self w'))
     = Dict.keys (performance_metrics (self w))) /\
  (forall pre m r post,
      test_results = (pre ++ (m, r) :: post)%list ->
      Forall (fun mr => successful mr = true ->
                        In (fst mr) (Dict.keys (performance_metrics (self w))))
             pre ->
      TestResult.success r = true ->
      ~ In m (Dict.keys (performance_metrics (self w))) ->
      exists w' recs,
        apply_improvements now_at pre w = Ok tt w' /\
        apply_improvements now_at test_results w = Raise (KeyError m) w' /\
        improvement_history (self w')
        = (improvement_history (self w) ++ recs)%list /\
        records_applied (generation (self w)) (performance_metrics (self w))
                        pre recs (performance_metrics (self w')) /\
        Dict.keys (performance_metrics (self w'))
        = Dict.keys (performance_metrics (self w))).
Proof.
  split.
  - intros Hall.
    destruct (apply_records now_at test_results w Hall)
      as (w' & recs & Happ & Hhist & Hrecs & Hk & _).
    exists w', recs. auto.
  - intros pre m r post -> Hpre Hsucc Hmiss.
    destruct (apply_records now_at pre w Hpre)
      as (w' & recs & Happ & Hhist & Hrecs & Hk & _).
    exists w', recs. split; [exact Happ|]. split; [|auto].
    rewrite (apply_app _ _ _ _ _ Happ), apply_cons, Hsucc.
    rewrite DictFacts.get_none; [reflexivity|]. now rewrite Hk.
Qed.

Lemma apply_improvements_missing_metric_witness :
  exists w' recs,
    apply_improvements still_clock [("code_quality", passed 10)] (start 0 0)
    = Ok tt w' /\
    apply_improvements still_clock
      [("code_quality", passed 10); ("response_time", passed 3);
       ("learning_speed", passed 4)]
      (start 0 0)
    = Raise (KeyError "response_time") w' /\
    improvement_history (self w') = ([] ++ recs)%list /\
    records_applied 1 initial_metrics [("code_quality", passed 10)] recs
                    (performance_metrics (self w')) /\
    Dict.keys (performance_metrics (self w')) = Dict.keys initial_metrics.
Proof.
  apply (proj2 (apply_improvements_missing_metric still_clock
                  [("code_quality", passed 10); ("response_time", passed 3);
                   ("learning_speed", passed 4)]
                  (start 0 0))
           [("code_quality", passed 10)] "response_time" (passed 3)
           [("learning_speed", passed 4)]).
  - reflexivity.
  - apply Forall_cons; [|apply Forall_nil].
    intros _. cbn. do 3 right. left. reflexivity.
  - reflexivity.
  - cbn. intuition discriminate.
Defined.

(** ** X2: what [test_improvements] returns *)

Lemma test_outcome_ok (rs : RandomSource) (p : nat) (imp : Improvement.t) :
  candidate_in_range imp -> result_ok (test_outcome rs p imp).
Proof.
  intros Hrange. pose proof (test_outcome_gain rs p imp Hrange) as Hgain.
  destruct Hrange as [[Hlo Hhi] _].
  unfold result_ok. split; [exact Hgain|].
  unfold test_outcome.
  cbn [TestResult.success TestResult.stability TestResult.performance_gain
       TestResult.test_details TestDetails.execution_time
       TestDetails.memory_usage TestDetails.error_rate].
  destruct (random_range rs p) as [H0 H1].
  assert (Hone : 1 <= Improvement.expected_gain imp
                      * ((5 # 10) + ((12 # 10) - (5 # 10)) * random_at rs p)).
  { destruct (uniform_range (5 # 10) (12 # 10) (random_at rs p))
      as [Hs0 Hs1]; try assumption; [lra|].
    set (g := Improvement.expected_gain imp) in *.
    set (s := (5 # 10) + ((12 # 10) - (5 # 10)) * random_at rs p) in *.
    assert (H2 : 0 <= (g - 2) * (s - (5 # 10)))
      by (apply Qmult_le_0_compat; lra).
    lra. }
  split; [|split].
  - destruct (Qltb (random_at rs (p + 1)) (8 # 10)); cbn [andb].
    + intros ->. split; [reflexivity | exact Hone].
    + discriminate.
  - destruct (Qltb (random_at rs (p + 1)) (8 # 10)).
    + right. exact Hone.
    + left. reflexivity.
  - destruct (random_range rs (p + 3)) as [? ?].
    destruct (random_range rs (p + 4)) as [? ?].
    destruct (random_range rs (p + 5)) as [? ?].
    repeat split; lra.
Qed.

Lemma test_outcomes_ok (rs : RandomSource) (p : nat)
  (l : list (string * Improvement.t)) :
  Forall (fun mi => candidate_in_range (snd mi)) l ->
  Forall (fun mr => result_ok (snd mr)) (test_outcomes rs p l).
Proof.
  intros Hall. revert p.
  induction Hall as [|[m imp] l Hx _ IH]; intros p; cbn [test_outcomes];
    constructor; [|apply IH].
  apply test_outcome_ok. exact Hx.
Qed.

Lemma test_outcomes_keys (rs : RandomSource) (p : nat)
  (l : list (string * Improvement.t)) :
  Dict.keys (test_outcomes rs p l) = Dict.keys l.
Proof.
  revert p. induction l as [|[m imp] l IH]; intros p; cbn; [reflexivity|].
  f_equal. apply IH.
Qed.

(** X2: on candidates drawn in range, [test_improvements] returns one
    result per candidate, under the same keys in the same order, after six
    calls to the random source each and without touching [self] or the
    clock.  Every gain is 0 or lies in [[1, 14.4]]; a result with
    [success = true] is stable and has a gain of at least 1; the
    diagnostic figures lie in their ranges. *)
Theorem test_improvements_results
  (rs : RandomSource) (improvements : Dict.t Improvement.t) (w : World) :
  Dict.wf improvements ->
  Forall (fun mi => candidate_in_range (snd mi)) improvements ->
  exists test_results,
    test_improvements rs improvements w
    = Ok test_results
         (mkWorld (self w) (rng_calls w + 6 * length improvements)
                  (clock_calls w)) /\
    Dict.keys test_results = Dict.keys improvements /\
    Forall (fun mr => result_ok (snd mr)) test_results.
Proof.
  intros Hwf Hrange.
  destruct (test_spec rs improvements w)
    as (res & w' & Htest & Hs & Hc & _ & _ & _ & Hout).
  destruct (Hout Hwf) as [-> Hr]. eexists. split; [|split].
  - rewrite Htest. f_equal. destruct w' as [s' r' c']. cbn in *. now subst.
  - apply test_outcomes_keys.
  - now apply test_outcomes_ok.
Qed.

Lemma test_improvements_results_witness :
  exists test_results,
    test_improvements half_source
      [("code_quality", Improvement.mk "refactoring"
                          "# Improved code_quality algorithm v2" 10 (3 # 10))]
      (start 0 0)
    = Ok test_results (mkWorld (self (start 0 0)) (0 + 6 * 1) 0) /\
    Dict.keys test_results = ["code_quality"] /\
    Forall (fun mr => result_ok (snd mr)) test_results.
Proof.
  apply (test_improvements_results half_source
           [("code_quality", Improvement.mk "refactoring"
                               "# Improved code_quality algorithm v2"
                               10 (3 # 10))]
           (start 0 0)).
  - unfold Dict.wf. cbn. repeat constructor. cbn. tauto.
  - repeat constructor; cbn; discriminate.
Defined.

(** ** X3: what [generate_improvements] returns *)

Lemma generate_candidates_ok (rs : RandomSource)
  (analysis : Dict.t Analysis.t) (w : World) :
  exists improvements w',
    generate_improvements rs analysis w = Ok improvements w' /\
    Forall (candidate_ok (self w)) improvements.
Proof.
  unfold generate_improvements.
  destruct (for_fold_rule
    (fun (_ : list (string * Analysis.t)) acc w' =>
       self w' = self w /\ Forall (candidate_ok (self w)) acc)
    (Dict.items analysis)
    (fun improvements '(metric, data) =>
       if Qgtb (Analysis.priority data) (3 # 10) then
         improvement_type <- _select_improvement_type rs metric ;;
         improvement_code <- _generate_improvement_code metric improvement_type ;;
         expected_gain <- uniform rs 2 12 ;;
         risk_level <- uniform rs (1 # 10) (8 # 10) ;;
         ret (Dict.set improvements metric
                (Improvement.mk improvement_type improvement_code
                                expected_gain risk_level))
       else ret improvements))
    with (acc := @Dict.empty Improvement.t) (w := w)
    as (imps & w' & Hrun & _ & Hall).
  - intros pre [m data] post acc w1 _ [Hself Hall].
    destruct (Qgtb (Analysis.priority data) (3 # 10)).
    + destruct (select_spec rs m w1) as (ty & Hty & Hsel).
      unfold bind. rewrite Hsel.
      unfold _generate_improvement_code, bind, get_self.
      unfold uniform, bind, random, ret. cbn [self rng_calls clock_calls].
      eexists _, _. split; [reflexivity|]. cbn [self].
      split; [assumption|].
      apply DictFacts.Forall_set; [assumption|].
      unfold candidate_ok. cbn [fst snd Improvement.type Improvement.code
                                Improvement.expected_gain Improvement.risk_level].
      split; [exact Hty|]. split; [now rewrite Hself|].
      pose proof (random_range rs (S (rng_calls w1))) as [? ?].
      pose proof (random_range rs (S (S (rng_calls w1)))) as [? ?].
      split; apply uniform_range; lra.
    + unfold ret. eexists _, _. split; [reflexivity|]. auto.
  - split; [reflexivity | constructor].
  - exists imps, w'. auto.
Qed.

(** X3: on an analysis, [generate_improvements] returns one candidate per
    metric with priority above 0.3, in the order of the analysis, after
    three calls to the random source each and without touching [self] or
    the clock.  A candidate's type is one of its metric's list (or the
    generic one), its code is the text of that type for the coming
    generation, its expected gain lies in [[2, 12]] and its risk level in
    [[0.1, 0.8]]. *)
Theorem generate_improvements_candidates
  (rs : RandomSource) (analysis : Dict.t Analysis.t) (w : World) :
  Dict.wf analysis ->
  exists improvements,
    generate_improvements rs analysis w
    = Ok improvements
         (mkWorld (self w) (rng_calls w + 3 * length improvements)
                  (clock_calls w)) /\
    Dict.keys improvements = Dict.keys (filter selected analysis) /\
    Forall (candidate_ok (self w)) improvements.
Proof.
  intros Hwf.
  destruct (generate_spec rs analysis w)
    as (imps & w' & Hgen & Hs & Hc & _ & _ & _ & Hpos).
  destruct (Hpos Hwf) as [Hkeys Hr].
  destruct (generate_candidates_ok rs analysis w) as (imps' & w'' & Hgen' & Hok).
  rewrite Hgen in Hgen'. injection Hgen' as <- <-.
  exists imps. split; [|split; assumption].
  rewrite Hgen. f_equal. destruct w' as [s' r' c']. cbn in *. now subst.
Qed.

Lemma generate_improvements_candidates_witness :
  exists improvements,
    generate_improvements half_source
      [("code_quality", Analysis.mk 40 60 (6 # 10));
       ("learning_speed", Analysis.mk 75 25 (25 # 100))]
      (start 0 0)
    = Ok improvements
         (mkWorld (self (start 0 0)) (0 + 3 * length improvements) 0) /\
    Dict.keys improvements
    = Dict.keys (filter selected
                   [("code_quality", Analysis.mk 40 60 (6 # 10));
                    ("learning_speed", Analysis.mk 75 25 (25 # 100))]) /\
    Forall (candidate_ok (self (start 0 0))) improvements.
Proof.
  apply (generate_improvements_candidates half_source
           [("code_quality", Analysis.mk 40 60 (6 # 10));
            ("learning_speed", Analysis.mk 75 25 (25 # 100))]
           (start 0 0)).
  unfold Dict.wf. cbn.
  repeat (constructor; [cbn; intuition discriminate|]). constructor.
Defined.

(** ** One cycle on a well-formed state *)

Lemma selected_entry (mv : string * Q) :
  selected (analysis_entry mv) = below_threshold mv.
Proof.
  unfold selected, analysis_entry, below_threshold, Qgtb.
  cbn [snd Analysis.priority].
  assert (E : (100 - snd mv) / 100 == (100 - snd mv) * (1 # 100))
    by reflexivity.
  destruct (Qltb (3 # 10) ((100 - snd mv) / 100)) eqn:E1,
           (Qltb (snd mv) 70) eqn:E2; try reflexivity.
  - apply Qltb_true in E1. apply Qltb_false in E2. rewrite E in E1. lra.
  - apply Qltb_false in E1. apply Qltb_true in E2. rewrite E in E1. lra.
Qed.

Lemma filter_map_comm {A B : Type} (f : B -> bool) (g : A -> B) (l : list A) :
  filter f (map g l) = map g (filter (fun x => f (g x)) l).
Proof.
  induction l as [|x l IH]; cbn; [reflexivity|].
  destruct (f (g x)); cbn; now rewrite IH.
Qed.

Lemma selected_keys (pm : Dict.t Q) :
  Dict.keys (filter selected (map analysis_entry pm))
  = Dict.keys (filter below_threshold pm).
Proof.
  rewrite filter_map_comm. unfold Dict.keys. rewrite map_map. cbn [fst analysis_entry].
  rewrite (filter_ext _ below_threshold) by (intros; apply selected_entry).
  reflexivity.
Qed.

Lemma delta_from_exact (baseline d : Dict.t Q) (w : World) :
  Dict.wf d ->
  incl (Dict.keys d) (Dict.keys baseline) ->
  delta_from baseline d w = Ok (deltas baseline d) w.
Proof.
  intros Hwf Hincl. unfold delta_from.
  destruct (for_fold_rule
    (fun pre acc w' =>
       w' = w /\ (Dict.wf pre -> acc = deltas baseline pre))
    (Dict.items d)
    (fun acc '(metric, current) =>
       b <- getitem baseline metric ;;
       ret (Dict.set acc metric (current - b))))
    with (acc := @Dict.empty Q) (w := w) as (total & w' & Hrun & -> & H).
  - intros pre [m v] post acc w1 Hl (-> & Hacc).
    unfold Dict.items in Hl.
    destruct (DictFacts.in_keys_get baseline m) as [b Hb].
    { apply Hincl. rewrite Hl. unfold Dict.keys. rewrite map_app.
      apply in_or_app. right. now left. }
    unfold bind, getitem. rewrite Hb. unfold ret.
    eexists _, _. split; [reflexivity|]. split; [reflexivity|].
    intros Hwfp. rewrite (Hacc (DictFacts.wf_app_l _ _ Hwfp)).
    rewrite DictFacts.set_fresh.
    + unfold deltas. rewrite map_app. cbn [map fst snd].
      unfold Dict.get_default. now rewrite Hb.
    + unfold deltas, Dict.keys. rewrite map_map. cbn [fst].
      now apply DictFacts.wf_app_fresh in Hwfp.
  - split; [reflexivity|]. reflexivity.
  - rewrite Hrun. f_equal. now apply H.
Qed.

Lemma keys_length {V U : Type} (d : Dict.t V) (d' : Dict.t U) :
  Dict.keys d = Dict.keys d' -> length d = length d'.
Proof.
  intros H. apply (f_equal (@length string)) in H. unfold Dict.keys in H.
  now rewrite !length_map in H.
Qed.

(** One cycle from metrics that form a dict and all have a baseline, with
    its candidates, its test results and the summary it returns. *)
Lemma evolve_cycle (rs : RandomSource) (now_at : nat -> string) (w : World) :
  Dict.wf (performance_metrics (self w)) ->
  has_baselines (self w) ->
  exists improvements test_results w2 w3,
    self w2 = self w /\
    rng_calls w2 = (rng_calls w + 9 * length test_results)%nat /\
    clock_calls w2 = clock_calls w /\
    Dict.wf test_results /\
    Dict.keys test_results
    = Dict.keys (filter below_threshold (performance_metrics (self w))) /\
    incl (Dict.keys test_results) (Dict.keys (performance_metrics (self w))) /\
    Dict.keys improvements = Dict.keys test_results /\
    Forall (candidate_ok (self w)) improvements /\
    Forall (fun mr => result_ok (snd mr)) test_results /\
    apply_improvements now_at test_results w2 = Ok tt w3 /\
    evolve_generation rs now_at w
    = Ok (Summary.mk (generation (self w))
            (map analysis_entry (performance_metrics (self w)))
            (length test_results)
            (length (filter successful test_results))
            (performance_metrics (self w3))
            (deltas (baseline_performance (self w))
                    (performance_metrics (self w3))))
         (next_generation w3).
Proof.
  intros Hwf Hbase.
  destruct (evolve_steps rs now_at w Hbase)
    as (analysis & imps & w1 & res & w2 & w3 & total
        & Han & Hgen & Htest & Happ & Hdelta & Hev & Hs2 & Hwfr & Hincl).
  destruct (analyze_spec w) as (analysis' & Han' & Hwfa & _ & _ & Hmap).
  rewrite Han in Han'. injection Han' as <-. specialize (Hmap Hwf).
  destruct (generate_spec rs analysis w)
    as (imps' & w1' & Hgen' & Hs1 & Hc1 & Hwfi & _ & Hrange & Hpos).
  rewrite Hgen in Hgen'. injection Hgen' as <- <-.
  destruct (Hpos Hwfa) as [Hki Hr1].
  destruct (generate_candidates_ok rs analysis w) as (imps' & w1' & Hgen' & Hcand).
  rewrite Hgen in Hgen'. injection Hgen' as <- _.
  destruct (test_spec rs imps w1)
    as (res' & w2' & Htest' & Hs2' & Hc2 & _ & _ & _ & Hout).
  rewrite Htest in Htest'. injection Htest' as <- <-.
  destruct (Hout Hwfi) as [Hres Hr2].
  assert (Hkr : Dict.keys res = Dict.keys imps)
    by (rewrite Hres; apply test_outcomes_keys).
  assert (Hok : Forall (fun mr => result_ok (snd mr)) res)
    by (rewrite Hres; now apply test_outcomes_ok).
  destruct (apply_loop_spec now_at res w2 Hwfr)
    as (w3' & recs & Happ' & _ & Hg3 & Hb3 & _ & _ & _ & _ & _ & Hk3 & _).
  { now rewrite Hs2. }
  rewrite Happ in Happ'. injection Happ' as <-.
  assert (Hlen : length imps = length res) by (symmetry; now apply keys_length).
  exists imps, res, w2, w3.
  split; [assumption|]. split; [rewrite Hr2, Hr1, Hlen; lia|].
  split; [congruence|]. split; [assumption|].
  split; [now rewrite Hkr, Hki, Hmap, selected_keys|].
  split; [assumption|]. split; [now symmetry|].
  split; [assumption|]. split; [assumption|]. split; [exact Happ|].
  rewrite Hev. f_equal.
  rewrite (delta_from_exact _ _ (next_generation w3)) in Hdelta.
  - injection Hdelta as <-.
    rewrite Hg3, Hb3, Hs2, Hmap, Hlen, successful_values.
    f_equal. lia.
  - apply (DictFacts.wf_keys (performance_metrics (self w))); [|assumption].
    now rewrite Hk3, Hs2.
  - rewrite Hk3, Hb3, Hs2. exact Hbase.
Qed.

(** ** X4: the summary and the calls of one cycle *)

(** X4: from metrics that form a dict and all have a baseline,
    [evolve_generation] returns.  It attempts one improvement per metric
    below 70, never more successes than attempts; it makes nine calls to
    the random source per attempt and reads the clock once per success; the
    history grows by the number of successes and the generation counter by
    one.  The summary carries the generation it started in, the analysis
    of the metrics as they were, a snapshot of the metrics as they are and
    their differences to the baseline. *)
Theorem evolve_generation_accounting
  (rs : RandomSource) (now_at : nat -> string) (w : World) :
  Dict.wf (performance_metrics (self w)) ->
  has_baselines (self w) ->
  exists sm w',
    evolve_generation rs now_at w = Ok sm w' /\
    Summary.improvements_attempted sm
    = length (filter below_threshold (performance_metrics (self w))) /\
    (Summary.improvements_successful sm
     <= Summary.improvements_attempted sm)%nat /\
    rng_calls w'
    = (rng_calls w + 9 * Summary.improvements_attempted sm)%nat /\
    clock_calls w'
    = (clock_calls w + Summary.improvements_successful sm)%nat /\
    length (improvement_history (self w'))
    = (length (improvement_history (self w))
       + Summary.improvements_successful sm)%nat /\
    generation (self w') = (generation (self w) + 1)%Z /\
    Summary.generation sm = generation (self w) /\
    Summary.analysis sm = map analysis_entry (performance_metrics (self w)) /\
    Summary.performance_metrics sm = performance_metrics (self w') /\
    Summary.total_improvement_from_baseline sm
    = deltas (baseline_performance (self w')) (performance_metrics (self w')) /\
    Dict.keys (performance_metrics (self w'))
    = Dict.keys (performance_metrics (self w)).
Proof.
  intros Hwf Hbase.
  destruct (evolve_cycle rs now_at w Hwf Hbase)
    as (imps & res & w2 & w3 & Hs2 & Hr2 & Hc2 & Hwfr & Hkr & Hincl & _ & _
        & _ & Happ & Hev).
  destruct (apply_loop_spec now_at res w2 Hwfr)
    as (w3' & recs & Happ' & Hr3 & Hg3 & Hb3 & _ & Hc3 & Hhist & Hrecs & _
        & Hk3 & _).
  { now rewrite Hs2. }
  rewrite Happ in Happ'. injection Happ' as <-.
  pose proof (Forall2_length Hrecs) as Hlen.
  eexists _, _. split; [exact Hev|].
  cbn [Summary.improvements_attempted Summary.improvements_successful
       Summary.generation Summary.analysis Summary.performance_metrics
       Summary.total_improvement_from_baseline next_generation self
       rng_calls clock_calls with_generation generation performance_metrics
       improvement_history baseline_performance].
  split; [now apply keys_length|].
  split; [apply filter_length_le|].
  split; [congruence|]. split; [rewrite Hc3, Hc2; lia|].
  split; [rewrite Hhist, length_app, Hs2; lia|].
  split; [now rewrite Hg3, Hs2|]. split; [reflexivity|]. split; [reflexivity|].
  split; [reflexivity|]. split; [now rewrite Hb3, Hs2|]. now rewrite Hk3, Hs2.
Qed.

Lemma evolve_generation_accounting_witness :
  exists sm w',
    evolve_generation half_source still_clock (start 0 0) = Ok sm w' /\
    Summary.improvements_attempted sm = 5%nat /\
    (Summary.improvements_successful sm
     <= Summary.improvements_attempted sm)%nat /\
    rng_calls w' = (0 + 9 * Summary.improvements_attempted sm)%nat /\
    clock_calls w' = (0 + Summary.improvements_successful sm)%nat /\
    length (improvement_history (self w'))
    = (0 + Summary.improvements_successful sm)%nat /\
    generation (self w') = 2%Z /\
    Summary.generation sm = 1%Z /\
    Summary.analysis sm = map analysis_entry initial_metrics /\
    Summary.performance_metrics sm = performance_metrics (self w') /\
    Summary.total_improvement_from_baseline sm
    = deltas (baseline_performance (self w')) (performance_metrics (self w')) /\
    Dict.keys (performance_metrics (self w')) = Dict.keys initial_metrics.
Proof.
  apply (evolve_generation_accounting half_source still_clock (start 0 0)).
  - unfold Dict.wf. cbn.
    repeat (constructor; [cbn; intuition discriminate|]). constructor.
  - intros m Hm. exact Hm.
Defined.

(** ** X5, X6: which metrics a cycle changes *)

Lemma py_min_le_r (a b : Q) : py_min a b <= b.
Proof.
  unfold py_min. destruct (Qltb b a) eqn:E; [lra|].
  apply Qltb_false in E. exact E.
Qed.

Lemma below_threshold_get (pm : Dict.t Q) (m : string) :
  Dict.wf pm ->
  In m (Dict.keys (filter below_threshold pm)) ->
  exists v, Dict.get pm m = Some v /\ v < 70.
Proof.
  intros Hwf Hin. unfold Dict.keys in Hin. apply in_map_iff in Hin.
  destruct Hin as ([m' v] & <- & Hin). apply filter_In in Hin.
  destruct Hin as [Hin Hlt]. exists v.
  split; [now apply DictFacts.wf_in_get | now apply Qltb_true in Hlt].
Qed.

(** One cycle, with the results it applies and the records it writes. *)
Lemma evolve_cycle_applied (rs : RandomSource) (now_at : nat -> string)
  (w : World) :
  Dict.wf (performance_metrics (self w)) ->
  has_baselines (self w) ->
  exists sm w' test_results recs,
    evolve_generation rs now_at w = Ok sm w' /\
    Dict.wf test_results /\
    Dict.keys test_results
    = Dict.keys (filter below_threshold (performance_metrics (self w))) /\
    Forall (fun mr => result_ok (snd mr)) test_results /\
    improvement_history (self w')
    = (improvement_history (self w) ++ recs)%list /\
    Forall2 (is_record_of (generation (self w)) (performance_metrics (self w)))
            (filter successful test_results) recs /\
    Dict.keys (performance_metrics (self w'))
    = Dict.keys (performance_metrics (self w)) /\
    (forall m, Dict.get (performance_metrics (self w')) m
               = applied_value test_results (performance_metrics (self w)) m) /\
    baseline_performance (self w') = baseline_performance (self w) /\
    generation (self w') = (generation (self w) + 1)%Z /\
    Summary.generation sm = generation (self w) /\
    Summary.improvements_successful sm = length recs.
Proof.
  intros Hwf Hbase.
  destruct (evolve_cycle rs now_at w Hwf Hbase)
    as (imps & res & w2 & w3 & Hs2 & _ & _ & Hwfr & Hkr & Hincl & _ & _
        & Hok & Happ & Hev).
  destruct (apply_loop_spec now_at res w2 Hwfr)
    as (w3' & recs & Happ' & _ & Hg3 & Hb3 & _ & _ & Hhist & Hrecs & _
        & Hk3 & Hget).
  { now rewrite Hs2. }
  rewrite Happ in Happ'. injection Happ' as <-. rewrite Hs2 in *.
  eexists _, _, res, recs. split; [exact Hev|].
  cbn [next_generation self with_generation generation performance_metrics
       improvement_history baseline_performance Summary.generation
       Summary.improvements_successful].
  do 7 (split; [assumption|]). split; [assumption|].
  split; [now rewrite Hg3|]. split; [reflexivity|].
  eapply Forall2_length; eassumption.
Qed.

(** The records of a cycle are all fine. *)
Lemma cycle_records_fine (g : Z) (pm : Dict.t Q)
  (test_results : Dict.t TestResult.t) (recs : list ImprovementRecord.t) :
  Dict.wf pm ->
  Dict.keys test_results = Dict.keys (filter below_threshold pm) ->
  Forall (fun mr => result_ok (snd mr)) test_results ->
  Forall2 (is_record_of g pm) (filter successful test_results) recs ->
  Forall record_fine recs.
Proof.
  intros Hwf Hkeys Hok Hrecs. apply Forall_forall. intros rec Hin.
  destruct (Forall2_in_r _ _ _ _ Hrecs Hin) as ([m r] & Hmr & old & Hold & ->).
  apply filter_In in Hmr. destruct Hmr as [Hmr Hsucc].
  unfold successful in Hsucc. cbn [fst snd] in *.
  rewrite Forall_forall in Hok.
  destruct (Hok _ Hmr) as ([_ Hhi] & Hs & _). cbn [snd] in *.
  destruct (Hs Hsucc) as [_ Hone].
  destruct (below_threshold_get pm m Hwf) as (v & Hv & Hlt).
  { rewrite <- Hkeys. now apply (in_map fst) in Hmr. }
  rewrite Hold in Hv. injection Hv as <-.
  unfold record_fine.
  cbn [ImprovementRecord.old_value ImprovementRecord.new_value
       ImprovementRecord.improvement].
  split; [assumption|]. split; [split; assumption|].
  apply py_min_unclamped. lra.
Qed.

(** X5: in a cycle from metrics that form a dict and all have a baseline,
    a metric at 70 or above keeps its score, and every record written has
    an old value below 70, a delta field in [[1, 14.4]] and a new value
    equal to old plus delta: the clamp at 100 is not reached, and the
    metric holds the record's new value afterwards. *)
Theorem evolve_generation_changes
  (rs : RandomSource) (now_at : nat -> string) (w : World) :
  Dict.wf (performance_metrics (self w)) ->
  has_baselines (self w) ->
  exists sm w' recs,
    evolve_generation rs now_at w = Ok sm w' /\
    improvement_history (self w')
    = (improvement_history (self w) ++ recs)%list /\
    (forall m v, Dict.get (performance_metrics (self w)) m = Some v ->
                 70 <= v ->
                 Dict.get (performance_metrics (self w')) m = Some v) /\
    Forall (fun rec =>
              record_fine rec /\
              Dict.get (performance_metrics (self w))
                       (ImprovementRecord.metric rec)
              = Some (ImprovementRecord.old_value rec) /\
              Dict.get (performance_metrics (self w'))
                       (ImprovementRecord.metric rec)
              = Some (ImprovementRecord.new_value rec))
           recs.
Proof.
  intros Hwf Hbase.
  destruct (evolve_cycle_applied rs now_at w Hwf Hbase)
    as (sm & w' & res & recs & Hev & Hwfr & Hkr & Hok & Hhist & Hrecs & _
        & Hget & _).
  exists sm, w', recs. split; [assumption|]. split; [assumption|]. split.
  - intros m v Hv Hge. rewrite Hget. unfold applied_value.
    destruct (Dict.get res m) as [r|] eqn:Hr; [|assumption].
    apply DictFacts.get_in_keys in Hr. rewrite Hkr in Hr.
    destruct (below_threshold_get _ m Hwf Hr) as (v' & Hv' & Hlt).
    rewrite Hv in Hv'. injection Hv' as <-. lra.
  - pose proof (cycle_records_fine _ _ _ _ Hwf Hkr Hok Hrecs) as Hfine.
    rewrite Forall_forall in Hfine |- *. intros rec Hin.
    split; [now apply Hfine|].
    destruct (Forall2_in_r _ _ _ _ Hrecs Hin) as ([m r] & Hmr & old & Hold & ->).
    apply filter_In in Hmr. destruct Hmr as [Hmr Hsucc].
    unfold successful in Hsucc. cbn [fst snd] in *.
    cbn [ImprovementRecord.metric ImprovementRecord.old_value
         ImprovementRecord.new_value].
    split; [assumption|]. rewrite Hget. unfold applied_value.
    rewrite (DictFacts.wf_in_get _ _ _ Hwfr Hmr), Hsucc, Hold. reflexivity.
Qed.

Lemma evolve_generation_changes_witness :
  exists sm w' recs,
    evolve_generation half_source still_clock
      (mkWorld (engine_with (Dict.set initial_metrics "code_quality" 72) 4) 0 0)
    = Ok sm w' /\
    improvement_history (self w') = ([] ++ recs)%list /\
    (forall m v,
        Dict.get (Dict.set initial_metrics "code_quality" 72) m = Some v ->
        70 <= v ->
        Dict.get (performance_metrics (self w')) m = Some v) /\
    Forall (fun rec =>
              record_fine rec /\
              Dict.get (Dict.set initial_metrics "code_quality" 72)
                       (ImprovementRecord.metric rec)
              = Some (ImprovementRecord.old_value rec) /\
              Dict.get (performance_metrics (self w'))
                       (ImprovementRecord.metric rec)
              = Some (ImprovementRecord.new_value rec))
           recs.
Proof.
  apply (evolve_generation_changes half_source still_clock
           (mkWorld (engine_with (Dict.set initial_metrics "code_quality" 72) 4)
                    0 0)).
  - unfold Dict.wf. cbn.
    repeat (constructor; [cbn; intuition discriminate|]). constructor.
  - intros m Hm. exact Hm.
Defined.

Lemma filter_none_below (pm : Dict.t Q) :
  Forall (fun mv => 70 <= snd mv) pm -> filter below_threshold pm = [].
Proof.
  intros H. apply filter_none. eapply Forall_impl; [|exact H].
  intros mv Hge. now apply Qltb_false.
Qed.

(** X6: once every metric is at 70 or above, a cycle proposes nothing: it
    makes no call to the random source, reads no clock, leaves the metrics
    and the history as they are and only increments the generation
    counter. *)
Theorem evolve_generation_saturated
  (rs : RandomSource) (now_at : nat -> string) (w : World) :
  Dict.wf (performance_metrics (self w)) ->
  has_baselines (self w) ->
  Forall (fun mv => 70 <= snd mv) (performance_metrics (self w)) ->
  exists sm,
    evolve_generation rs now_at w = Ok sm (next_generation w) /\
    Summary.improvements_attempted sm = 0%nat /\
    Summary.improvements_successful sm = 0%nat /\
    Summary.performance_metrics sm = performance_metrics (self w).
Proof.
  intros Hwf Hbase Hsat.
  destruct (evolve_cycle rs now_at w Hwf Hbase)
    as (imps & res & w2 & w3 & Hs2 & Hr2 & Hc2 & _ & Hkr & _ & _ & _
        & _ & Happ & Hev).
  rewrite (filter_none_below _ Hsat) in Hkr.
  destruct res as [|x res]; [|discriminate Hkr].
  rewrite apply_nil in Happ. injection Happ as <-.
  assert (Hw : w2 = w).
  { destruct w2 as [s2 r2 c2], w as [s r c]. cbn in *. subst. f_equal. lia. }
  subst w2. eexists. split; [exact Hev|]. repeat split.
Qed.

Lemma evolve_generation_saturated_witness :
  exists sm,
    evolve_generation half_source still_clock
      (mkWorld (engine_with [("code_quality", 70); ("learning_speed", 81)] 9)
               0 0)
    = Ok sm (next_generation
               (mkWorld (engine_with
                           [("code_quality", 70); ("learning_speed", 81)] 9)
                        0 0)) /\
    Summary.improvements_attempted sm = 0%nat /\
    Summary.improvements_successful sm = 0%nat /\
    Summary.performance_metrics sm
    = [("code_quality", 70); ("learning_speed", 81)].
Proof.
  apply (evolve_generation_saturated half_source still_clock
           (mkWorld (engine_with [("code_quality", 70); ("learning_speed", 81)] 9)
                    0 0)).
  - unfold Dict.wf. cbn.
    repeat (constructor; [cbn; intuition discriminate|]). constructor.
  - cbn. intros m [<-|[<-|[]]]; cbn; tauto.
  - repeat constructor; cbn; discriminate.
Defined.

(** ** Runs of cycles *)

Lemma cycles_invariant (rs : RandomSource) (now_at : nat -> string)
  (P : World -> Prop) :
  (forall w sm w1,
      Inv (self w) -> P w -> evolve_generation rs now_at w = Ok sm w1 -> P w1) ->
  forall w sums w', cycles rs now_at w sums w' -> P w -> P w'.
Proof.
  intros Hstep w sums w' Hcyc.
  induction Hcyc as [w|w sm w1 sums w' HI Hev _ IH]; intros HP.
  - assumption.
  - apply IH. eapply Hstep; eassumption.
Qed.

Lemma chained_app (d : Dict.t Q) (h1 h2 : list ImprovementRecord.t) :
  chained d (h1 ++ h2) <-> chained d h1 /\ chained (replay h1 d) h2.
Proof.
  revert d. induction h1 as [|rec h1 IH]; intros d; cbn.
  - tauto.
  - rewrite IH. tauto.
Qed.

Lemma replay_app (d : Dict.t Q) (h1 h2 : list ImprovementRecord.t) :
  replay (h1 ++ h2) d = replay h2 (replay h1 d).
Proof. unfold replay. apply fold_left_app. Qed.

(** What [apply_improvements] writes is a chain from the metrics it found
    to the metrics it leaves. *)
Lemma apply_replay (now_at : nat -> string)
  (test_results : Dict.t TestResult.t) (w w' : World) :
  apply_improvements now_at test_results w = Ok tt w' ->
  exists recs,
    improvement_history (self w')
    = (improvement_history (self w) ++ recs)%list /\
    chained (performance_metrics (self w)) recs /\
    replay recs (performance_metrics (self w)) = performance_metrics (self w').
Proof.
  revert w. induction test_results as [|[m r] rest IH]; intros w Happ.
  - rewrite apply_nil in Happ. injection Happ as <-.
    exists []. rewrite app_nil_r. repeat split.
  - rewrite apply_cons in Happ. destruct (TestResult.success r).
    + destruct (Dict.get (performance_metrics (self w)) m) as [old|] eqn:Hold;
        [|discriminate].
      destruct (IH _ Happ) as (recs & Hhist & Hch & Hrep).
      cbn [applied_once self improvement_history performance_metrics
           with_improvement_history with_performance_metrics] in Hhist, Hch, Hrep.
      eexists (_ :: recs). split; [|split].
      * rewrite Hhist, <- app_assoc. reflexivity.
      * cbn [chained ImprovementRecord.metric ImprovementRecord.old_value
             ImprovementRecord.new_value]. split; assumption.
      * exact Hrep.
    + apply IH. exact Happ.
Qed.

(** ** X7: the history replays to the current metrics *)

(** X7: after any number of cycles run from construction, the history is a
    chain over the baseline: each record's old value is the score its
    metric had once the records before it were written, and writing the new
    values of all records, in order, into the baseline gives the current
    metrics. *)
Theorem history_replays_to_current_metrics
  (rs : RandomSource) (now_at : nat -> string) (num_cycles rng clock : nat) :
  exists sums w',
    run_evolution_cycles rs now_at num_cycles (start rng clock) = Ok sums w' /\
    chained (baseline_performance (self w')) (improvement_history (self w')) /\
    replay (improvement_history (self w')) (baseline_performance (self w'))
    = performance_metrics (self w').
Proof.
  destruct (run_cycles rs now_at num_cycles (start rng clock) Inv_init)
    as (sums & w' & Hrun & Hcyc & _ & _).
  exists sums, w'. split; [assumption|].
  refine (cycles_invariant rs now_at
            (fun w => chained (baseline_performance (self w))
                              (improvement_history (self w)) /\
                      replay (improvement_history (self w))
                             (baseline_performance (self w))
                      = performance_metrics (self w))
            _ _ _ _ Hcyc _); [|split; reflexivity].
  intros w sm w1 HI [Hch Hrep] Hev.
  destruct (evolve_cycle rs now_at w (proj1 HI) (Inv_has_baselines _ HI))
    as (imps & res & w2 & w3 & Hs2 & _ & _ & _ & _ & _ & _ & _ & _ & Happ & Hev').
  rewrite Hev in Hev'. injection Hev' as _ ->.
  destruct (apply_replay _ _ _ _ Happ) as (recs & Hhist & Hch' & Hrep').
  pose proof (apply_same_baseline now_at res w2) as Hb.
  rewrite Happ in Hb. unfold same_baseline in Hb. cbn [final] in Hb.
  rewrite Hs2 in *.
  cbn [next_generation self with_generation baseline_performance
       improvement_history performance_metrics].
  rewrite Hb, Hhist. split.
  - apply chained_app. split; [assumption|]. now rewrite Hrep.
  - now rewrite replay_app, Hrep.
Qed.

(** ** X8: the clamp is never reached in a run *)

(** X8: after any number of cycles run from construction, every score is
    below 84.4, and every record of the history has an old value below 70,
    a delta field in [[1, 14.4]] and a new value equal to old plus delta:
    [min(100, old + gain)] never returns 100 there. *)
Theorem scores_stay_below_clamp
  (rs : RandomSource) (now_at : nat -> string) (num_cycles rng clock : nat) :
  exists sums w',
    run_evolution_cycles rs now_at num_cycles (start rng clock) = Ok sums w' /\
    Forall (fun mv => snd mv < (844 # 10)) (performance_metrics (self w')) /\
    Forall record_fine (improvement_history (self w')).
Proof.
  destruct (run_cycles rs now_at num_cycles (start rng clock) Inv_init)
    as (sums & w' & Hrun & Hcyc & _ & _).
  exists sums, w'. split; [assumption|].
  refine (cycles_invariant rs now_at
            (fun w => Forall (fun mv => snd mv < (844 # 10))
                             (performance_metrics (self w)) /\
                      Forall record_fine (improvement_history (self w)))
            _ _ _ _ Hcyc _).
  - intros w sm w1 HI [Hlt Hfine] Hev.
    pose proof (proj1 HI) as Hwf.
    destruct (evolve_cycle_applied rs now_at w Hwf (Inv_has_baselines _ HI))
      as (sm' & w1' & res & recs & Hev' & Hwfr & Hkr & Hok & Hhist & Hrecs
          & Hk & Hget & _).
    rewrite Hev in Hev'. injection Hev' as <- <-. split.
    + apply Forall_forall. intros [m v'] Hin.
      assert (Hwf1 : Dict.wf (performance_metrics (self w1)))
        by (eapply DictFacts.wf_keys; eassumption).
      apply (DictFacts.wf_in_get _ _ _ Hwf1) in Hin. rewrite Hget in Hin.
      unfold applied_value in Hin. rewrite Forall_forall in Hlt.
      cbn [snd].
      destruct (Dict.get res m) as [r|] eqn:Hr.
      * pose proof (DictFacts.get_in _ _ _ Hr) as Hinr.
        rewrite Forall_forall in Hok.
        destruct (Hok _ Hinr) as ([_ Hhi] & _). cbn [snd] in Hhi.
        destruct (TestResult.success r).
        -- destruct (Dict.get (performance_metrics (self w)) m) as [old|]
             eqn:Hold; [|discriminate].
           cbn in Hin. injection Hin as <-.
           destruct (below_threshold_get _ m Hwf) as (v & Hv & Hv70).
           { rewrite <- Hkr. eapply DictFacts.get_in_keys; eassumption. }
           rewrite Hold in Hv. injection Hv as <-.
           pose proof (py_min_le_r 100 (old + TestResult.performance_gain r)).
           lra.
        -- apply DictFacts.get_in in Hin. exact (Hlt _ Hin).
      * apply DictFacts.get_in in Hin. exact (Hlt _ Hin).
    + rewrite Hhist. apply Forall_app. split; [assumption|].
      eapply cycle_records_fine; eassumption.
  - split; [|constructor]. cbn.
    repeat (constructor; [cbn; reflexivity|]). constructor.
Qed.

(** ** X9: how many improvements there can be *)

Lemma Qnat_S (n : nat) : Qnat (S n) == Qnat n + 1.
Proof.
  unfold Qnat. rewrite Nat2Z.inj_succ. unfold Z.succ.
  rewrite inject_Z_plus. reflexivity.
Qed.

Lemma Qnat_lt (n k : nat) : Qnat n < Qnat k -> (n < k)%nat.
Proof.
  unfold Qnat. rewrite <- Zlt_Qlt. lia.
Qed.

Lemma records_of_metric_app (m : string) (h1 h2 : list ImprovementRecord.t) :
  records_of_metric m (h1 ++ h2)
  = (records_of_metric m h1 + records_of_metric m h2)%nat.
Proof.
  unfold records_of_metric. now rewrite filter_app, length_app.
Qed.

Lemma records_of_metric_cons (m : string) (rec : ImprovementRecord.t)
  (h : list ImprovementRecord.t) :
  records_of_metric m (rec :: h)
  = ((if String.eqb (ImprovementRecord.metric rec) m then 1 else 0)
     + records_of_metric m h)%nat.
Proof.
  unfold records_of_metric. cbn [filter].
  destruct (String.eqb (ImprovementRecord.metric rec) m); reflexivity.
Qed.

(** The records of a cycle per metric: one when the metric's result
    succeeded, none otherwise. *)
Lemma records_of_metric_cycle (g : Z) (pm : Dict.t Q)
  (test_results : Dict.t TestResult.t) (recs : list ImprovementRecord.t)
  (m : string) :
  Dict.wf test_results ->
  Forall2 (is_record_of g pm) (filter successful test_results) recs ->
  records_of_metric m recs
  = match Dict.get test_results m with
    | Some r => if TestResult.success r then 1%nat else 0%nat
    | None => 0%nat
    end.
Proof.
  revert recs. induction test_results as [|[m0 r0] rest IH]; intros recs Hwf Hrecs.
  - cbn in Hrecs. inversion Hrecs. reflexivity.
  - assert (Hwf' : Dict.wf rest) by (unfold Dict.wf in *; now inversion Hwf).
    assert (Hfresh : Dict.get rest m0 = None).
    { apply DictFacts.get_none. unfold Dict.wf in Hwf. now inversion Hwf. }
    cbn [filter Dict.get] in *. unfold successful at 1 in Hrecs. cbn [snd] in Hrecs.
    destruct (TestResult.success r0) eqn:Hs.
    + inversion Hrecs as [|x rec l recs' Hrec Hrest]; subst.
      destruct Hrec as (old & _ & Hrec). cbn [fst snd] in Hrec.
      assert (Hm : ImprovementRecord.metric rec = m0) by now rewrite Hrec.
      rewrite records_of_metric_cons, Hm, (IH recs' Hwf' Hrest). clear Hm Hrec.
      rewrite (String.eqb_sym m m0).
      destruct (String.eqb m0 m) eqn:E.
      * apply String.eqb_eq in E. subst m0. rewrite Hfresh, Hs. reflexivity.
      * reflexivity.
    + rewrite (IH recs Hwf' Hrecs).
      destruct (String.eqb m m0) eqn:E; [|reflexivity].
      apply String.eqb_eq in E. subst m0. now rewrite Hfresh, Hs.
Qed.

Lemma list_sum_map_add {A : Type} (f g : A -> nat) (l : list A) :
  list_sum (map (fun x => (f x + g x)%nat) l)
  = (list_sum (map f l) + list_sum (map g l))%nat.
Proof.
  unfold list_sum. induction l as [|x l IH]; cbn; [reflexivity|].
  rewrite IH. lia.
Qed.

Lemma list_sum_indicator (k : string) (ks : list string) :
  NoDup ks -> In k ks ->
  list_sum (map (fun m => if String.eqb k m then 1%nat else 0%nat) ks) = 1%nat.
Proof.
  induction 1 as [|x ks Hx Hnd IH]; cbn; [tauto|].
  intros [->|Hin].
  - rewrite String.eqb_refl. f_equal.
    clear IH Hnd. induction ks as [|y ks IH]; cbn; [reflexivity|].
    destruct (String.eqb k y) eqn:E.
    + apply String.eqb_eq in E. subst. cbn in Hx. tauto.
    + apply IH. cbn in Hx. tauto.
  - destruct (String.eqb k x) eqn:E.
    + apply String.eqb_eq in E. subst. contradiction.
    + now apply IH.
Qed.

Lemma length_by_metric (ks : list string) (h : list ImprovementRecord.t) :
  NoDup ks ->
  Forall (fun rec => In (ImprovementRecord.metric rec) ks) h ->
  length h = list_sum (map (fun m => records_of_metric m h) ks).
Proof.
  intros Hnd Hall. induction Hall as [|rec h Hrec _ IH]; cbn [length].
  - clear Hnd. induction ks as [|k ks IH]; cbn; [reflexivity|]. exact IH.
  - rewrite (map_ext _
               (fun m => ((if String.eqb (ImprovementRecord.metric rec) m
                           then 1 else 0)
                          + records_of_metric m h)%nat))
      by (intros m; apply records_of_metric_cons).
    rewrite list_sum_map_add, list_sum_indicator, <- IH by assumption.
    reflexivity.
Qed.

(** X9: after any number of cycles run from construction, each metric's
    score is at least its baseline plus the number of its records, and it
    has fewer than [71 - baseline] records; the history never has more than
    180 records, whatever the draws, and so the report's
    [total_improvements] is at most 180. *)
Theorem improvements_are_bounded
  (rs : RandomSource) (now_at : nat -> string) (num_cycles rng clock : nat) :
  exists sums w' report,
    run_evolution_cycles rs now_at num_cycles (start rng clock) = Ok sums w' /\
    Forall (improved_by_count (performance_metrics (self w'))
                              (improvement_history (self w')))
           (baseline_performance (self w')) /\
    (length (improvement_history (self w')) <= 180)%nat /\
    get_evolution_report w' = Ok report w' /\
    (Report.total_improvements report <= 180)%nat.
Proof.
  destruct (run_cycles rs now_at num_cycles (start rng clock) Inv_init)
    as (sums & w' & Hrun & Hcyc & _ & HI').
  destruct (report_spec w' (Inv_has_baselines _ HI')) as (progress & Hrep & _).
  assert (H : baseline_performance (self w') = initial_metrics /\
              Dict.keys (performance_metrics (self w'))
              = Dict.keys initial_metrics /\
              Forall (improved_by_count (performance_metrics (self w'))
                                        (improvement_history (self w')))
                     initial_metrics /\
              Forall (fun rec => In (ImprovementRecord.metric rec)
                                    (Dict.keys initial_metrics))
                     (improvement_history (self w'))).
  { refine (cycles_invariant rs now_at
              (fun w => baseline_performance (self w) = initial_metrics /\
                        Dict.keys (performance_metrics (self w))
                        = Dict.keys initial_metrics /\
                        Forall (improved_by_count (performance_metrics (self w))
                                  (improvement_history (self w)))
                               initial_metrics /\
                        Forall (fun rec => In (ImprovementRecord.metric rec)
                                              (Dict.keys initial_metrics))
                               (improvement_history (self w)))
              _ _ _ _ Hcyc _).
    - intros w sm w1 HI (Hbase & Hkeys & Hcount & Hmet) Hev.
      pose proof (proj1 HI) as Hwf.
      destruct (evolve_cycle_applied rs now_at w Hwf (Inv_has_baselines _ HI))
        as (sm' & w1' & res & recs & Hev' & Hwfr & Hkr & Hok & Hhist & Hrecs
            & Hk & Hget & Hb & _).
      rewrite Hev in Hev'. injection Hev' as <- <-.
      split; [congruence|]. split; [congruence|]. split.
      + eapply Forall_impl; [|exact Hcount].
        intros [m b] (v & Hv & Hlow & Hhigh). cbn [fst snd] in *.
        unfold improved_by_count. cbn [fst snd].
        rewrite Hhist, records_of_metric_app, Hget.
        rewrite (records_of_metric_cycle _ _ _ _ m Hwfr Hrecs).
        unfold applied_value.
        destruct (Dict.get res m) as [r|] eqn:Hr.
        * destruct (TestResult.success r) eqn:Hs.
          -- rewrite Hv. cbn [option_map]. eexists. split; [reflexivity|].
             destruct (below_threshold_get _ m Hwf) as (v0 & Hv0 & Hlt).
             { rewrite <- Hkr. eapply DictFacts.get_in_keys; eassumption. }
             rewrite Hv in Hv0. injection Hv0 as <-.
             rewrite Forall_forall in Hok.
             destruct (Hok _ (DictFacts.get_in _ _ _ Hr)) as ([_ Hhi] & Hsg & _).
             cbn [snd] in Hhi, Hsg. destruct (Hsg Hs) as [_ Hone].
             pose proof (py_min_unclamped 100
                           (v + TestResult.performance_gain r)) as Hmin.
             rewrite Nat.add_1_r.
             pose proof (Qnat_S (records_of_metric m (improvement_history (self w))))
               as HS.
             set (x := py_min 100 (v + TestResult.performance_gain r)) in *.
             set (c := Qnat (records_of_metric m (improvement_history (self w))))
               in *.
             set (c' := Qnat (S (records_of_metric m
                                   (improvement_history (self w))))) in *.
             assert (Hx : x == v + TestResult.performance_gain r)
               by (apply Hmin; lra).
             split; lra.
          -- rewrite Nat.add_0_r. exists v. auto.
        * rewrite Nat.add_0_r. exists v. auto.
      + rewrite Hhist. apply Forall_app. split; [assumption|].
        apply Forall_forall. intros rec Hin.
        destruct (Forall2_in_r _ _ _ _ Hrecs Hin)
          as ([m r] & _ & old & Hold & ->).
        cbn [ImprovementRecord.metric fst] in *. rewrite <- Hkeys.
        eapply DictFacts.get_in_keys; eassumption.
    - split; [reflexivity|]. split; [reflexivity|]. split; [|constructor].
      unfold improved_by_count. cbn.
      repeat (constructor;
              [eexists; split; [reflexivity|]; split; [discriminate | reflexivity]|]).
      constructor. }
  destruct H as (Hbase & Hkeys & Hcount & Hmet).
  assert (Hlen : (length (improvement_history (self w')) <= 180)%nat).
  { rewrite (length_by_metric (Dict.keys initial_metrics) _
               (proj1 Inv_init) Hmet).
    unfold initial_metrics in Hcount.
    repeat match goal with
           | H : Forall _ (_ :: _) |- _ =>
               let Hx := fresh "Hx" in
               let Hr := fresh "Hr" in
               apply Forall_cons_iff in H; destruct H as [Hx Hr];
               destruct Hx as (? & _ & _ & Hx); cbn [fst snd] in Hx
           end.
    cbn [initial_metrics Dict.keys map fst list_sum fold_right].
    assert (records_of_metric "algorithm_efficiency"
              (improvement_history (self w')) < 26)%nat
      by (apply Qnat_lt; change (Qnat 26) with (26 # 1); lra).
    assert (records_of_metric "self_awareness_level"
              (improvement_history (self w')) < 51)%nat
      by (apply Qnat_lt; change (Qnat 51) with (51 # 1); lra).
    assert (records_of_metric "improvement_accuracy"
              (improvement_history (self w')) < 41)%nat
      by (apply Qnat_lt; change (Qnat 41) with (41 # 1); lra).
    assert (records_of_metric "code_quality"
              (improvement_history (self w')) < 31)%nat
      by (apply Qnat_lt; change (Qnat 31) with (31 # 1); lra).
    assert (records_of_metric "learning_speed"
              (improvement_history (self w')) < 36)%nat
      by (apply Qnat_lt; change (Qnat 36) with (36 # 1); lra).
    lia. }
  eexists sums, w', _. split; [assumption|].
  split; [now rewrite Hbase|]. split; [exact Hlen|].
  split; [exact Hrep | exact Hlen].
Qed.

(** ** X10: generations label the cycles *)

Lemma StronglySorted_app_le (l1 l2 : list Z) :
  StronglySorted Z.le l1 -> StronglySorted Z.le l2 ->
  (forall x y, In x l1 -> In y l2 -> (x <= y)%Z) ->
  StronglySorted Z.le (l1 ++ l2).
Proof.
  intros H1 H2 Hle. induction H1 as [|x l1 Hs IH Hx]; cbn; [assumption|].
  constructor.
  - apply IH. intros a b Ha Hb. apply Hle; [now right | assumption].
  - apply Forall_app. split; [assumption|].
    apply Forall_forall. intros y Hy. apply Hle; [now left | assumption].
Qed.

Lemma StronglySorted_constant (g : Z) (l : list Z) :
  Forall (fun x => x = g) l -> StronglySorted Z.le l.
Proof.
  induction 1 as [|x l Hx Hall IH]; constructor; [assumption|].
  subst x. eapply Forall_impl; [|exact Hall]. intros y ->. lia.
Qed.

Lemma records_of_generation_app (g : Z) (h1 h2 : list ImprovementRecord.t) :
  records_of_generation g (h1 ++ h2)
  = (records_of_generation g h1 + records_of_generation g h2)%nat.
Proof.
  unfold records_of_generation. now rewrite filter_app, length_app.
Qed.

Lemma records_of_generation_all (g : Z) (h : list ImprovementRecord.t) :
  Forall (fun rec => ImprovementRecord.generation rec = g) h ->
  records_of_generation g h = length h.
Proof.
  unfold records_of_generation.
  induction 1 as [|rec h Hrec _ IH]; cbn; [reflexivity|].
  rewrite Hrec, Z.eqb_refl. cbn. now rewrite IH.
Qed.

Lemma records_of_generation_none (g : Z) (h : list ImprovementRecord.t) :
  Forall (fun rec => ImprovementRecord.generation rec <> g) h ->
  records_of_generation g h = 0%nat.
Proof.
  unfold records_of_generation.
  induction 1 as [|rec h Hrec _ IH]; cbn; [reflexivity|].
  apply Z.eqb_neq in Hrec. now rewrite Hrec.
Qed.

Lemma cycles_generations (rs : RandomSource) (now_at : nat -> string)
  (w : World) (sums : list Summary.t) (w' : World) :
  cycles rs now_at w sums w' ->
  exists recs,
    improvement_history (self w')
    = (improvement_history (self w) ++ recs)%list /\
    generation (self w') = (generation (self w) + Z.of_nat (length sums))%Z /\
    map Summary.generation sums
    = map (fun i => (generation (self w) + Z.of_nat i)%Z)
          (seq 0 (length sums)) /\
    Forall (fun rec =>
              (generation (self w) <= ImprovementRecord.generation rec
               < generation (self w) + Z.of_nat (length sums))%Z) recs /\
    StronglySorted Z.le (map ImprovementRecord.generation recs) /\
    Forall (fun sm => records_of_generation (Summary.generation sm) recs
                      = Summary.improvements_successful sm) sums.
Proof.
  induction 1 as [w|w sm w1 sums w' HI Hev _ IH].
  - exists []. rewrite app_nil_r. cbn [length Z.of_nat seq map].
    repeat split; try constructor. lia.
  - destruct IH as (recs2 & Hhist2 & Hg2 & Hmap2 & Hb2 & Hs2 & Hc2).
    destruct (evolve_cycle_applied rs now_at w (proj1 HI)
                (Inv_has_baselines _ HI))
      as (sm' & w1' & res & recs1 & Hev' & _ & _ & _ & Hhist1 & Hrecs & _ & _
          & _ & Hg1 & Hsg & Hsucc).
    rewrite Hev in Hev'. injection Hev' as <- <-.
    assert (Hgen1 : Forall (fun rec => ImprovementRecord.generation rec
                                       = generation (self w)) recs1).
    { apply Forall_forall. intros rec Hin.
      destruct (Forall2_in_r _ _ _ _ Hrecs Hin) as (mr & _ & old & _ & ->).
      reflexivity. }
    rewrite Hg1 in *.
    exists (recs1 ++ recs2)%list. cbn [length].
    split; [now rewrite Hhist2, Hhist1, app_assoc|].
    split; [rewrite Hg2; lia|]. split; [|split; [|split]].
    + cbn [map seq]. rewrite Hsg, <- seq_shift, map_map, Hmap2. f_equal; [lia|].
      apply map_ext. intros i. lia.
    + apply Forall_app. split.
      * eapply Forall_impl; [|exact Hgen1]. intros rec ->. lia.
      * eapply Forall_impl; [|exact Hb2]. intros rec Hrec. cbv beta in *. lia.
    + rewrite map_app. apply StronglySorted_app_le; [|assumption|].
      * apply (StronglySorted_constant (generation (self w))).
        apply Forall_map. exact Hgen1.
      * intros x y Hx Hy. apply in_map_iff in Hx, Hy.
        destruct Hx as (r1 & <- & Hr1), Hy as (r2 & <- & Hr2).
        rewrite Forall_forall in Hgen1, Hb2.
        rewrite (Hgen1 _ Hr1). specialize (Hb2 _ Hr2). lia.
    + constructor.
      * rewrite records_of_generation_app, Hsg.
        rewrite (records_of_generation_all _ _ Hgen1).
        rewrite records_of_generation_none; [lia|].
        eapply Forall_impl; [|exact Hb2]. intros rec Hrec. cbv beta in *. lia.
      * apply Forall_forall. intros sm' Hin.
        rewrite Forall_forall in Hc2. rewrite <- (Hc2 _ Hin).
        rewrite records_of_generation_app.
        rewrite records_of_generation_none; [reflexivity|].
        assert (Hge : (generation (self w) + 1 <= Summary.generation sm')%Z).
        { apply (in_map Summary.generation) in Hin. rewrite Hmap2 in Hin.
          apply in_map_iff in Hin. destruct Hin as (i & <- & _). lia. }
        eapply Forall_impl; [|exact Hgen1]. intros rec ->. lia.
Qed.

(** X10: after [n] cycles run from construction the generation counter is
    [n + 1] and the summaries carry the generations 1 to [n], in order.
    The generations of the history never decrease and lie between 1 and
    [n]; for every summary, the history has as many records of its
    generation as it reports successes. *)
Theorem generations_label_cycles
  (rs : RandomSource) (now_at : nat -> string) (num_cycles rng clock : nat) :
  exists sums w',
    run_evolution_cycles rs now_at num_cycles (start rng clock) = Ok sums w' /\
    generation (self w') = Z.of_nat (S num_cycles) /\
    map Summary.generation sums = map Z.of_nat (seq 1 num_cycles) /\
    StronglySorted Z.le
      (map ImprovementRecord.generation (improvement_history (self w'))) /\
    Forall (fun rec => (1 <= ImprovementRecord.generation rec
                        <= Z.of_nat num_cycles)%Z)
           (improvement_history (self w')) /\
    Forall (fun sm =>
              records_of_generation (Summary.generation sm)
                                    (improvement_history (self w'))
              = Summary.improvements_successful sm) sums.
Proof.
  destruct (run_cycles rs now_at num_cycles (start rng clock) Inv_init)
    as (sums & w' & Hrun & Hcyc & Hlen & _).
  destruct (cycles_generations rs now_at _ _ _ Hcyc)
    as (recs & Hhist & Hg & Hmap & Hb & Hs & Hc).
  cbn [start self __init__ generation improvement_history app] in *.
  rewrite Hlen in *. exists sums, w'. split; [assumption|].
  split; [rewrite Hg; lia|]. split; [|split; [|split]].
  - rewrite Hmap, <- seq_shift, map_map. apply map_ext. intros i. lia.
  - now rewrite Hhist.
  - rewrite Hhist. eapply Forall_impl; [|exact Hb]. intros rec Hrec. cbv beta in *. lia.
  - now rewrite Hhist.
Qed.

(** ** X11: what [get_evolution_report] returns *)

Lemma report_step (pm baseline acc : Dict.t Q) (m : string) (c b : Q)
  (w : World) :
  Dict.get pm m = Some c -> Dict.get baseline m = Some b ->
  (c <- getitem pm m ;;
   b <- getitem baseline m ;;
   ret (Dict.set acc m (c - b))) w
  = Ok (Dict.set acc m (c - b)) w.
Proof. intros Hc Hb. unfold bind, getitem. now rewrite Hc, Hb. Qed.

Lemma report_loop_exact (pm baseline : Dict.t Q) (w : World)
  (l pre : Dict.t Q) :
  pm = (pre ++ l)%list ->
  Dict.wf pm ->
  incl (Dict.keys pm) (Dict.keys baseline) ->
  for_fold (Dict.keys l) (deltas baseline pre)
    (fun acc metric =>
       c <- getitem pm metric ;;
       b <- getitem baseline metric ;;
       ret (Dict.set acc metric (c - b))) w
  = Ok (deltas baseline pm) w.
Proof.
  revert pre. induction l as [|[m v] l IH]; intros pre Hpm Hwf Hincl.
  - rewrite app_nil_r in Hpm. subst. reflexivity.
  - cbn [Dict.keys map fst for_fold].
    assert (Hin : In (m, v) pm) by (rewrite Hpm; apply in_elt).
    pose proof (DictFacts.wf_in_get _ _ _ Hwf Hin) as Hc.
    destruct (DictFacts.in_keys_get baseline m) as [b Hb].
    { apply Hincl. now apply (in_map fst) in Hin. }
    rewrite (bind_ok _ _ _ _ _ (report_step pm baseline _ m v b w Hc Hb)).
    assert (Hfresh : ~ In m (Dict.keys (deltas baseline pre))).
    { unfold deltas, Dict.keys. rewrite map_map. cbn [fst].
      apply (DictFacts.wf_app_fresh pre m v).
      apply (DictFacts.wf_prefix _ _ l). now rewrite <- Hpm. }
    rewrite (DictFacts.set_fresh _ _ _ Hfresh).
    replace (deltas baseline pre ++ [(m, v - b)])%list
      with (deltas baseline (pre ++ [(m, v)])%list).
    + apply IH; [|assumption|assumption]. now rewrite <- app_assoc.
    + unfold deltas. rewrite map_app. cbn [map fst snd].
      unfold Dict.get_default. now rewrite Hb.
Qed.

Lemma report_loop_prefix (pm baseline : Dict.t Q) (w : World)
  (pre : list string) (acc : Dict.t Q) :
  incl pre (Dict.keys pm) -> incl pre (Dict.keys baseline) ->
  exists acc',
    for_fold pre acc
      (fun acc metric =>
         c <- getitem pm metric ;;
         b <- getitem baseline metric ;;
         ret (Dict.set acc metric (c - b))) w
    = Ok acc' w.
Proof.
  revert acc. induction pre as [|m pre IH]; intros acc Hpm Hbase.
  - exists acc. reflexivity.
  - destruct (DictFacts.in_keys_get pm m) as [c Hc]; [apply Hpm; now left|].
    destruct (DictFacts.in_keys_get baseline m) as [b Hb];
      [apply Hbase; now left|].
    cbn [for_fold].
    rewrite (bind_ok _ _ _ _ _ (report_step pm baseline _ m c b w Hc Hb)).
    apply IH; intros k Hk; [apply Hpm | apply Hbase]; now right.
Qed.

Lemma report_exact (w : World) :
  Dict.wf (performance_metrics (self w)) ->
  has_baselines (self w) ->
  get_evolution_report w
  = Ok (Report.mk (generation (self w)) (baseline_performance (self w))
          (performance_metrics (self w))
          (length (improvement_history (self w)))
          (improvement_history (self w))
          (deltas (baseline_performance (self w))
                  (performance_metrics (self w))))
       w.
Proof.
  intros Hwf Hbase. unfold get_evolution_report, bind at 1, get_self.
  erewrite bind_ok; [reflexivity|].
  apply (report_loop_exact _ _ w (performance_metrics (self w)) []);
    [reflexivity | assumption | assumption].
Qed.

(** X11: when the metrics form a dict and all have a baseline,
    [get_evolution_report] returns, without changing anything, the
    generation counter, the two mappings, the history with its length, and
    for each metric, in order, its current score minus its baseline.  When
    a metric has no baseline it raises [KeyError] for the first such
    metric. *)
Theorem get_evolution_report_result (w : World) :
  (Dict.wf (performance_metrics (self w)) ->
   has_baselines (self w) ->
   get_evolution_report w
   = Ok (Report.mk (generation (self w)) (baseline_performance (self w))
           (performance_metrics (self w))
           (length (improvement_history (self w)))
           (improvement_history (self w))
           (deltas (baseline_performance (self w))
                   (performance_metrics (self w))))
        w) /\
  (forall pre m post,
      Dict.keys (performance_metrics (self w)) = (pre ++ m :: post)%list ->
      incl pre (Dict.keys (baseline_performance (self w))) ->
      ~ In m (Dict.keys (baseline_performance (self w))) ->
      get_evolution_report w = Raise (KeyError m) w).
Proof.
  split.
  - apply report_exact.
  - intros pre m post Hkeys Hpre Hmiss.
    unfold get_evolution_report, bind at 1, get_self.
    rewrite Hkeys. unfold bind at 1. rewrite for_fold_app.
    destruct (report_loop_prefix (performance_metrics (self w))
                (baseline_performance (self w)) w pre Dict.empty)
      as [acc Hacc].
    { intros k Hk. rewrite Hkeys. apply in_or_app. now left. }
    { assumption. }
    rewrite (bind_ok _ _ _ _ _ Hacc). cbn [for_fold].
    destruct (DictFacts.in_keys_get (performance_metrics (self w)) m)
      as [c Hc].
    { rewrite Hkeys. apply in_elt. }
    unfold bind, getitem.
    rewrite Hc, (DictFacts.get_none _ _ Hmiss). reflexivity.
Qed.

(** ** X12: a metric without a baseline *)

Lemma delta_from_prefix (baseline : Dict.t Q) (w : World)
  (pre acc : Dict.t Q) :
  incl (Dict.keys pre) (Dict.keys baseline) ->
  exists acc',
    for_fold pre acc
      (fun acc '(metric, current) =>
         b <- getitem baseline metric ;;
         ret (Dict.set acc metric (current - b))) w
    = Ok acc' w.
Proof.
  revert acc. induction pre as [|[m v] pre IH]; intros acc Hincl.
  - exists acc. reflexivity.
  - destruct (DictFacts.in_keys_get baseline m) as [b Hb];
      [apply Hincl; now left|].
    cbn [for_fold]. unfold bind at 1 2, getitem at 1. rewrite Hb.
    unfold ret at 1. apply IH. intros k Hk. apply Hincl. now right.
Qed.

Lemma delta_from_raises (baseline d : Dict.t Q) (w : World)
  (pre : list string) (m : string) (post : list string) :
  Dict.keys d = (pre ++ m :: post)%list ->
  incl pre (Dict.keys baseline) ->
  ~ In m (Dict.keys baseline) ->
  forall (A : Type) (k : Dict.t Q -> M A),
    bind (delta_from baseline d) k w = Raise (KeyError m) w.
Proof.
  intros Hkeys Hpre Hmiss A k. unfold Dict.keys in Hkeys.
  apply map_eq_app in Hkeys. destruct Hkeys as (dpre & drest & -> & Hk1 & Hk2).
  apply map_eq_cons in Hk2. destruct Hk2 as ([m' v] & dpost & -> & Hm & _).
  cbn [fst] in Hm. subst m'.
  unfold delta_from, Dict.items. unfold bind at 1. rewrite for_fold_app.
  destruct (delta_from_prefix baseline w dpre Dict.empty) as [acc Hacc].
  { unfold Dict.keys. now rewrite Hk1. }
  rewrite (bind_ok _ _ _ _ _ Hacc). cbn [for_fold].
  unfold bind, getitem. now rewrite (DictFacts.get_none _ _ Hmiss).
Qed.

(** One cycle up to the point where the summary is built. *)
Lemma evolve_before_summary (rs : RandomSource) (now_at : nat -> string)
  (w : World) :
  exists (analysis : Dict.t Analysis.t) (improvements : Dict.t Improvement.t)
         (w1 : World) (test_results : Dict.t TestResult.t) (w2 w3 : World)
         (recs : list ImprovementRecord.t),
    analyze_self_performance w = Ok analysis w /\
    generate_improvements rs analysis w = Ok improvements w1 /\
    test_improvements rs improvements w1 = Ok test_results w2 /\
    apply_improvements now_at test_results w2 = Ok tt w3 /\
    improvement_history (self w3)
    = (improvement_history (self w) ++ recs)%list /\
    records_applied (generation (self w)) (performance_metrics (self w))
                    test_results recs (performance_metrics (self w3)) /\
    generation (self w3) = generation (self w) /\
    baseline_performance (self w3) = baseline_performance (self w) /\
    Dict.keys (performance_metrics (self w3))
    = Dict.keys (performance_metrics (self w)) /\
    evolve_generation rs now_at w
    = (total <- delta_from (baseline_performance (self w3))
                           (performance_metrics (self w3)) ;;
       ret (Summary.mk (generation (self w3) + 1 - 1)
              analysis
              (length improvements)
              (length (filter TestResult.success (Dict.values test_results)))
              (Dict.copy (performance_metrics (self w3)))
              total))
        (next_generation w3).
Proof.
  destruct (analyze_spec w) as (analysis & Han & Hwfa & Hent & Hka & _).
  destruct (generate_spec rs analysis w)
    as (imps & w1 & Hgen & Hs1 & Hc1 & Hwfi & Hki & _ & _).
  destruct (test_spec rs imps w1)
    as (res & w2 & Htest & Hs2 & Hc2 & Hwfr & Hkr & _ & _).
  assert (Hincl : Forall (fun mr => successful mr = true ->
                     In (fst mr) (Dict.keys (performance_metrics (self w2))))
                    res).
  { apply Forall_forall. intros [m r] Hin _. cbn [fst].
    rewrite Hs2, Hs1. apply Hka.
    apply (in_map fst) in Hin. cbn [fst] in Hin.
    apply Hkr, Hki in Hin. unfold Dict.keys in *.
    apply in_map_iff in Hin. destruct Hin as (x & <- & Hx).
    apply filter_In in Hx. apply in_map. tauto. }
  destruct (apply_records now_at res w2 Hincl)
    as (w3 & recs & Happ & Hhist & Hrecs & Hk3 & Hg3 & Hb3 & _).
  rewrite Hs2, Hs1 in Hhist, Hrecs, Hk3, Hg3, Hb3.
  exists analysis, imps, w1, res, w2, w3, recs.
  do 9 (split; [assumption|]).
  unfold evolve_generation.
  rewrite (bind_ok _ _ _ _ _ Han), (bind_ok _ _ _ _ _ Hgen),
    (bind_ok _ _ _ _ _ Htest), (bind_ok _ _ _ _ _ Happ).
  unfold bind at 1 2 3, get_self, put_self. reflexivity.
Qed.

(** X12: when some metric has no baseline, [evolve_generation] raises
    [KeyError] for the first such metric, and it does so in the state the
    whole cycle leaves: the candidates were generated and tested, their
    results applied by [apply_improvements], with one record written per
    success and the new values written into the metrics, and the generation
    counter incremented.  The call does not return, yet the state is that
    of the next generation. *)
Theorem evolve_generation_missing_baseline
  (rs : RandomSource) (now_at : nat -> string) (w : World)
  (pre : list string) (m : string) (post : list string) :
  Dict.keys (performance_metrics (self w)) = (pre ++ m :: post)%list ->
  incl pre (Dict.keys (baseline_performance (self w))) ->
  ~ In m (Dict.keys (baseline_performance (self w))) ->
  exists analysis improvements w1 test_results w2 w3 recs,
    analyze_self_performance w = Ok analysis w /\
    generate_improvements rs analysis w = Ok improvements w1 /\
    test_improvements rs improvements w1 = Ok test_results w2 /\
    apply_improvements now_at test_results w2 = Ok tt w3 /\
    evolve_generation rs now_at w = Raise (KeyError m) (next_generation w3) /\
    improvement_history (self (next_generation w3))
    = (improvement_history (self w) ++ recs)%list /\
    records_applied (generation (self w)) (performance_metrics (self w))
                    test_results recs
                    (performance_metrics (self (next_generation w3))) /\
    generation (self (next_generation w3)) = (generation (self w) + 1)%Z.
Proof.
  intros Hkeys Hpre Hmiss.
  destruct (evolve_before_summary rs now_at w)
    as (analysis & imps & w1 & res & w2 & w3 & recs & Han & Hgen & Htest
        & Happ & Hhist & Hrecs & Hg3 & Hb3 & Hk3 & Hev).
  exists analysis, imps, w1, res, w2, w3, recs.
  do 4 (split; [assumption|]). split; [|split; [|split]].
  - rewrite Hev. apply (delta_from_raises _ _ _ pre m post).
    + now rewrite Hk3.
    + now rewrite Hb3.
    + now rewrite Hb3.
  - exact Hhist.
  - exact Hrecs.
  - cbn. now rewrite Hg3.
Qed.

Lemma evolve_generation_missing_baseline_witness :
  (exists analysis improvements w1 test_results w2 w3 recs,
      analyze_self_performance (mkWorld unbaselined_engine 0 0)
      = Ok analysis (mkWorld unbaselined_engine 0 0) /\
      generate_improvements half_source analysis (mkWorld unbaselined_engine 0 0)
      = Ok improvements w1 /\
      test_improvements half_source improvements w1 = Ok test_results w2 /\
      apply_improvements still_clock test_results w2 = Ok tt w3 /\
      evolve_generation half_source still_clock (mkWorld unbaselined_engine 0 0)
      = Raise (KeyError "response_time") (next_generation w3) /\
      improvement_history (self (next_generation w3)) = ([] ++ recs)%list /\
      records_applied 1 (performance_metrics unbaselined_engine)
                      test_results recs
                      (performance_metrics (self (next_generation w3))) /\
      generation (self (next_generation w3)) = 2%Z) /\
  (exists w',
      evolve_generation half_source still_clock (mkWorld unbaselined_engine 0 0)
      = Raise (KeyError "response_time") w' /\
      generation (self w') = 2%Z /\
      length (improvement_history (self w')) = 6%nat /\
      Dict.get (performance_metrics (self w')) "code_quality"
      = Some (40 + (2 + (12 - 2) * (1 # 2))
                   * ((5 # 10) + ((12 # 10) - (5 # 10)) * (1 # 2)))).
Proof.
  split.
  - apply (evolve_generation_missing_baseline half_source still_clock
             (mkWorld unbaselined_engine 0 0)
             (Dict.keys initial_metrics) "response_time" []).
    + reflexivity.
    + intros k Hk. exact Hk.
    + cbn. intuition discriminate.
  - eexists. split; [vm_compute; reflexivity|].
    split; [reflexivity|]. split; reflexivity.
Defined.

(** ** X13: runs compose *)

(** X13: running [a + b] cycles is running [a] cycles and then [b] cycles
    from the state they leave: the same summaries, in order, the same final
    state, and the same exception if one of them raises. *)
Theorem run_evolution_cycles_compose
  (rs : RandomSource) (now_at : nat -> string) (a b : nat) (w : World) :
  run_evolution_cycles rs now_at (a + b) w
  = (s1 <- run_evolution_cycles rs now_at a ;;
     s2 <- run_evolution_cycles rs now_at b ;;
     ret (s1 ++ s2)%list) w.
Proof.
  revert w. induction a as [|a IH]; intros w.
  - cbn [Nat.add run_evolution_cycles]. unfold bind, ret.
    destruct (run_evolution_cycles rs now_at b w); reflexivity.
  - cbn [Nat.add run_evolution_cycles]. unfold bind in IH |- *.
    unfold get_self.
    destruct (evolve_generation rs now_at w) as [r w1|e w1]; [|reflexivity].
    match goal with
    | |- context [for_fold ?l ?acc ?body ?w0] =>
        destruct (for_fold l acc body w0) as [u w2|e w2]
    end; [|reflexivity].
    rewrite IH.
    destruct (run_evolution_cycles rs now_at a w2) as [s1 w3|e w3];
      [|reflexivity].
    unfold ret.
    destruct (run_evolution_cycles rs now_at b w3); reflexivity.
Qed.

(** ** X14: the relative gains the script prints *)

Lemma relative_gains_loop_ok (baseline d : Dict.t Q) :
  Forall (fun mv => exists b, Dict.get baseline (fst mv) = Some b /\
                              0 < b /\ b <= snd mv) d ->
  exists gains,
    relative_gains_loop baseline (deltas baseline d) = inr gains /\
    map (fun g => fst (fst g)) gains = Dict.keys d /\
    Forall (fun g => 0 <= snd (fst g) /\ 0 <= snd g) gains.
Proof.
  induction 1 as [|[m v] d (b & Hb & Hpos & Hle) _ (gains & Hloop & Hkeys & Hall)].
  - exists []. repeat split. constructor.
  - cbn [fst snd] in *.
    change (deltas baseline ((m, v) :: d))
      with ((m, v - Dict.get_default baseline m 0) :: deltas baseline d).
    cbn [relative_gains_loop].
    unfold Dict.get_default. rewrite Hb. unfold py_div.
    destruct (Qeq_bool b 0) eqn:E.
    + apply Qeq_bool_iff in E. lra.
    + rewrite Hloop.
      eexists. split; [reflexivity|]. split.
      * cbn. now rewrite Hkeys.
      * constructor; [|assumption]. cbn [fst snd]. split; [lra|].
        apply Qmult_le_0_compat; [|discriminate].
        apply Qmult_le_0_compat; [lra|].
        apply Qlt_le_weak, Qinv_lt_0_compat. exact Hpos.
Qed.

(** X14: on the report taken after any number of cycles run from
    construction, the last loop of the script finds a non-zero baseline for
    every metric: it raises neither [KeyError] nor [ZeroDivisionError], and
    prints for each metric, in order, a non-negative improvement and a
    non-negative percentage gain. *)
Theorem script_relative_gains
  (rs : RandomSource) (now_at : nat -> string) (num_cycles rng clock : nat) :
  exists sums w' report gains,
    run_evolution_cycles rs now_at num_cycles (start rng clock) = Ok sums w' /\
    get_evolution_report w' = Ok report w' /\
    relative_gains report = inr gains /\
    map (fun g => fst (fst g)) gains = Dict.keys initial_metrics /\
    Forall (fun g => 0 <= snd (fst g) /\ 0 <= snd g) gains.
Proof.
  destruct (run_cycles rs now_at num_cycles (start rng clock) Inv_init)
    as (sums & w' & Hrun & Hcyc & _ & HI').
  destruct (cycles_facts rs now_at _ _ _ Hcyc Inv_init) as (_ & _ & _ & Hle & _).
  pose proof (report_exact w' (proj1 HI') (Inv_has_baselines _ HI')) as Hrep.
  pose proof (run_same_baseline rs now_at num_cycles (start rng clock)) as Hb.
  rewrite Hrun in Hb. unfold same_baseline in Hb. cbn in Hb.
  assert (Hkeys : Dict.keys (performance_metrics (self w'))
                  = Dict.keys initial_metrics).
  { refine (cycles_invariant rs now_at
              (fun w => Dict.keys (performance_metrics (self w))
                        = Dict.keys initial_metrics)
              _ _ _ _ Hcyc eq_refl).
    intros w sm w1 HI Hk Hev.
    destruct (evolve_facts rs now_at w sm w1 (Inv_has_baselines _ HI) Hev)
      as (_ & _ & _ & _ & _ & _ & _ & _ & _ & _ & Hk1 & _).
    congruence. }
  destruct (relative_gains_loop_ok (baseline_performance (self w'))
              (performance_metrics (self w')))
    as (gains & Hloop & Hg & Hall).
  { destruct HI' as [_ Hall]. eapply Forall_impl; [|exact Hall].
    intros [m v] (_ & b & Hbm & Hbv). cbn [fst snd] in *.
    exists b. split; [assumption|]. split; [|assumption].
    rewrite Hb in Hbm. apply DictFacts.get_in in Hbm.
    cbn in Hbm.
    repeat (destruct Hbm as [[= <- <-]|Hbm]; [reflexivity|]).
    contradiction. }
  eexists sums, w', _, gains. split; [assumption|]. split; [exact Hrep|].
  split; [exact Hloop|]. split; [now rewrite Hg|assumption].
Qed.

(** ** X15: the report agrees with the summary *)

(** X15: the report taken right after a cycle agrees with the summary
    the cycle returned: its generation is the summary's plus one, its
    current metrics are the summary's snapshot, its progress per metric is
    the summary's difference to the baseline, and its
    [total_improvements] is the number before the cycle plus the successes
    the summary reports. *)
Theorem report_agrees_with_summary
  (rs : RandomSource) (now_at : nat -> string) (w : World) :
  Dict.wf (performance_metrics (self w)) ->
  has_baselines (self w) ->
  exists sm w' report,
    evolve_generation rs now_at w = Ok sm w' /\
    get_evolution_report w' = Ok report w' /\
    Report.current_generation report = (Summary.generation sm + 1)%Z /\
    Report.current_performance report = Summary.performance_metrics sm /\
    Report.overall_progress report
    = Summary.total_improvement_from_baseline sm /\
    Report.total_improvements report
    = (length (improvement_history (self w))
       + Summary.improvements_successful sm)%nat /\
    Report.baseline_performance report = baseline_performance (self w).
Proof.
  intros Hwf Hbase.
  destruct (evolve_cycle rs now_at w Hwf Hbase)
    as (imps & res & w2 & w3 & Hs2 & _ & _ & Hwfr & _ & Hincl & _ & _
        & _ & Happ & Hev).
  destruct (apply_loop_spec now_at res w2 Hwfr)
    as (w3' & recs & Happ' & _ & Hg3 & Hb3 & _ & _ & Hhist & Hrecs & _
        & Hk3 & _).
  { now rewrite Hs2. }
  rewrite Happ in Happ'. injection Happ' as <-. rewrite Hs2 in *.
  assert (Hwf3 : Dict.wf (performance_metrics (self (next_generation w3)))).
  { cbn [next_generation self with_generation performance_metrics].
    eapply DictFacts.wf_keys; eassumption. }
  assert (Hbase3 : has_baselines (self (next_generation w3))).
  { unfold has_baselines.
    cbn [next_generation self with_generation performance_metrics
         baseline_performance].
    rewrite Hk3, Hb3. exact Hbase. }
  pose proof (report_exact _ Hwf3 Hbase3) as Hrep.
  eexists _, _, _. split; [exact Hev|]. split; [exact Hrep|].
  cbn [Report.current_generation Report.current_performance
       Report.overall_progress Report.total_improvements
       Report.baseline_performance Summary.generation
       Summary.performance_metrics Summary.total_improvement_from_baseline
       Summary.improvements_successful next_generation self with_generation
       generation performance_metrics improvement_history
       baseline_performance].
  split; [now rewrite Hg3|]. split; [reflexivity|].
  split; [now rewrite Hb3|]. split; [|exact Hb3].
  rewrite Hhist, length_app. f_equal. symmetry.
  eapply Forall2_length; eassumption.
Qed.

Lemma report_agrees_with_summary_witness :
  exists sm w' report,
    evolve_generation half_source still_clock (start 0 0) = Ok sm w' /\
    get_evolution_report w' = Ok report w' /\
    Report.current_generation report = (Summary.generation sm + 1)%Z /\
    Report.current_performance report = Summary.performance_metrics sm /\
    Report.overall_progress report
    = Summary.total_improvement_from_baseline sm /\
    Report.total_improvements report
    = (0 + Summary.improvements_successful sm)%nat /\
    Report.baseline_performance report = initial_metrics.
Proof.
  apply (report_agrees_with_summary half_source still_clock (start 0 0)).
  - unfold Dict.wf. cbn.
    repeat (constructor; [cbn; intuition discriminate|]). constructor.
  - intros m Hm. exact Hm.
Defined.
